(** * IDLark: the IDL type algebra, the extended-attribute store, the
    definition containers and the type reductions of the transformer.

    The development embeds [idl_types.py], [idl_definitions.py] and the
    array-type reductions of [idlark.py].  Python objects with identity
    live in an explicit heap that the operations pass along; exceptions are
    the [Raise] outcomes of an error monad. *)

From Stdlib Require Import String Ascii List Bool Arith ZArith Lia Permutation Sorted.
From stdpp Require Import gmap strings list sorting.

Set Warnings "-register-all".
Local Open Scope string_scope.
Local Open Scope list_scope.

(** ** Outcomes of fallible code *)

(** The exception classes the modelled code can raise.  [BadReference] is
    not a Python exception: it is the outcome of following a reference that
    is not allocated, or that holds an object of a class the typed interface
    of the code excludes. *)
Inductive exn : Type :=
| ValueError (msg : string)
| AssertionError
| TypeError (msg : string)
| AttributeError
| KeyError
| IndexError
| Exception (msg : string)
| BadReference.

Inductive result (A : Type) : Type :=
| Ok (a : A)
| Raise (e : exn).
Arguments Ok {A} a.
Arguments Raise {A} e.

Definition is_ok {A} (r : result A) : bool :=
  match r with Ok _ => true | Raise _ => false end.

Definition bind {A B} (r : result A) (k : A -> result B) : result B :=
  match r with
  | Ok a => k a
  | Raise e => Raise e
  end.

Notation "'let*' x ':=' e 'in' k" :=
  (bind e (fun x => k))
  (at level 10, x name, e at level 100, k at level 200).

(** ** idl_types.py *)

Module Types.

(** [TYPE_NAMES.get(base_type, base_type)] *)
Definition TYPE_NAMES : list (string * string) :=
  [ ("any", "Any"); ("boolean", "Boolean"); ("byte", "Byte");
    ("octet", "Octet"); ("short", "Short");
    ("unsigned short", "UnsignedShort"); ("long", "Long");
    ("unsigned long", "UnsignedLong"); ("long long", "LongLong");
    ("unsigned long long", "UnsignedLongLong"); ("float", "Float");
    ("unrestricted float", "UnrestrictedFloat"); ("double", "Double");
    ("unrestricted double", "UnrestrictedDouble"); ("DOMString", "String");
    ("ByteString", "ByteString"); ("USVString", "USVString");
    ("object", "Object") ].

Fixpoint dict_get (d : list (string * string)) (k : string) : option string :=
  match d with
  | [] => None
  | (k', v) :: d' => if String.eqb k k' then Some v else dict_get d' k
  end.

Definition EXTENDED_ATTRIBUTES_APPLICABLE_TO_TYPES : list string :=
  [ "AllowShared"; "Clamp"; "EnforceRange"; "StringContext"; "TreatNullAs" ].

Definition str_in (s : string) (l : list string) : bool :=
  existsb (String.eqb s) l.

(** The closed set of type values.  The extended attributes of an annotated
    type are a mapping from attribute key to the attribute's text. *)
Inductive IdlTypeBase : Type :=
| IdlType (base_type : string)
| IdlPromiseType (nested_type : IdlTypeBase)
| IdlUnionType (member_types : list IdlTypeBase)
| IdlSequenceType (element_type : IdlTypeBase)
| IdlFrozenArrayType (element_type : IdlTypeBase)
| IdlObservableArrayType (element_type : IdlTypeBase)
| IdlRecordType (key_type value_type : IdlTypeBase)
| IdlNullableType (nested_type : IdlTypeBase)
| IdlAnnotatedType (nested_type : IdlTypeBase)
                   (extended_attributes : gmap string string).

(** Induction with the members of a union covered. *)
Section IdlTypeBase_induction.
Variable P : IdlTypeBase -> Prop.
Hypothesis H_type : forall b, P (IdlType b).
Hypothesis H_promise : forall n, P n -> P (IdlPromiseType n).
Hypothesis H_union : forall ms, Forall P ms -> P (IdlUnionType ms).
Hypothesis H_sequence : forall e, P e -> P (IdlSequenceType e).
Hypothesis H_frozen : forall e, P e -> P (IdlFrozenArrayType e).
Hypothesis H_observable : forall e, P e -> P (IdlObservableArrayType e).
Hypothesis H_record : forall k v, P k -> P v -> P (IdlRecordType k v).
Hypothesis H_nullable : forall n, P n -> P (IdlNullableType n).
Hypothesis H_annotated : forall n e, P n -> P (IdlAnnotatedType n e).

Fixpoint IdlTypeBase_nested_ind (t : IdlTypeBase) : P t :=
  match t with
  | IdlType b => H_type b
  | IdlPromiseType n => H_promise n (IdlTypeBase_nested_ind n)
  | IdlUnionType ms =>
      H_union ms
        ((fix members (l : list IdlTypeBase) : Forall P l :=
            match l with
            | [] => List.Forall_nil P
            | m :: l' =>
                List.Forall_cons P m l' (IdlTypeBase_nested_ind m)
                  (members l')
            end) ms)
  | IdlSequenceType e => H_sequence e (IdlTypeBase_nested_ind e)
  | IdlFrozenArrayType e => H_frozen e (IdlTypeBase_nested_ind e)
  | IdlObservableArrayType e => H_observable e (IdlTypeBase_nested_ind e)
  | IdlRecordType k v =>
      H_record k v (IdlTypeBase_nested_ind k) (IdlTypeBase_nested_ind v)
  | IdlNullableType n => H_nullable n (IdlTypeBase_nested_ind n)
  | IdlAnnotatedType n e => H_annotated n e (IdlTypeBase_nested_ind n)
  end.
End IdlTypeBase_induction.

(** [', '.join(...)] *)
Definition join (sep : string) (l : list string) : string :=
  String.concat sep l.

(** The [name] property of every class.  A promise, like every
    [IdlNestedType] built from one nested type, has [member_types =
    [nested_type]], so its joined member names are the nested name. *)
Fixpoint name (t : IdlTypeBase) : string :=
  match t with
  | IdlType base_type =>
      match dict_get TYPE_NAMES base_type with
      | Some n => n
      | None => base_type
      end
  | IdlPromiseType n => "Promise(" ++ join ", " [name n] ++ ")"
  | IdlUnionType ms => "Union(" ++ join ", " (List.map name ms) ++ ")"
  | IdlSequenceType e => "Sequence(" ++ name e ++ ")"
  | IdlFrozenArrayType e => "FrozenArray(" ++ name e ++ ")"
  | IdlObservableArrayType e => "ObservableArray(" ++ name e ++ ")"
  | IdlRecordType k v => "Record(" ++ name k ++ ", " ++ name v ++ ")"
  | IdlNullableType n => name n
  | IdlAnnotatedType n _ => name n
  end.

(** [isinstance(t, IdlNestedType)] *)
Definition is_nested_type (t : IdlTypeBase) : bool :=
  match t with
  | IdlType _ | IdlRecordType _ _ => false
  | _ => true
  end.

(** [IdlNestedType.get_nested_type]: [None] for a union. *)
Definition get_nested_type (t : IdlTypeBase) : option IdlTypeBase :=
  match t with
  | IdlPromiseType n | IdlSequenceType n | IdlFrozenArrayType n
  | IdlObservableArrayType n | IdlNullableType n | IdlAnnotatedType n _ =>
      Some n
  | _ => None
  end.

(** [IdlNestedType.get_types] *)
Definition get_types (t : IdlTypeBase) : list IdlTypeBase :=
  match t with
  | IdlUnionType ms => ms
  | IdlPromiseType n | IdlSequenceType n | IdlFrozenArrayType n
  | IdlObservableArrayType n | IdlNullableType n | IdlAnnotatedType n _ =>
      [n]
  | _ => []
  end.

(** [t == u], dispatched on the class of [t] as Python does; every
    [__eq__] starts with [if not isinstance(other, <own class>): return
    False]. *)
Fixpoint type_eq (t u : IdlTypeBase) : bool :=
  match t, u with
  | IdlType b, IdlType b' => String.eqb b b'
  | IdlPromiseType _, IdlPromiseType _ => String.eqb (name t) (name u)
  | IdlUnionType _, IdlUnionType _ => String.eqb (name t) (name u)
  | IdlSequenceType _, IdlSequenceType _ => String.eqb (name t) (name u)
  | IdlFrozenArrayType _, IdlFrozenArrayType _ =>
      String.eqb (name t) (name u)
  | IdlObservableArrayType _, IdlObservableArrayType _ =>
      String.eqb (name u) (name t)
  | IdlRecordType k v, IdlRecordType k' v' => type_eq k k' && type_eq v v'
  | IdlNullableType n, IdlNullableType n' => type_eq n n'
  | IdlAnnotatedType n e, IdlAnnotatedType n' e' =>
      type_eq n n' && bool_decide (e = e')
  | _, _ => false
  end.

(** [IdlUnionType.number_of_nullable_member_types]; the property exists on
    unions only, every other class counts nothing. *)
Fixpoint number_of_nullable_member_types (t : IdlTypeBase) : nat :=
  match t with
  | IdlUnionType ms =>
      list_sum
        (List.map
           (fun member =>
              match member with
              | IdlNullableType n =>
                  1 + match n with
                      | IdlUnionType _ => number_of_nullable_member_types n
                      | _ => 0
                      end
              | IdlUnionType _ => number_of_nullable_member_types member
              | _ => 0
              end) ms)
  | _ => 0
  end.

(** [type(t) is type(u)] *)
Definition same_class (t u : IdlTypeBase) : bool :=
  match t, u with
  | IdlType _, IdlType _
  | IdlPromiseType _, IdlPromiseType _
  | IdlUnionType _, IdlUnionType _
  | IdlSequenceType _, IdlSequenceType _
  | IdlFrozenArrayType _, IdlFrozenArrayType _
  | IdlObservableArrayType _, IdlObservableArrayType _
  | IdlRecordType _ _, IdlRecordType _ _
  | IdlNullableType _, IdlNullableType _
  | IdlAnnotatedType _ _, IdlAnnotatedType _ _ => true
  | _, _ => false
  end.

(** The classes whose [__eq__] is [self.name == other.name]. *)
Definition compares_by_name (t : IdlTypeBase) : bool :=
  match t with
  | IdlPromiseType _ | IdlUnionType _ | IdlSequenceType _
  | IdlFrozenArrayType _ | IdlObservableArrayType _ => true
  | _ => false
  end.

(** *** Constructors ([__init__]) *)

(** [IdlType.__init__] *)
Definition IdlType_init (base_type : string) (is_unrestricted : bool)
  : IdlTypeBase :=
  if is_unrestricted then IdlType ("unrestricted " ++ base_type)
  else IdlType base_type.

(** [self.member_types.sort(key=lambda t: t.name)]: a stable sort, written
    as the insertion sort that keeps equal keys in their order. *)
Fixpoint insert_by_name (x : IdlTypeBase) (l : list IdlTypeBase)
  : list IdlTypeBase :=
  match l with
  | [] => [x]
  | y :: l' =>
      if String.leb (name x) (name y) then x :: y :: l'
      else y :: insert_by_name x l'
  end.

Fixpoint sort_by_name (l : list IdlTypeBase) : list IdlTypeBase :=
  match l with
  | [] => []
  | x :: l' => insert_by_name x (sort_by_name l')
  end.

(** The order of the sort keys. *)
Definition str_le (a b : string) : Prop := String.leb a b = true.

(** [x in l] and the pairwise distinctness of a list, both with [==]. *)
Definition type_in (x : IdlTypeBase) (l : list IdlTypeBase) : bool :=
  existsb (type_eq x) l.

Fixpoint distinct_types (l : list IdlTypeBase) : bool :=
  match l with
  | [] => true
  | x :: l' => negb (type_in x l') && distinct_types l'
  end.

Section UnionConstruction.
(** [list(set(member_types))].  The order in which a Python set yields
    its elements is that of its hash table, and the hash of a string
    changes from one process to the next, so the order is a parameter
    of the construction. *)
Variable list_of_set : list IdlTypeBase -> list IdlTypeBase.

(** [IdlUnionType.__init__]; [IdlNestedType.__init__] asserts
    [nested_type or member_types], which fails on an empty member list. *)
Definition IdlUnionType_init (member_types : list IdlTypeBase)
  : result IdlTypeBase :=
  match list_of_set member_types with
  | [] => Raise AssertionError
  | members => Ok (IdlUnionType (sort_by_name members))
  end.
End UnionConstruction.

(** What a set can do to a list of pairwise distinct values: only reorder
    it. *)
Definition set_order (list_of_set : list IdlTypeBase -> list IdlTypeBase)
  : Prop :=
  forall l, distinct_types l = true -> Permutation (list_of_set l) l.

(** [IdlRecordType.__init__] *)
Definition IdlRecordType_init (key_type value_type : IdlTypeBase)
  : result IdlTypeBase :=
  if is_nested_type key_type then Raise AssertionError
  else Ok (IdlRecordType key_type value_type).

(** [IdlNullableType.__init__] *)
Definition IdlNullableType_init (nested_type : IdlTypeBase)
  : result IdlTypeBase :=
  if String.eqb (name nested_type) "Any" then
    Raise (ValueError "Inner type of nullable type must not be any.")
  else
    match nested_type with
    | IdlPromiseType _ =>
        Raise (ValueError "Inner type of nullable type must not be a promise.")
    | IdlNullableType _ =>
        Raise (ValueError
                 "Inner type of nullable type must not be a nullable type.")
    | IdlUnionType _ =>
        if Nat.ltb 0 (number_of_nullable_member_types nested_type) then
          Raise (ValueError
                   ("Inner type of nullable type must not be a union type that "
                    ++ "itself includes a nullable type."))
        else Ok (IdlNullableType nested_type)
    | _ => Ok (IdlNullableType nested_type)
    end.

(** [IdlAnnotatedType.__init__] *)
Definition IdlAnnotatedType_init (nested_type : IdlTypeBase)
    (extended_attributes : gmap string string) : result IdlTypeBase :=
  if existsb
       (fun key => negb (str_in key EXTENDED_ATTRIBUTES_APPLICABLE_TO_TYPES))
       (List.map fst (map_to_list extended_attributes))
  then
    Raise (ValueError
             ("Extended attributes not applicable to types: "
              ++ name nested_type))
  else if bool_decide (is_Some (extended_attributes !! "StringContext"))
          && negb (str_in (name nested_type) ["DOMString"; "USVString"])
  then Raise (ValueError "StringContext is only applicable to string types.")
  else Ok (IdlAnnotatedType nested_type extended_attributes).

(** *** What the specification says of nullable construction *)

(** A union recursively contains a nullable member: one of its members is
    nullable, or one of its members is a union that does. *)
Inductive contains_nullable : list IdlTypeBase -> Prop :=
| contains_nullable_member ms n :
    In (IdlNullableType n) ms -> contains_nullable ms
| contains_nullable_nested ms ms' :
    In (IdlUnionType ms') ms -> contains_nullable ms' ->
    contains_nullable ms.

(** The inner types the specification excludes: a type whose canonical name
    is [Any], a promise, a nullable, or a union that recursively contains a
    nullable member. *)
Definition excluded_inner (X : IdlTypeBase) : Prop :=
  name X = "Any"
  \/ (exists n, X = IdlPromiseType n)
  \/ (exists n, X = IdlNullableType n)
  \/ (exists ms, X = IdlUnionType ms /\ contains_nullable ms).

(** The equality claimed of type values: equal names, and for two annotated
    types equal attribute sets too. *)
Definition equal_by_name (t u : IdlTypeBase) : Prop :=
  name t = name u
  /\ (forall n e n' e',
        t = IdlAnnotatedType n e -> u = IdlAnnotatedType n' e' -> e = e').

(** *** Classification of named types *)

Definition INTEGER_TYPES : list string :=
  [ "byte"; "octet"; "short"; "unsigned short"; "long"; "unsigned long";
    "long long"; "unsigned long long" ].

Definition FLOATING_TYPES : list string :=
  [ "float"; "unrestricted float"; "double"; "unrestricted double" ].

Definition NUMERIC_TYPES : list string := INTEGER_TYPES ++ FLOATING_TYPES.

Definition PRIMITIVE_TYPES : list string := ["boolean"] ++ NUMERIC_TYPES.

Definition BASIC_TYPES : list string :=
  PRIMITIVE_TYPES
  ++ [ "DOMString"; "ByteString"; "USVString"; "void"; "undefined" ].

Definition STRING_TYPES : list string := [ "String"; "ByteString"; "USVString" ].

(** The classification properties of [IdlType], on its [base_type]. *)
Definition is_basic_type (base_type : string) : bool :=
  str_in base_type BASIC_TYPES.

Definition is_integer_type (base_type : string) : bool :=
  str_in base_type INTEGER_TYPES.

Definition is_floating_type (base_type : string) : bool :=
  str_in base_type FLOATING_TYPES.

Definition is_void (base_type : string) : bool :=
  String.eqb base_type "void".

Definition is_numeric_type (base_type : string) : bool :=
  str_in base_type NUMERIC_TYPES.

Definition is_primitive_type (base_type : string) : bool :=
  str_in base_type PRIMITIVE_TYPES.

(** [is_string_type] tests the canonical name, not the base type. *)
Definition is_string_type (base_type : string) : bool :=
  str_in (name (IdlType base_type)) STRING_TYPES.

(** *** Members *)

(** [IdlNestedType.has_type]; the method exists on nested types only, the
    other classes answer nothing here. *)
Fixpoint has_type (t : IdlTypeBase) (type_name : string) : bool :=
  match t with
  | IdlUnionType ms =>
      existsb
        (fun member =>
           if is_nested_type member then has_type member type_name
           else String.eqb (name member) type_name) ms
  | IdlPromiseType n | IdlSequenceType n | IdlFrozenArrayType n
  | IdlObservableArrayType n | IdlNullableType n | IdlAnnotatedType n _ =>
      if is_nested_type n then has_type n type_name
      else String.eqb (name n) type_name
  | IdlType _ | IdlRecordType _ _ => false
  end.

(** [IdlUnionType.member_names] *)
Definition member_names (t : IdlTypeBase) : list string :=
  List.map name (get_types t).

(** The values that are not nested types and are reached from [t] through
    the members of nested types. *)
Inductive leaf_of : IdlTypeBase -> IdlTypeBase -> Prop :=
| leaf_member t m :
    In m (get_types t) -> is_nested_type m = false -> leaf_of t m
| leaf_deeper t m x :
    In m (get_types t) -> is_nested_type m = true -> leaf_of m x ->
    leaf_of t x.

(** *** Hashing *)

Section Hashing.
(** The hash of a string and the hash of a pair, given the hashes of its
    components; both are fixed by the interpreter, not by this code. *)
Variable hash_str : string -> Z.
Variable hash_pair : Z -> Z -> Z.

(** [__hash__] of every class. *)
Fixpoint py_hash (t : IdlTypeBase) : Z :=
  match t with
  | IdlType base_type => hash_str base_type
  | IdlPromiseType _ | IdlUnionType _ | IdlObservableArrayType _
  | IdlAnnotatedType _ _ => hash_str (name t)
  | IdlSequenceType e | IdlFrozenArrayType e => py_hash e
  | IdlRecordType k v => hash_pair (hash_str (name k)) (hash_str (name v))
  | IdlNullableType n => py_hash n
  end.
End Hashing.

(** The values whose hash does not go through the element of a sequence or
    of a frozen array. *)
Fixpoint hashed_by_name (t : IdlTypeBase) : bool :=
  match t with
  | IdlSequenceType _ | IdlFrozenArrayType _ => false
  | IdlNullableType n => hashed_by_name n
  | _ => true
  end.

End Types.
(** ** idl_definitions.py: the extended-attribute store *)

Module ExtAttrs.

(** The double quote, and [s.startswith(dquote)]. *)
Definition dquote : ascii := ascii_of_nat 34.

Definition starts_with_quote (s : string) : bool :=
  match s with
  | String c _ => Ascii.eqb c dquote
  | EmptyString => false
  end.

Definition quoted (s : string) : string :=
  String dquote (s ++ String dquote EmptyString).

(** The raw values the transformer collects for an extended attribute, by
    the shape [__process_extended_attributes] tells apart: a list of
    arguments, a list of strings, a non-empty list whose first element is
    neither an argument nor a string (its elements are never read), a
    boolean, a string, a mapping, anything else.  [A] is the class of
    arguments. *)
Inductive raw_value (A : Type) : Type :=
| RawArguments (l : list A)
| RawStrings (l : list string)
| RawOtherList
| RawBool (b : bool)
| RawStr (s : string)
| RawDict (d : list (string * list A))
| RawOther.
Arguments RawArguments {A} l.
Arguments RawStrings {A} l.
Arguments RawOtherList {A}.
Arguments RawBool {A} b.
Arguments RawStr {A} s.
Arguments RawDict {A} d.
Arguments RawOther {A}.

(** [WithExtendedAttributes]: the raw mapping (in insertion order) and the
    buckets. *)
Record WithExtendedAttributes (A : Type) : Type := {
  _extended_attributes : list (string * raw_value A);
  _identifiers : gset string;
  _extattr_arguments : gmap string (list A);
  _named_arguments : gmap string (string * list A);
  _identifier_pairs : gmap string string;
  _identifier_lists : gmap string (list string);
  _string_literals : gmap string string;
  _string_literal_lists : gmap string (list string);
  _numbers : gmap string Z
}.
Arguments _extended_attributes {A} w.
Arguments _identifiers {A} w.
Arguments _extattr_arguments {A} w.
Arguments _named_arguments {A} w.
Arguments _identifier_pairs {A} w.
Arguments _identifier_lists {A} w.
Arguments _string_literals {A} w.
Arguments _string_literal_lists {A} w.
Arguments _numbers {A} w.

Section Store.
Context {A : Type}.
Abbreviation store := (WithExtendedAttributes A).

(** [WithExtendedAttributes.__init__] *)
Definition init : store :=
  {| _extended_attributes := [];
     _identifiers := ∅;
     _extattr_arguments := ∅;
     _named_arguments := ∅;
     _identifier_pairs := ∅;
     _identifier_lists := ∅;
     _string_literals := ∅;
     _string_literal_lists := ∅;
     _numbers := ∅ |}.

Definition with_raw (r : list (string * raw_value A)) (w : store) : store :=
  {| _extended_attributes := r;
     _identifiers := _identifiers w;
     _extattr_arguments := _extattr_arguments w;
     _named_arguments := _named_arguments w;
     _identifier_pairs := _identifier_pairs w;
     _identifier_lists := _identifier_lists w;
     _string_literals := _string_literals w;
     _string_literal_lists := _string_literal_lists w;
     _numbers := _numbers w |}.

Definition with_identifiers (v : gset string) (w : store) : store :=
  {| _extended_attributes := _extended_attributes w;
     _identifiers := v;
     _extattr_arguments := _extattr_arguments w;
     _named_arguments := _named_arguments w;
     _identifier_pairs := _identifier_pairs w;
     _identifier_lists := _identifier_lists w;
     _string_literals := _string_literals w;
     _string_literal_lists := _string_literal_lists w;
     _numbers := _numbers w |}.

Definition with_arguments (v : gmap string (list A)) (w : store) : store :=
  {| _extended_attributes := _extended_attributes w;
     _identifiers := _identifiers w;
     _extattr_arguments := v;
     _named_arguments := _named_arguments w;
     _identifier_pairs := _identifier_pairs w;
     _identifier_lists := _identifier_lists w;
     _string_literals := _string_literals w;
     _string_literal_lists := _string_literal_lists w;
     _numbers := _numbers w |}.

Definition with_named_arguments (v : gmap string (string * list A))
    (w : store) : store :=
  {| _extended_attributes := _extended_attributes w;
     _identifiers := _identifiers w;
     _extattr_arguments := _extattr_arguments w;
     _named_arguments := v;
     _identifier_pairs := _identifier_pairs w;
     _identifier_lists := _identifier_lists w;
     _string_literals := _string_literals w;
     _string_literal_lists := _string_literal_lists w;
     _numbers := _numbers w |}.

Definition with_identifier_pairs (v : gmap string string) (w : store)
  : store :=
  {| _extended_attributes := _extended_attributes w;
     _identifiers := _identifiers w;
     _extattr_arguments := _extattr_arguments w;
     _named_arguments := _named_arguments w;
     _identifier_pairs := v;
     _identifier_lists := _identifier_lists w;
     _string_literals := _string_literals w;
     _string_literal_lists := _string_literal_lists w;
     _numbers := _numbers w |}.

Definition with_identifier_lists (v : gmap string (list string))
    (w : store) : store :=
  {| _extended_attributes := _extended_attributes w;
     _identifiers := _identifiers w;
     _extattr_arguments := _extattr_arguments w;
     _named_arguments := _named_arguments w;
     _identifier_pairs := _identifier_pairs w;
     _identifier_lists := v;
     _string_literals := _string_literals w;
     _string_literal_lists := _string_literal_lists w;
     _numbers := _numbers w |}.

Definition with_string_literals (v : gmap string string) (w : store)
  : store :=
  {| _extended_attributes := _extended_attributes w;
     _identifiers := _identifiers w;
     _extattr_arguments := _extattr_arguments w;
     _named_arguments := _named_arguments w;
     _identifier_pairs := _identifier_pairs w;
     _identifier_lists := _identifier_lists w;
     _string_literals := v;
     _string_literal_lists := _string_literal_lists w;
     _numbers := _numbers w |}.

Definition with_string_literal_lists (v : gmap string (list string))
    (w : store) : store :=
  {| _extended_attributes := _extended_attributes w;
     _identifiers := _identifiers w;
     _extattr_arguments := _extattr_arguments w;
     _named_arguments := _named_arguments w;
     _identifier_pairs := _identifier_pairs w;
     _identifier_lists := _identifier_lists w;
     _string_literals := _string_literals w;
     _string_literal_lists := v;
     _numbers := _numbers w |}.

Definition with_numbers (v : gmap string Z) (w : store) : store :=
  {| _extended_attributes := _extended_attributes w;
     _identifiers := _identifiers w;
     _extattr_arguments := _extattr_arguments w;
     _named_arguments := _named_arguments w;
     _identifier_pairs := _identifier_pairs w;
     _identifier_lists := _identifier_lists w;
     _string_literals := _string_literals w;
     _string_literal_lists := _string_literal_lists w;
     _numbers := v |}.

(** [dict.pop(key)]: [KeyError] when the key is absent. *)
Definition dict_pop {V : Type} (k : string) (d : gmap string V)
  : result (gmap string V) :=
  match d !! k with
  | Some _ => Ok (delete k d)
  | None => Raise KeyError
  end.

(** *** Identifier flags *)

Definition extattr_add_identifier (identifier : string) (w : store)
  : store :=
  with_identifiers ({[ identifier ]} ∪ _identifiers w) w.

Definition extattr_has_identifier (w : store) (identifier : string) : bool :=
  bool_decide (identifier ∈ _identifiers w).

Definition extattr_remove_identifier (identifier : string) (w : store)
  : store :=
  if extattr_has_identifier w identifier
  then with_identifiers (_identifiers w ∖ {[ identifier ]}) w
  else w.

(** *** Positional arguments *)

Definition extattr_add_arguments (identifier : string) (arguments : list A)
    (w : store) : store :=
  with_arguments (<[ identifier := arguments ]> (_extattr_arguments w)) w.

Definition extattr_get_arguments (w : store) (identifier : string)
  : list A :=
  default [] (_extattr_arguments w !! identifier).

(** The getter never returns [None], so the key is always popped. *)
Definition extattr_remove_arguments (identifier : string) (w : store)
  : result store :=
  match dict_pop identifier (_extattr_arguments w) with
  | Ok d => Ok (with_arguments d w)
  | Raise e => Raise e
  end.

(** *** Named arguments *)

Definition extattr_add_named_arguments (identifier argument_name : string)
    (arguments : list A) (w : store) : store :=
  with_named_arguments
    (<[ identifier := (argument_name, arguments) ]> (_named_arguments w)) w.

(** The body is the bare expression [self._named_arguments.get(identifier)]
    without [return]: the call evaluates the lookup and returns [None]. *)
Definition extattr_get_named_arguments (w : store) (identifier : string)
  : option (string * list A) :=
  let _ := _named_arguments w !! identifier in None.

Definition extattr_remove_named_arguments (identifier : string) (w : store)
  : result store :=
  match extattr_get_named_arguments w identifier with
  | Some _ =>
      match dict_pop identifier (_named_arguments w) with
      | Ok d => Ok (with_named_arguments d w)
      | Raise e => Raise e
      end
  | None => Ok w
  end.

(** *** Identifier pairs *)

Definition extattr_add_identifier_pair (key value : string) (w : store)
  : store :=
  with_identifier_pairs (<[ key := value ]> (_identifier_pairs w)) w.

Definition extattr_get_identifier_value (w : store) (identifier_key : string)
  : option string :=
  _identifier_pairs w !! identifier_key.

Definition extattr_remove_identifier_pair (identifier_key : string)
    (w : store) : result store :=
  match extattr_get_identifier_value w identifier_key with
  | Some _ =>
      match dict_pop identifier_key (_identifier_pairs w) with
      | Ok d => Ok (with_identifier_pairs d w)
      | Raise e => Raise e
      end
  | None => Ok w
  end.

(** *** Identifier lists *)

Definition extattr_add_identifier_list (identifier_key : string)
    (identifier_list : list string) (w : store) : store :=
  with_identifier_lists
    (<[ identifier_key := identifier_list ]> (_identifier_lists w)) w.

Definition extattr_get_identifier_list (w : store) (identifier_key : string)
  : list string :=
  default [] (_identifier_lists w !! identifier_key).

Definition extattr_remove_identifier_list (identifier_key : string)
    (w : store) : result store :=
  match dict_pop identifier_key (_identifier_lists w) with
  | Ok d => Ok (with_identifier_lists d w)
  | Raise e => Raise e
  end.

(** *** String literals *)

Definition extattr_add_string_literal (identifier string_literal : string)
    (quotes : bool) (w : store) : store :=
  with_string_literals
    (<[ identifier := if quotes then quoted string_literal
                      else string_literal ]> (_string_literals w)) w.

(** As for named arguments: the lookup is evaluated and dropped. *)
Definition extattr_get_string_literal (w : store) (identifier : string)
  : option string :=
  let _ := _string_literals w !! identifier in None.

Definition extattr_remove_string_literal (identifier : string) (w : store)
  : result store :=
  match extattr_get_string_literal w identifier with
  | Some _ =>
      match dict_pop identifier (_string_literals w) with
      | Ok d => Ok (with_string_literals d w)
      | Raise e => Raise e
      end
  | None => Ok w
  end.

(** *** String-literal lists *)

Definition extattr_add_string_literal_list (identifier : string)
    (string_literal_list : list string) (w : store) : store :=
  with_string_literal_lists
    (<[ identifier := string_literal_list ]> (_string_literal_lists w)) w.

Definition extattr_get_string_literal_list (w : store) (identifier : string)
  : list string :=
  default [] (_string_literal_lists w !! identifier).

Definition extattr_remove_string_literal_list (identifier : string)
    (w : store) : result store :=
  match extattr_get_string_literal_list w identifier with
  | [] => Ok w
  | _ :: _ =>
      match dict_pop identifier (_string_literal_lists w) with
      | Ok d => Ok (with_string_literal_lists d w)
      | Raise e => Raise e
      end
  end.

(** *** Numbers *)

Definition extattr_add_number (identifier : string) (number : Z) (w : store)
  : store :=
  with_numbers (<[ identifier := number ]> (_numbers w)) w.

Definition extattr_get_number (w : store) (identifier : string) : option Z :=
  _numbers w !! identifier.

Definition extattr_remove_number (identifier : string) (w : store)
  : result store :=
  match extattr_get_number w identifier with
  | Some _ =>
      match dict_pop identifier (_numbers w) with
      | Ok d => Ok (with_numbers d w)
      | Raise e => Raise e
      end
  | None => Ok w
  end.

(** *** Classification of the raw mapping *)

(** One iteration of the loop of [__process_extended_attributes]. *)
Definition process_entry (k : string) (v : raw_value A) (w : store)
  : result store :=
  match v with
  | RawArguments [] | RawStrings [] => Ok w
  | RawArguments l => Ok (extattr_add_arguments k l w)
  | RawStrings (s0 :: l) =>
      if starts_with_quote s0
      then Ok (extattr_add_string_literal_list k (s0 :: l) w)
      else Ok (extattr_add_identifier_list k (s0 :: l) w)
  | RawOtherList => Ok w
  | RawBool _ => Ok (extattr_add_identifier k w)
  | RawStr s0 =>
      if starts_with_quote s0
      then Ok (extattr_add_string_literal k s0 false w)
      else Ok (extattr_add_identifier_pair k s0 w)
  | RawDict [(arg_ident, arguments)] =>
      Ok (extattr_add_named_arguments k arg_ident arguments w)
  | RawDict _ => Raise AssertionError
  | RawOther => Raise (TypeError "Wrong extended attributes type")
  end.

Fixpoint process_extended_attributes (attrs : list (string * raw_value A))
    (w : store) : result store :=
  match attrs with
  | [] => Ok w
  | (k, v) :: attrs' =>
      match process_entry k v w with
      | Ok w' => process_extended_attributes attrs' w'
      | Raise e => Raise e
      end
  end.

Definition set_extended_attributes (attributes : list (string * raw_value A))
    (w : store) : result store :=
  process_extended_attributes attributes (with_raw attributes w).

(** The raw values the classification accepts: every list, boolean and
    string, and a mapping with exactly one key; not a mapping with another
    number of keys, nor a value that is none of these. *)
Definition classifiable (v : raw_value A) : bool :=
  match v with
  | RawDict d => Nat.eqb (length d) 1
  | RawOther => false
  | _ => true
  end.

End Store.

End ExtAttrs.

(** ** idl_definitions.py: entities and containers *)

Module Definitions.
Import Types ExtAttrs.

(** References to objects: indices into the heap. *)
Abbreviation loc := nat.

(** The scalar values a token carries. *)
Inductive pyval : Type :=
| PyNone
| PyBool (b : bool)
| PyInt (z : Z)
| PyStr (s : string).

(** Truth value of a scalar, as [not v] and [if v] test it. *)
Definition truthy (v : pyval) : bool :=
  match v with
  | PyNone => false
  | PyBool b => b
  | PyInt z => negb (Z.eqb z 0)
  | PyStr s => negb (String.eqb s "")
  end.

(** [a == b] on scalars; a boolean compares as the integer it is. *)
Definition pyval_eq (a b : pyval) : bool :=
  match a, b with
  | PyNone, PyNone => true
  | PyBool x, PyBool y => Bool.eqb x y
  | PyInt x, PyInt y => Z.eqb x y
  | PyBool x, PyInt y | PyInt y, PyBool x => Z.eqb (Z.b2z x) y
  | PyStr x, PyStr y => String.eqb x y
  | _, _ => false
  end.

(** *** Member entities *)

Inductive IdlArgument : Type := Build_IdlArgument {
  arg_extattrs : WithExtendedAttributes IdlArgument;
  arg_idl_type : IdlTypeBase;
  arg_name : string;
  arg_is_optional : bool;
  arg_is_variadic : bool;
  arg_default_value : pyval
}.

Abbreviation extattrs := (WithExtendedAttributes IdlArgument).
Abbreviation raw_attrs := (list (string * raw_value IdlArgument)).

Record IdlAttribute : Type := {
  attr_extattrs : extattrs;
  attr_idl_type : IdlTypeBase;
  attr_owner : option loc;
  attr_name : string;
  attr_is_readonly : bool;
  attr_is_static : bool;
  attr_is_stringifier : bool;
  attr_is_inherit : bool;
  attr_is_event_handler : bool
}.

(** [op_name] is the private [__name]; the public name is the property
    [IdlOperation_name] below.  A constructor has no return type. *)
Record IdlOperation : Type := {
  op_extattrs : extattrs;
  op_idl_type : option IdlTypeBase;
  op_owner : option loc;
  op_name : string;
  op_is_constructor : bool;
  op_is_static : bool;
  op_is_getter : bool;
  op_is_setter : bool;
  op_is_deleter : bool;
  op_is_stringifier : bool;
  op_is_legacycaller : bool;
  op_is_async : bool;
  op_arguments : list IdlArgument;
  op_arguments_dict : gmap string IdlArgument
}.

Record IdlConstant : Type := {
  const_extattrs : extattrs;
  const_idl_type : IdlTypeBase;
  const_owner : option loc;
  const_name : string;
  const_value : pyval
}.

Record IdlDictionaryMember : Type := {
  member_extattrs : extattrs;
  member_idl_type : IdlTypeBase;
  member_owner : option loc;
  member_name : string;
  member_is_required : bool;
  member_default_value : pyval
}.

Record IdlIterable : Type := {
  iterable_extattrs : extattrs;
  iterable_key_type : option IdlTypeBase;
  iterable_value_type : option IdlTypeBase
}.

Record IdlMaplike : Type := {
  maplike_extattrs : extattrs;
  maplike_is_read_only : bool;
  maplike_key_type : option IdlTypeBase;
  maplike_value_type : option IdlTypeBase
}.

Record IdlSetlike : Type := {
  setlike_extattrs : extattrs;
  setlike_is_read_only : bool;
  setlike_value_type : option IdlTypeBase
}.

(** *** Container capabilities *)

Record WithOperations : Type := {
  _operations : list loc;
  _operations_dict : gmap string (list loc);
  _disabled_operations : list loc
}.

Record WithAttributes : Type := {
  _attributes : list loc;
  _attributes_dict : gmap string loc;
  _attributes_typedict : gmap string (list loc);
  mutable_attributes : list loc;
  readonly_attributes : list loc
}.

Record WithConstants : Type := {
  constants : list loc;
  _constants_dict : gmap string loc
}.

Definition WithOperations_init : WithOperations :=
  {| _operations := []; _operations_dict := ∅; _disabled_operations := [] |}.

Definition WithAttributes_init : WithAttributes :=
  {| _attributes := []; _attributes_dict := ∅; _attributes_typedict := ∅;
     mutable_attributes := []; readonly_attributes := [] |}.

Definition WithConstants_init : WithConstants :=
  {| constants := []; _constants_dict := ∅ |}.

(** A parent is absent, a bare name not yet resolved, or an object. *)
Inductive parent_ref : Type :=
| ParentNone
| ParentName (s : string)
| ParentObject (l : loc).

Record IdlInterface : Type := {
  iface_extattrs : extattrs;
  iface_name : string;
  iface_operations : WithOperations;
  iface_attributes : WithAttributes;
  iface_constants : WithConstants;
  iface_idl_type : IdlTypeBase;
  iface_constructors : list loc;
  iface_maplike : option IdlMaplike;
  iface_setlike : option IdlSetlike;
  iface_iterable : option IdlIterable;
  iface_is_stringifier : bool;
  iface_is_callback : bool;
  iface_is_partial : bool;
  iface_is_declaration : bool;
  iface_is_mixin : bool;
  iface_is_event : bool;
  iface_parent : parent_ref;
  iface_event_handlers : list loc
}.

Record IdlNamespace : Type := {
  ns_extattrs : extattrs;
  ns_name : string;
  ns_operations : WithOperations;
  ns_attributes : WithAttributes;
  ns_constants : WithConstants;
  ns_is_partial : bool
}.

Record IdlDictionary : Type := {
  dict_extattrs : extattrs;
  dict_idl_type : IdlTypeBase;
  dict_name : string;
  dict_members : list loc;
  dict_members_dict : gmap string loc;
  dict_members_typedict : gmap string (list loc);
  dict_parent : parent_ref;
  dict_is_partial : bool
}.

(** *** The heap *)

Inductive object : Type :=
| ObjAttribute (a : IdlAttribute)
| ObjOperation (o : IdlOperation)
| ObjConstant (c : IdlConstant)
| ObjDictionaryMember (m : IdlDictionaryMember)
| ObjInterface (i : IdlInterface)
| ObjNamespace (n : IdlNamespace)
| ObjDictionary (d : IdlDictionary).

(** Objects are never freed; a new object takes the next index. *)
Abbreviation heap := (list object).

Definition alloc (o : object) (h : heap) : loc * heap :=
  (length h, h ++ [o]).

Definition get_attribute (h : heap) (l : loc) : result IdlAttribute :=
  match h !! l with
  | Some (ObjAttribute a) => Ok a
  | _ => Raise BadReference
  end.

Definition get_operation (h : heap) (l : loc) : result IdlOperation :=
  match h !! l with
  | Some (ObjOperation o) => Ok o
  | _ => Raise BadReference
  end.

Definition get_constant (h : heap) (l : loc) : result IdlConstant :=
  match h !! l with
  | Some (ObjConstant c) => Ok c
  | _ => Raise BadReference
  end.

Definition get_member (h : heap) (l : loc) : result IdlDictionaryMember :=
  match h !! l with
  | Some (ObjDictionaryMember m) => Ok m
  | _ => Raise BadReference
  end.

Definition get_interface (h : heap) (l : loc) : result IdlInterface :=
  match h !! l with
  | Some (ObjInterface i) => Ok i
  | _ => Raise BadReference
  end.

Definition get_dictionary (h : heap) (l : loc) : result IdlDictionary :=
  match h !! l with
  | Some (ObjDictionary d) => Ok d
  | _ => Raise BadReference
  end.

(** *** Entities: construction, copy, equality *)

(** [IdlArgument.__init__] *)
Definition IdlArgument_init (name : string) (idl_type : IdlTypeBase)
    (is_optional is_variadic : bool) (default_value : pyval) : IdlArgument :=
  {| arg_extattrs := ExtAttrs.init;
     arg_idl_type := idl_type;
     arg_name := name;
     arg_is_optional := is_optional;
     arg_is_variadic := is_variadic;
     arg_default_value := default_value |}.

(** [IdlArgument.__copy__] *)
Definition IdlArgument_copy (self : IdlArgument) : result IdlArgument :=
  let argument :=
    IdlArgument_init (arg_name self) (arg_idl_type self)
      (arg_is_optional self) (arg_is_variadic self) (arg_default_value self) in
  let* ext :=
    set_extended_attributes (_extended_attributes (arg_extattrs self))
      (arg_extattrs argument) in
  Ok {| arg_extattrs := ext;
        arg_idl_type := arg_idl_type argument;
        arg_name := arg_name argument;
        arg_is_optional := arg_is_optional argument;
        arg_is_variadic := arg_is_variadic argument;
        arg_default_value := arg_default_value argument |}.

(** [IdlArgument.__eq__] *)
Definition IdlArgument_eq (self other : IdlArgument) : bool :=
  String.eqb (name (arg_idl_type self)) (name (arg_idl_type other))
  && String.eqb (arg_name self) (arg_name other).

(** [IdlAttribute.__init__]; [WithOwner.__init__] leaves the owner [None]. *)
Definition IdlAttribute_init (name : string) (idl_type : IdlTypeBase)
    (is_readonly is_static is_stringifier is_inherit : bool) : IdlAttribute :=
  {| attr_extattrs := ExtAttrs.init;
     attr_idl_type := idl_type;
     attr_owner := None;
     attr_name := name;
     attr_is_readonly := is_readonly;
     attr_is_static := is_static;
     attr_is_stringifier := is_stringifier;
     attr_is_inherit := is_inherit;
     attr_is_event_handler :=
       String.eqb (Types.name idl_type) "EventHandler" |}.

Definition attr_with_extattrs (ext : extattrs) (a : IdlAttribute)
  : IdlAttribute :=
  {| attr_extattrs := ext;
     attr_idl_type := attr_idl_type a;
     attr_owner := attr_owner a;
     attr_name := attr_name a;
     attr_is_readonly := attr_is_readonly a;
     attr_is_static := attr_is_static a;
     attr_is_stringifier := attr_is_stringifier a;
     attr_is_inherit := attr_is_inherit a;
     attr_is_event_handler := attr_is_event_handler a |}.

Definition attr_with_owner (owner : option loc) (a : IdlAttribute)
  : IdlAttribute :=
  {| attr_extattrs := attr_extattrs a;
     attr_idl_type := attr_idl_type a;
     attr_owner := owner;
     attr_name := attr_name a;
     attr_is_readonly := attr_is_readonly a;
     attr_is_static := attr_is_static a;
     attr_is_stringifier := attr_is_stringifier a;
     attr_is_inherit := attr_is_inherit a;
     attr_is_event_handler := attr_is_event_handler a |}.

(** [IdlAttribute.__copy__] *)
Definition IdlAttribute_copy (self : IdlAttribute) : result IdlAttribute :=
  let attribute :=
    IdlAttribute_init (attr_name self) (attr_idl_type self)
      (attr_is_readonly self) (attr_is_static self)
      (attr_is_stringifier self) (attr_is_inherit self) in
  let* ext :=
    set_extended_attributes (_extended_attributes (attr_extattrs self))
      (attr_extattrs attribute) in
  Ok (attr_with_extattrs ext attribute).

(** [IdlAttribute.same_as] *)
Definition same_as (self other : IdlAttribute) : bool :=
  String.eqb (name (attr_idl_type self)) (name (attr_idl_type other))
  && String.eqb (attr_name self) (attr_name other).

(** [IdlOperation.name] *)
Definition IdlOperation_name (self : IdlOperation) : result string :=
  if negb (String.eqb (op_name self) "") then Ok (op_name self)
  else if op_is_getter self then Ok "(getter)"
  else if op_is_setter self then Ok "(setter)"
  else if op_is_deleter self then Ok "(deleter)"
  else if op_is_stringifier self then Ok "(stringifier)"
  else if op_is_legacycaller self then Ok "(legacycaller)"
  else Raise (Exception "Invalid operation").

(** [{arg.name: arg for arg in self.arguments}]: a later argument replaces
    an earlier one of the same name. *)
Definition arguments_dict_of (args : list IdlArgument)
  : gmap string IdlArgument :=
  fold_left (fun d arg => <[ arg_name arg := arg ]> d) args ∅.

(** [IdlOperation.__init__] *)
Definition IdlOperation_init (name : string) (idl_type : option IdlTypeBase)
    (arguments : list IdlArgument)
    (is_ctor is_static is_getter is_setter is_deleter is_stringifier
       is_legacycaller is_async : bool) : IdlOperation :=
  {| op_extattrs := ExtAttrs.init;
     op_idl_type := idl_type;
     op_owner := None;
     op_name := name;
     op_is_constructor := is_ctor;
     op_is_static := is_static;
     op_is_getter := is_getter;
     op_is_setter := is_setter;
     op_is_deleter := is_deleter;
     op_is_stringifier := is_stringifier;
     op_is_legacycaller := is_legacycaller;
     op_is_async := is_async;
     op_arguments := arguments;
     op_arguments_dict := arguments_dict_of arguments |}.

Definition op_with_extattrs (ext : extattrs) (o : IdlOperation)
  : IdlOperation :=
  {| op_extattrs := ext;
     op_idl_type := op_idl_type o;
     op_owner := op_owner o;
     op_name := op_name o;
     op_is_constructor := op_is_constructor o;
     op_is_static := op_is_static o;
     op_is_getter := op_is_getter o;
     op_is_setter := op_is_setter o;
     op_is_deleter := op_is_deleter o;
     op_is_stringifier := op_is_stringifier o;
     op_is_legacycaller := op_is_legacycaller o;
     op_is_async := op_is_async o;
     op_arguments := op_arguments o;
     op_arguments_dict := op_arguments_dict o |}.

Definition op_with_owner (owner : option loc) (o : IdlOperation)
  : IdlOperation :=
  {| op_extattrs := op_extattrs o;
     op_idl_type := op_idl_type o;
     op_owner := owner;
     op_name := op_name o;
     op_is_constructor := op_is_constructor o;
     op_is_static := op_is_static o;
     op_is_getter := op_is_getter o;
     op_is_setter := op_is_setter o;
     op_is_deleter := op_is_deleter o;
     op_is_stringifier := op_is_stringifier o;
     op_is_legacycaller := op_is_legacycaller o;
     op_is_async := op_is_async o;
     op_arguments := op_arguments o;
     op_arguments_dict := op_arguments_dict o |}.

(** [WithIdlType.set_type] on an operation *)
Definition op_set_type (idl_type : option IdlTypeBase) (o : IdlOperation)
  : IdlOperation :=
  {| op_extattrs := op_extattrs o;
     op_idl_type := idl_type;
     op_owner := op_owner o;
     op_name := op_name o;
     op_is_constructor := op_is_constructor o;
     op_is_static := op_is_static o;
     op_is_getter := op_is_getter o;
     op_is_setter := op_is_setter o;
     op_is_deleter := op_is_deleter o;
     op_is_stringifier := op_is_stringifier o;
     op_is_legacycaller := op_is_legacycaller o;
     op_is_async := op_is_async o;
     op_arguments := op_arguments o;
     op_arguments_dict := op_arguments_dict o |}.

(** [[copy(arg) for arg in self.arguments]] *)
Fixpoint copy_arguments (args : list IdlArgument) : result (list IdlArgument) :=
  match args with
  | [] => Ok []
  | arg :: args' =>
      let* arg' := IdlArgument_copy arg in
      let* rest := copy_arguments args' in
      Ok (arg' :: rest)
  end.

(** [IdlOperation.__copy__] *)
Definition IdlOperation_copy (self : IdlOperation) : result IdlOperation :=
  let* arguments := copy_arguments (op_arguments self) in
  let* name := IdlOperation_name self in
  let operation :=
    IdlOperation_init name (op_idl_type self) arguments
      (op_is_constructor self) (op_is_static self) (op_is_getter self)
      (op_is_setter self) (op_is_deleter self) (op_is_stringifier self)
      (op_is_legacycaller self) (op_is_async self) in
  let* ext :=
    set_extended_attributes (_extended_attributes (op_extattrs self))
      (op_extattrs operation) in
  Ok (op_with_extattrs ext operation).

(** [IdlConstant.__init__] *)
Definition IdlConstant_init (const_name : string) (const_type : IdlTypeBase)
    (const_value : pyval) : IdlConstant :=
  {| const_extattrs := ExtAttrs.init;
     const_idl_type := const_type;
     const_owner := None;
     const_name := const_name;
     const_value := const_value |}.

Definition const_with_owner (owner : option loc) (c : IdlConstant)
  : IdlConstant :=
  {| const_extattrs := const_extattrs c;
     const_idl_type := const_idl_type c;
     const_owner := owner;
     const_name := const_name c;
     const_value := const_value c |}.

(** [IdlConstant.__eq__] *)
Definition IdlConstant_eq (self other : IdlConstant) : bool :=
  String.eqb (const_name self) (const_name other)
  && type_eq (const_idl_type self) (const_idl_type other)
  && pyval_eq (const_value self) (const_value other).

(** [IdlDictionaryMember.__init__] *)
Definition IdlDictionaryMember_init (name : string) (idl_type : IdlTypeBase)
    (is_required : bool) (default_value : pyval) : IdlDictionaryMember :=
  {| member_extattrs := ExtAttrs.init;
     member_idl_type := idl_type;
     member_owner := None;
     member_name := name;
     member_is_required := is_required;
     member_default_value := default_value |}.

Definition member_with_extattrs (ext : extattrs) (m : IdlDictionaryMember)
  : IdlDictionaryMember :=
  {| member_extattrs := ext;
     member_idl_type := member_idl_type m;
     member_owner := member_owner m;
     member_name := member_name m;
     member_is_required := member_is_required m;
     member_default_value := member_default_value m |}.

Definition member_with_owner (owner : option loc) (m : IdlDictionaryMember)
  : IdlDictionaryMember :=
  {| member_extattrs := member_extattrs m;
     member_idl_type := member_idl_type m;
     member_owner := owner;
     member_name := member_name m;
     member_is_required := member_is_required m;
     member_default_value := member_default_value m |}.

(** [IdlDictionaryMember.__copy__] *)
Definition IdlDictionaryMember_copy (self : IdlDictionaryMember)
  : result IdlDictionaryMember :=
  let new_member :=
    IdlDictionaryMember_init (member_name self) (member_idl_type self)
      (member_is_required self) (member_default_value self) in
  let* ext :=
    set_extended_attributes (_extended_attributes (member_extattrs self))
      (member_extattrs new_member) in
  Ok (member_with_extattrs ext new_member).

(** [IdlDictionaryMember.__eq__] on two members *)
Definition IdlDictionaryMember_eq (self other : IdlDictionaryMember) : bool :=
  String.eqb (member_name self) (member_name other)
  && String.eqb (name (member_idl_type self)) (name (member_idl_type other)).

(** *** Comparisons between objects *)

(** [t.__ne__(other)], by the class of [t]: a named type and a nullable
    type answer [False] to a value of another class, a record reads
    [other.key_type], the other classes negate [__eq__]. *)
Definition type_ne_obj (t : IdlTypeBase) (other : option IdlTypeBase)
  : result bool :=
  match t with
  | IdlType b =>
      match other with
      | Some (IdlType b') => Ok (negb (String.eqb b b'))
      | _ => Ok false
      end
  | IdlRecordType k v =>
      match other with
      | Some (IdlRecordType k' v') => Ok (negb (type_eq k k' && type_eq v v'))
      | _ => Raise AttributeError
      end
  | IdlNullableType n =>
      match other with
      | Some (IdlNullableType n') => Ok (negb (type_eq n n'))
      | _ => Ok false
      end
  | _ =>
      match other with
      | Some u => Ok (negb (type_eq t u))
      | None => Ok true
      end
  end.

(** [a != b] where either side may be [None]. *)
Definition type_ne (a b : option IdlTypeBase) : result bool :=
  match a, b with
  | None, None => Ok false
  | None, Some u => type_ne_obj u None
  | Some t, _ => type_ne_obj t b
  end.

Inductive owner_class : Type :=
| OwnerInterface
| OwnerNamespace
| OwnerDictionary (name : string).

Definition owner_class_of (h : heap) (l : loc) : result owner_class :=
  match h !! l with
  | Some (ObjInterface _) => Ok OwnerInterface
  | Some (ObjNamespace _) => Ok OwnerNamespace
  | Some (ObjDictionary d) => Ok (OwnerDictionary (dict_name d))
  | _ => Raise BadReference
  end.

(** [self.owner != other.owner].  Interfaces and namespaces compare by
    identity; dictionaries compare by name and assert that the other side
    is a dictionary. *)
Definition owner_ne (h : heap) (a b : option loc) : result bool :=
  match a, b with
  | None, None => Ok false
  | None, Some y => let* _ := owner_class_of h y in Ok true
  | Some x, None => let* _ := owner_class_of h x in Ok true
  | Some x, Some y =>
      let* cx := owner_class_of h x in
      let* cy := owner_class_of h y in
      match cx, cy with
      | OwnerDictionary n, OwnerDictionary m => Ok (negb (String.eqb n m))
      | OwnerDictionary _, _ | _, OwnerDictionary _ => Raise AssertionError
      | _, _ => Ok (negb (Nat.eqb x y))
      end
  end.

(** [IdlAttribute.__eq__] *)
Definition IdlAttribute_eq (h : heap) (self other : IdlAttribute)
  : result bool :=
  if negb (same_as self other) then Ok false
  else
    let* ne := owner_ne h (attr_owner self) (attr_owner other) in
    Ok (negb ne).

(** [IdlOperation.has_same_arguments] *)
Fixpoint same_arguments (xs ys : list IdlArgument) : bool :=
  match xs, ys with
  | [], [] => true
  | x :: xs', y :: ys' =>
      if negb (IdlArgument_eq x y) then false else same_arguments xs' ys'
  | _, _ => false
  end.

Definition has_same_arguments (self other : IdlOperation) : bool :=
  if negb (Nat.eqb (length (op_arguments self)) (length (op_arguments other)))
  then false
  else same_arguments (op_arguments self) (op_arguments other).

(** [IdlOperation.__eq__] *)
Definition IdlOperation_eq (h : heap) (self other : IdlOperation)
  : result bool :=
  let* n1 := IdlOperation_name self in
  let* n2 := IdlOperation_name other in
  if negb (String.eqb n1 n2) then Ok false
  else
    let* one := owner_ne h (op_owner self) (op_owner other) in
    if one then Ok false
    else
      let* tne := type_ne (op_idl_type self) (op_idl_type other) in
      if tne then Ok false
      else if negb (has_same_arguments self other) then Ok false
      else Ok true.

(** [item is x or item == x], the test of [x in l] and [l.remove(x)]. *)
Definition same_attribute (h : heap) (x item : loc) : result bool :=
  if Nat.eqb item x then Ok true
  else
    let* a := get_attribute h item in
    let* b := get_attribute h x in
    IdlAttribute_eq h a b.

Definition same_operation (h : heap) (x item : loc) : result bool :=
  if Nat.eqb item x then Ok true
  else
    let* a := get_operation h item in
    let* b := get_operation h x in
    IdlOperation_eq h a b.

Definition same_constant (h : heap) (x item : loc) : result bool :=
  if Nat.eqb item x then Ok true
  else
    let* a := get_constant h item in
    let* b := get_constant h x in
    Ok (IdlConstant_eq a b).

Definition same_member (h : heap) (x item : loc) : result bool :=
  if Nat.eqb item x then Ok true
  else
    let* a := get_member h item in
    let* b := get_member h x in
    Ok (IdlDictionaryMember_eq a b).

(** [x in l] *)
Fixpoint list_contains (same : loc -> result bool) (l : list loc)
  : result bool :=
  match l with
  | [] => Ok false
  | item :: l' =>
      let* b := same item in
      if b then Ok true else list_contains same l'
  end.

(** [l.remove(x)]: the first match is removed, [ValueError] without one. *)
Fixpoint list_remove (same : loc -> result bool) (l : list loc)
  : result (list loc) :=
  match l with
  | [] => Raise (ValueError "list.remove(x): x not in list")
  | item :: l' =>
      let* b := same item in
      if b then Ok l'
      else
        let* rest := list_remove same l' in
        Ok (item :: rest)
  end.

(** [d.setdefault(k, []).append(x)] *)
Definition setdefault_append (k : string) (x : loc)
    (d : gmap string (list loc)) : gmap string (list loc) :=
  <[ k := default [] (d !! k) ++ [x] ]> d.

(** [d[k].remove(x)] *)
Definition dict_list_remove (same : loc -> result bool) (k : string)
    (d : gmap string (list loc)) : result (gmap string (list loc)) :=
  match d !! k with
  | None => Raise KeyError
  | Some l =>
      let* l' := list_remove same l in
      Ok (<[ k := l' ]> d)
  end.

(** *** Ownership *)

(** [owner.is_partial] *)
Definition owner_is_partial (h : heap) (owner : loc) : result bool :=
  match h !! owner with
  | Some (ObjInterface i) => Ok (iface_is_partial i)
  | Some (ObjNamespace n) => Ok (ns_is_partial n)
  | Some (ObjDictionary d) => Ok (dict_is_partial d)
  | Some _ => Raise AttributeError
  | None => Raise BadReference
  end.

(** [self.owner], for the classes with [WithOwner]. *)
Definition owner_of (h : heap) (self : loc) : result (option loc) :=
  match h !! self with
  | Some (ObjAttribute a) => Ok (attr_owner a)
  | Some (ObjOperation o) => Ok (op_owner o)
  | Some (ObjConstant c) => Ok (const_owner c)
  | Some (ObjDictionaryMember m) => Ok (member_owner m)
  | _ => Raise BadReference
  end.

(** [WithOwner.set_owner]: nothing happens for [None] and for a partial
    owner. *)
Definition set_owner (self : loc) (owner : option loc) (h : heap)
  : result heap :=
  match owner with
  | None => Ok h
  | Some o =>
      let* partial := owner_is_partial h o in
      if partial then Ok h
      else
        match h !! self with
        | Some (ObjAttribute a) =>
            Ok (<[ self := ObjAttribute (attr_with_owner (Some o) a) ]> h)
        | Some (ObjOperation op) =>
            Ok (<[ self := ObjOperation (op_with_owner (Some o) op) ]> h)
        | Some (ObjConstant c) =>
            Ok (<[ self := ObjConstant (const_with_owner (Some o) c) ]> h)
        | Some (ObjDictionaryMember m) =>
            Ok (<[ self :=
                     ObjDictionaryMember (member_with_owner (Some o) m) ]> h)
        | _ => Raise BadReference
        end
  end.

(** *** Field updates of the containers *)

Definition iface_with_operations (v : WithOperations) (i : IdlInterface) : IdlInterface :=
  {| iface_extattrs := iface_extattrs i;
     iface_name := iface_name i;
     iface_operations := v;
     iface_attributes := iface_attributes i;
     iface_constants := iface_constants i;
     iface_idl_type := iface_idl_type i;
     iface_constructors := iface_constructors i;
     iface_maplike := iface_maplike i;
     iface_setlike := iface_setlike i;
     iface_iterable := iface_iterable i;
     iface_is_stringifier := iface_is_stringifier i;
     iface_is_callback := iface_is_callback i;
     iface_is_partial := iface_is_partial i;
     iface_is_declaration := iface_is_declaration i;
     iface_is_mixin := iface_is_mixin i;
     iface_is_event := iface_is_event i;
     iface_parent := iface_parent i;
     iface_event_handlers := iface_event_handlers i |}.

Definition iface_with_attributes (v : WithAttributes) (i : IdlInterface) : IdlInterface :=
  {| iface_extattrs := iface_extattrs i;
     iface_name := iface_name i;
     iface_operations := iface_operations i;
     iface_attributes := v;
     iface_constants := iface_constants i;
     iface_idl_type := iface_idl_type i;
     iface_constructors := iface_constructors i;
     iface_maplike := iface_maplike i;
     iface_setlike := iface_setlike i;
     iface_iterable := iface_iterable i;
     iface_is_stringifier := iface_is_stringifier i;
     iface_is_callback := iface_is_callback i;
     iface_is_partial := iface_is_partial i;
     iface_is_declaration := iface_is_declaration i;
     iface_is_mixin := iface_is_mixin i;
     iface_is_event := iface_is_event i;
     iface_parent := iface_parent i;
     iface_event_handlers := iface_event_handlers i |}.

Definition iface_with_constants (v : WithConstants) (i : IdlInterface) : IdlInterface :=
  {| iface_extattrs := iface_extattrs i;
     iface_name := iface_name i;
     iface_operations := iface_operations i;
     iface_attributes := iface_attributes i;
     iface_constants := v;
     iface_idl_type := iface_idl_type i;
     iface_constructors := iface_constructors i;
     iface_maplike := iface_maplike i;
     iface_setlike := iface_setlike i;
     iface_iterable := iface_iterable i;
     iface_is_stringifier := iface_is_stringifier i;
     iface_is_callback := iface_is_callback i;
     iface_is_partial := iface_is_partial i;
     iface_is_declaration := iface_is_declaration i;
     iface_is_mixin := iface_is_mixin i;
     iface_is_event := iface_is_event i;
     iface_parent := iface_parent i;
     iface_event_handlers := iface_event_handlers i |}.

Definition iface_with_constructors (v : list loc) (i : IdlInterface) : IdlInterface :=
  {| iface_extattrs := iface_extattrs i;
     iface_name := iface_name i;
     iface_operations := iface_operations i;
     iface_attributes := iface_attributes i;
     iface_constants := iface_constants i;
     iface_idl_type := iface_idl_type i;
     iface_constructors := v;
     iface_maplike := iface_maplike i;
     iface_setlike := iface_setlike i;
     iface_iterable := iface_iterable i;
     iface_is_stringifier := iface_is_stringifier i;
     iface_is_callback := iface_is_callback i;
     iface_is_partial := iface_is_partial i;
     iface_is_declaration := iface_is_declaration i;
     iface_is_mixin := iface_is_mixin i;
     iface_is_event := iface_is_event i;
     iface_parent := iface_parent i;
     iface_event_handlers := iface_event_handlers i |}.

Definition iface_with_name (v : string) (i : IdlInterface) : IdlInterface :=
  {| iface_extattrs := iface_extattrs i;
     iface_name := v;
     iface_operations := iface_operations i;
     iface_attributes := iface_attributes i;
     iface_constants := iface_constants i;
     iface_idl_type := iface_idl_type i;
     iface_constructors := iface_constructors i;
     iface_maplike := iface_maplike i;
     iface_setlike := iface_setlike i;
     iface_iterable := iface_iterable i;
     iface_is_stringifier := iface_is_stringifier i;
     iface_is_callback := iface_is_callback i;
     iface_is_partial := iface_is_partial i;
     iface_is_declaration := iface_is_declaration i;
     iface_is_mixin := iface_is_mixin i;
     iface_is_event := iface_is_event i;
     iface_parent := iface_parent i;
     iface_event_handlers := iface_event_handlers i |}.

(** [WithIdlType.set_type] on an interface *)
Definition iface_set_type (v : IdlTypeBase) (i : IdlInterface) : IdlInterface :=
  {| iface_extattrs := iface_extattrs i;
     iface_name := iface_name i;
     iface_operations := iface_operations i;
     iface_attributes := iface_attributes i;
     iface_constants := iface_constants i;
     iface_idl_type := v;
     iface_constructors := iface_constructors i;
     iface_maplike := iface_maplike i;
     iface_setlike := iface_setlike i;
     iface_iterable := iface_iterable i;
     iface_is_stringifier := iface_is_stringifier i;
     iface_is_callback := iface_is_callback i;
     iface_is_partial := iface_is_partial i;
     iface_is_declaration := iface_is_declaration i;
     iface_is_mixin := iface_is_mixin i;
     iface_is_event := iface_is_event i;
     iface_parent := iface_parent i;
     iface_event_handlers := iface_event_handlers i |}.

(** [IdlInterface.set_parent] *)
Definition iface_set_parent (v : parent_ref) (i : IdlInterface) : IdlInterface :=
  {| iface_extattrs := iface_extattrs i;
     iface_name := iface_name i;
     iface_operations := iface_operations i;
     iface_attributes := iface_attributes i;
     iface_constants := iface_constants i;
     iface_idl_type := iface_idl_type i;
     iface_constructors := iface_constructors i;
     iface_maplike := iface_maplike i;
     iface_setlike := iface_setlike i;
     iface_iterable := iface_iterable i;
     iface_is_stringifier := iface_is_stringifier i;
     iface_is_callback := iface_is_callback i;
     iface_is_partial := iface_is_partial i;
     iface_is_declaration := iface_is_declaration i;
     iface_is_mixin := iface_is_mixin i;
     iface_is_event := iface_is_event i;
     iface_parent := v;
     iface_event_handlers := iface_event_handlers i |}.

Definition iface_with_partial (v : bool) (i : IdlInterface) : IdlInterface :=
  {| iface_extattrs := iface_extattrs i;
     iface_name := iface_name i;
     iface_operations := iface_operations i;
     iface_attributes := iface_attributes i;
     iface_constants := iface_constants i;
     iface_idl_type := iface_idl_type i;
     iface_constructors := iface_constructors i;
     iface_maplike := iface_maplike i;
     iface_setlike := iface_setlike i;
     iface_iterable := iface_iterable i;
     iface_is_stringifier := iface_is_stringifier i;
     iface_is_callback := iface_is_callback i;
     iface_is_partial := v;
     iface_is_declaration := iface_is_declaration i;
     iface_is_mixin := iface_is_mixin i;
     iface_is_event := iface_is_event i;
     iface_parent := iface_parent i;
     iface_event_handlers := iface_event_handlers i |}.

Definition ns_with_operations (v : WithOperations) (n : IdlNamespace) : IdlNamespace :=
  {| ns_extattrs := ns_extattrs n;
     ns_name := ns_name n;
     ns_operations := v;
     ns_attributes := ns_attributes n;
     ns_constants := ns_constants n;
     ns_is_partial := ns_is_partial n |}.

Definition ns_with_attributes (v : WithAttributes) (n : IdlNamespace) : IdlNamespace :=
  {| ns_extattrs := ns_extattrs n;
     ns_name := ns_name n;
     ns_operations := ns_operations n;
     ns_attributes := v;
     ns_constants := ns_constants n;
     ns_is_partial := ns_is_partial n |}.

Definition ns_with_constants (v : WithConstants) (n : IdlNamespace) : IdlNamespace :=
  {| ns_extattrs := ns_extattrs n;
     ns_name := ns_name n;
     ns_operations := ns_operations n;
     ns_attributes := ns_attributes n;
     ns_constants := v;
     ns_is_partial := ns_is_partial n |}.

Definition ns_with_partial (v : bool) (n : IdlNamespace) : IdlNamespace :=
  {| ns_extattrs := ns_extattrs n;
     ns_name := ns_name n;
     ns_operations := ns_operations n;
     ns_attributes := ns_attributes n;
     ns_constants := ns_constants n;
     ns_is_partial := v |}.

Definition dict_with_members (ms : list loc) (md : gmap string loc)
    (mt : gmap string (list loc)) (d : IdlDictionary) : IdlDictionary :=
  {| dict_extattrs := dict_extattrs d;
     dict_idl_type := dict_idl_type d;
     dict_name := dict_name d;
     dict_members := ms;
     dict_members_dict := md;
     dict_members_typedict := mt;
     dict_parent := dict_parent d;
     dict_is_partial := dict_is_partial d |}.

(** The capability records of the container at [self]. *)
Definition get_WithAttributes (h : heap) (self : loc) : result WithAttributes :=
  match h !! self with
  | Some (ObjInterface i) => Ok (iface_attributes i)
  | Some (ObjNamespace n) => Ok (ns_attributes n)
  | _ => Raise BadReference
  end.

Definition put_WithAttributes (self : loc) (w : WithAttributes) (h : heap)
  : result heap :=
  match h !! self with
  | Some (ObjInterface i) =>
      Ok (<[ self := ObjInterface (iface_with_attributes w i) ]> h)
  | Some (ObjNamespace n) =>
      Ok (<[ self := ObjNamespace (ns_with_attributes w n) ]> h)
  | _ => Raise BadReference
  end.

Definition get_WithOperations (h : heap) (self : loc) : result WithOperations :=
  match h !! self with
  | Some (ObjInterface i) => Ok (iface_operations i)
  | Some (ObjNamespace n) => Ok (ns_operations n)
  | _ => Raise BadReference
  end.

Definition put_WithOperations (self : loc) (w : WithOperations) (h : heap)
  : result heap :=
  match h !! self with
  | Some (ObjInterface i) =>
      Ok (<[ self := ObjInterface (iface_with_operations w i) ]> h)
  | Some (ObjNamespace n) =>
      Ok (<[ self := ObjNamespace (ns_with_operations w n) ]> h)
  | _ => Raise BadReference
  end.

Definition get_WithConstants (h : heap) (self : loc) : result WithConstants :=
  match h !! self with
  | Some (ObjInterface i) => Ok (iface_constants i)
  | Some (ObjNamespace n) => Ok (ns_constants n)
  | _ => Raise BadReference
  end.

Definition put_WithConstants (self : loc) (w : WithConstants) (h : heap)
  : result heap :=
  match h !! self with
  | Some (ObjInterface i) =>
      Ok (<[ self := ObjInterface (iface_with_constants w i) ]> h)
  | Some (ObjNamespace n) =>
      Ok (<[ self := ObjNamespace (ns_with_constants w n) ]> h)
  | _ => Raise BadReference
  end.

(** *** WithAttributes *)

(** [WithAttributes.attribute] *)
Definition attribute (h : heap) (self : loc) (name : string)
  : result (option loc) :=
  let* w := get_WithAttributes h self in
  Ok (_attributes_dict w !! name).

(** [WithAttributes.attributes]: a copy of the ordered list. *)
Definition attributes (h : heap) (self : loc) : result (list loc) :=
  let* w := get_WithAttributes h self in
  Ok (_attributes w).

(** [WithAttributes.find_attributes] *)
Definition find_attributes (h : heap) (self : loc) (type : string)
  : result (list loc) :=
  let* w := get_WithAttributes h self in
  Ok (default [] (_attributes_typedict w !! type)).

(** [WithAttributes.has_attribute], by object or by name. *)
Definition has_attribute (h : heap) (self : loc) (attribute : string + loc)
  : result bool :=
  let* w := get_WithAttributes h self in
  match attribute with
  | inr a => list_contains (same_attribute h a) (_attributes w)
  | inl name => Ok (bool_decide (is_Some (_attributes_dict w !! name)))
  end.

(** [WithAttributes.add_attribute]: the stored copy, or [None] when the
    name is taken. *)
Definition add_attribute (self attribute : loc) (h : heap)
  : result (option loc * heap) :=
  let* w := get_WithAttributes h self in
  let* original := get_attribute h attribute in
  match _attributes_dict w !! attr_name original with
  | Some _ => Ok (None, h)
  | None =>
      let* fresh := IdlAttribute_copy original in
      let (copied, h1) := alloc (ObjAttribute fresh) h in
      let* h2 := set_owner copied (Some self) h1 in
      let* a := get_attribute h2 copied in
      let w' :=
        {| _attributes := _attributes w ++ [copied];
           _attributes_dict := <[ attr_name a := copied ]> (_attributes_dict w);
           _attributes_typedict :=
             setdefault_append (name (attr_idl_type a)) copied
               (_attributes_typedict w);
           mutable_attributes :=
             if attr_is_readonly a then mutable_attributes w
             else if negb (attr_is_event_handler a)
                  then mutable_attributes w ++ [copied]
                  else mutable_attributes w;
           readonly_attributes :=
             if attr_is_readonly a then readonly_attributes w ++ [copied]
             else readonly_attributes w |} in
      let* h3 := put_WithAttributes self w' h2 in
      Ok (Some copied, h3)
  end.

(** [WithAttributes.remove_attribute], by object or by name: the removed
    attribute, or [None] when the name is not indexed. *)
Definition remove_attribute (self : loc) (attribute : string + loc) (h : heap)
  : result (option loc * heap) :=
  let* w := get_WithAttributes h self in
  let* attr_name :=
    match attribute with
    | inl name => Ok name
    | inr a => let* o := get_attribute h a in Ok (attr_name o)
    end in
  match _attributes_dict w !! attr_name with
  | None => Ok (None, h)
  | Some found =>
      let* a := get_attribute h found in
      let* l1 := list_remove (same_attribute h found) (_attributes w) in
      let d1 := delete attr_name (_attributes_dict w) in
      let* t1 :=
        dict_list_remove (same_attribute h found) (name (attr_idl_type a))
          (_attributes_typedict w) in
      let* ro :=
        if attr_is_readonly a
        then list_remove (same_attribute h found) (readonly_attributes w)
        else Ok (readonly_attributes w) in
      let* mu :=
        if attr_is_readonly a then Ok (mutable_attributes w)
        else if negb (attr_is_event_handler a)
             then list_remove (same_attribute h found) (mutable_attributes w)
             else Ok (mutable_attributes w) in
      let w' :=
        {| _attributes := l1;
           _attributes_dict := d1;
           _attributes_typedict := t1;
           mutable_attributes := mu;
           readonly_attributes := ro |} in
      let* h1 := put_WithAttributes self w' h in
      let* h2 := set_owner found None h1 in
      Ok (Some found, h2)
  end.

(** *** WithConstants *)

(** [WithConstants.constant] *)
Definition constant (h : heap) (self : loc) (name : string)
  : result (option loc) :=
  let* w := get_WithConstants h self in
  Ok (_constants_dict w !! name).

(** [WithConstants.add_constant]: the caller's object itself is appended
    and indexed, then given its owner. *)
Definition add_constant (self constant : loc) (h : heap) : result heap :=
  let* w := get_WithConstants h self in
  let* c := get_constant h constant in
  match _constants_dict w !! const_name c with
  | Some _ => Ok h
  | None =>
      let w' :=
        {| constants := constants w ++ [constant];
           _constants_dict := <[ const_name c := constant ]> (_constants_dict w)
        |} in
      let* h1 := put_WithConstants self w' h in
      set_owner constant (Some self) h1
  end.

(** [WithConstants.remove_constant], by object or by name. *)
Definition remove_constant (self : loc) (constant : string + loc) (h : heap)
  : result heap :=
  let* w := get_WithConstants h self in
  let found :=
    match constant with
    | inl name => _constants_dict w !! name
    | inr c => Some c
    end in
  match found with
  | None => Ok h
  | Some c =>
      let* l1 := list_remove (same_constant h c) (constants w) in
      let* o := get_constant h c in
      let* d1 := dict_pop (const_name o) (_constants_dict w) in
      let* h1 :=
        put_WithConstants self {| constants := l1; _constants_dict := d1 |} h in
      set_owner c None h1
  end.

(** *** WithOperations *)

(** [WithOperations.has_operation], by object or by name. *)
Definition has_operation (h : heap) (self : loc) (operation : string + loc)
  : result bool :=
  let* w := get_WithOperations h self in
  match operation with
  | inl name =>
      Ok (match _operations_dict w !! name with
          | Some (_ :: _) => true
          | _ => false
          end)
  | inr o => list_contains (same_operation h o) (_operations w)
  end.

(** [WithOperations.add_operation]: the stored copy, or [None] when an
    equal operation exists or the operation is a getter, setter or deleter.
    The copy is made and given its owner before either test. *)
Definition WithOperations_add_operation (self operation : loc) (h : heap)
  : result (option loc * heap) :=
  let* original := get_operation h operation in
  let* fresh := IdlOperation_copy original in
  let (copied, h1) := alloc (ObjOperation fresh) h in
  let* h2 := set_owner copied (Some self) h1 in
  let* present := has_operation h2 self (inr copied) in
  if present then Ok (None, h2)
  else
    let* o := get_operation h2 copied in
    if op_is_setter o || op_is_getter o || op_is_deleter o then Ok (None, h2)
    else
      let* w := get_WithOperations h2 self in
      let* n := IdlOperation_name o in
      let w' :=
        {| _operations := _operations w ++ [copied];
           _operations_dict := setdefault_append n copied (_operations_dict w);
           _disabled_operations := _disabled_operations w |} in
      let* h3 := put_WithOperations self w' h2 in
      Ok (Some copied, h3).

(** [WithOperations.remove_operation] *)
Definition WithOperations_remove_operation (self operation : loc) (h : heap)
  : result (bool * heap) :=
  let* present := has_operation h self (inr operation) in
  if present then
    let* w := get_WithOperations h self in
    let* l1 := list_remove (same_operation h operation) (_operations w) in
    let* o := get_operation h operation in
    let* n := IdlOperation_name o in
    let* d1 :=
      dict_list_remove (same_operation h operation) n (_operations_dict w) in
    let w' :=
      {| _operations := l1;
         _operations_dict := d1;
         _disabled_operations := _disabled_operations w |} in
    let* h1 := put_WithOperations self w' h in
    let* h2 := set_owner operation None h1 in
    Ok (true, h2)
  else Ok (false, h).

(** [WithOperations.operations] *)
Definition operations (h : heap) (self : loc) : result (list loc) :=
  let* w := get_WithOperations h self in
  Ok (_operations w).

(** *** IdlInterface *)

(** [IdlInterface.set_name]: nothing happens for a falsy value and for a
    value that is not a string. *)
Definition IdlInterface_set_name (name : pyval) (i : IdlInterface)
  : IdlInterface :=
  if negb (truthy name) then i
  else
    match name with
    | PyStr n => iface_set_type (IdlType_init n false) (iface_with_name n i)
    | _ => i
    end.

(** [IdlInterface.__init__] *)
Definition IdlInterface_init (name : string)
    (is_stringifier is_mixin : bool)
    (maplike : option IdlMaplike) (setlike : option IdlSetlike)
    (iterable : option IdlIterable) (parent : parent_ref)
    (is_declaration : bool) : IdlInterface :=
  let defined :=
    {| iface_extattrs := ExtAttrs.init;
       iface_name := "";
       iface_operations := WithOperations_init;
       iface_attributes := WithAttributes_init;
       iface_constants := WithConstants_init;
       iface_idl_type := IdlType_init name false;
       iface_constructors := [];
       iface_maplike := maplike;
       iface_setlike := setlike;
       iface_iterable := iterable;
       iface_is_stringifier := is_stringifier;
       iface_is_callback := false;
       iface_is_partial := false;
       iface_is_declaration := is_declaration;
       iface_is_mixin := is_mixin;
       iface_is_event := false;
       iface_parent := parent;
       iface_event_handlers := [] |} in
  IdlInterface_set_name (PyStr name) defined.

(** [IdlInterface.add_operation] *)
Definition IdlInterface_add_operation (self operation : loc) (h : heap)
  : result (bool * heap) :=
  let* r := WithOperations_add_operation self operation h in
  match r with
  | (None, h1) => Ok (false, h1)
  | (Some stored, h1) =>
      let* o := get_operation h1 stored in
      let* i := get_interface h1 self in
      let* h3 :=
        if op_is_constructor o then
          let accepted :=
            match op_idl_type o with
            | None => true
            | Some t => type_eq t (iface_idl_type i)
            end in
          if accepted then
            let i' :=
              iface_with_constructors (iface_constructors i ++ [stored]) i in
            let h2 := <[ self := ObjInterface i' ]> h1 in
            Ok (<[ stored :=
                     ObjOperation
                       (op_set_type (Some (IdlType_init (iface_name i) false))
                          o) ]> h2)
          else Raise AssertionError
        else Ok h1 in
      let* o' := get_operation h3 stored in
      match op_idl_type o' with
      | Some _ => Ok (true, h3)
      | None => Raise AssertionError
      end
  end.

(** [IdlInterface.is_subclass_of]: the loop over the parent chain, with
    [fuel] bounding the number of iterations; [None] when the bound is
    reached.  [other] is a name or an interface. *)
Fixpoint is_subclass_of_loop (fuel : nat) (h : heap) (i : parent_ref)
    (other : string + loc) : option (result bool) :=
  match fuel with
  | 0 => None
  | S fuel' =>
      match i with
      | ParentNone => Some (Ok false)
      | ParentName s =>
          if String.eqb s "" then Some (Ok false)
          else Some (Raise AssertionError)
      | ParentObject l =>
          match h !! l with
          | Some (ObjInterface p) =>
              let matched :=
                match other with
                | inl n => String.eqb n (iface_name p)
                | inr o => Nat.eqb o l
                end in
              if matched then Some (Ok true)
              else is_subclass_of_loop fuel' h (iface_parent p) other
          | Some _ => Some (Raise AssertionError)
          | None => Some (Raise BadReference)
          end
      end
  end.

Definition is_subclass_of (fuel : nat) (h : heap) (self : loc)
    (other : string + loc) : option (result bool) :=
  match get_interface h self with
  | Ok i => is_subclass_of_loop fuel h (iface_parent i) other
  | Raise e => Some (Raise e)
  end.

(** *** IdlNamespace and IdlDictionary *)

(** [IdlNamespace.__init__] *)
Definition IdlNamespace_init (name : string) : IdlNamespace :=
  {| ns_extattrs := ExtAttrs.init;
     ns_name := name;
     ns_operations := WithOperations_init;
     ns_attributes := WithAttributes_init;
     ns_constants := WithConstants_init;
     ns_is_partial := false |}.

(** [IdlDictionary.__init__] *)
Definition IdlDictionary_init (name : string) (parent : parent_ref)
    (is_partial : bool) : IdlDictionary :=
  {| dict_extattrs := ExtAttrs.init;
     dict_idl_type := IdlType_init name false;
     dict_name := name;
     dict_members := [];
     dict_members_dict := ∅;
     dict_members_typedict := ∅;
     dict_parent := parent;
     dict_is_partial := is_partial |}.

(** [IdlDictionary.add_member] *)
Definition add_member (self member : loc) (h : heap) : result heap :=
  let* d := get_dictionary h self in
  let* original := get_member h member in
  match dict_members_dict d !! member_name original with
  | Some _ => Ok h
  | None =>
      let* fresh := IdlDictionaryMember_copy original in
      let (new_member, h1) := alloc (ObjDictionaryMember fresh) h in
      let d' :=
        dict_with_members
          (dict_members d ++ [new_member])
          (<[ member_name fresh := new_member ]> (dict_members_dict d))
          (setdefault_append (name (member_idl_type fresh)) new_member
             (dict_members_typedict d))
          d in
      let h2 := <[ self := ObjDictionary d' ]> h1 in
      set_owner new_member (Some self) h2
  end.

(** [IdlDictionary.remove_member] *)
Definition remove_member (self : loc) (member_name : string) (h : heap)
  : result heap :=
  let* d := get_dictionary h self in
  match dict_members_dict d !! member_name with
  | None => Ok h
  | Some m =>
      let* o := get_member h m in
      let* l1 := list_remove (same_member h m) (dict_members d) in
      let d1 := delete member_name (dict_members_dict d) in
      let* t1 :=
        dict_list_remove (same_member h m) (name (member_idl_type o))
          (dict_members_typedict d) in
      Ok (<[ self := ObjDictionary (dict_with_members l1 d1 t1 d) ]> h)
  end.

(** *** The parent chain of an interface *)

(** [parent_chain h p ls e]: following the parent references from [p]
    visits the interfaces at [ls], nearest first, and then stops: at an
    absent parent or an empty name ([e = None]), or at a bare name that is
    not resolved ([e = Some s]). *)
Inductive parent_chain (h : heap)
  : parent_ref -> list loc -> option string -> Prop :=
| chain_none : parent_chain h ParentNone [] None
| chain_empty_name : parent_chain h (ParentName "") [] None
| chain_unresolved s : s <> "" -> parent_chain h (ParentName s) [] (Some s)
| chain_step l p ls e :
    h !! l = Some (ObjInterface p) ->
    parent_chain h (iface_parent p) ls e ->
    parent_chain h (ParentObject l) (l :: ls) e.

(** An ancestor matches [other] by name, or by being the same object. *)
Definition ancestor_matches (h : heap) (other : string + loc) (l : loc)
  : bool :=
  match other with
  | inl n =>
      match h !! l with
      | Some (ObjInterface p) => String.eqb n (iface_name p)
      | _ => false
      end
  | inr o => Nat.eqb o l
  end.

(** *** Changing the read-only flag of an attribute *)

Definition attr_with_readonly (readonly : bool) (a : IdlAttribute)
  : IdlAttribute :=
  {| attr_extattrs := attr_extattrs a;
     attr_idl_type := attr_idl_type a;
     attr_owner := attr_owner a;
     attr_name := attr_name a;
     attr_is_readonly := readonly;
     attr_is_static := attr_is_static a;
     attr_is_stringifier := attr_is_stringifier a;
     attr_is_inherit := attr_is_inherit a;
     attr_is_event_handler := attr_is_event_handler a |}.

(** [IdlAttribute.set_readonly]: with an owner, the attribute is removed
    from the owner, changed, and added again.  A dictionary has no
    [remove_attribute]. *)
Definition set_readonly (self : loc) (readonly : bool) (h : heap)
  : result heap :=
  let* a := get_attribute h self in
  if Bool.eqb readonly (attr_is_readonly a) then Ok h
  else
    match attr_owner a with
    | None =>
        Ok (<[ self := ObjAttribute (attr_with_readonly readonly a) ]> h)
    | Some owner =>
        match h !! owner with
        | Some (ObjDictionary _) => Raise AttributeError
        | _ =>
            let* r := remove_attribute owner (inr self) h in
            let h1 := snd r in
            let* a1 := get_attribute h1 self in
            let h2 :=
              <[ self := ObjAttribute (attr_with_readonly readonly a1) ]> h1 in
            let* r2 := add_attribute owner self h2 in
            Ok (snd r2)
        end
    end.

(** Every attribute listed by the container at [self] has that container
    as its owner. *)
Definition attributes_owned (h : heap) (self : loc) : Prop :=
  forall w, get_WithAttributes h self = Ok w ->
  forall l, In l (_attributes w) -> owner_of h l = Ok (Some self).

(** *** Looking operations up *)

(** One entry of [argument_types]: [None], a type name, a type value, or a
    value of another kind. *)
Inductive argument_type : Type :=
| AnyArgument
| ArgumentName (s : string)
| ArgumentType (t : IdlTypeBase)
| ArgumentOther.

(** The inner loop of [find_operations] over the argument positions; the
    two lists have the same length when it runs. *)
Fixpoint arguments_match (argument_types : list argument_type)
    (arguments : list IdlArgument) : result bool :=
  match argument_types, arguments with
  | p :: ps, a :: args =>
      match p with
      | AnyArgument => arguments_match ps args
      | ArgumentName s =>
          if String.eqb s (name (arg_idl_type a)) then arguments_match ps args
          else Ok false
      | ArgumentType t =>
          if type_eq t (arg_idl_type a) then arguments_match ps args
          else Ok false
      | ArgumentOther => Raise (TypeError "Invalid argument type")
      end
  | _, _ => Ok true
  end.

(** The outer loop of [find_operations]. *)
Fixpoint matching_operations (h : heap) (argument_types : list argument_type)
    (candidates : list loc) : result (list loc) :=
  match candidates with
  | [] => Ok []
  | op :: rest =>
      let* o := get_operation h op in
      if negb (Nat.eqb (length (op_arguments o)) (length argument_types))
      then matching_operations h argument_types rest
      else
        let* matched := arguments_match argument_types (op_arguments o) in
        let* ops := matching_operations h argument_types rest in
        Ok (if matched then op :: ops else ops)
  end.

(** [WithOperations.find_operations] *)
Definition find_operations (h : heap) (self : loc) (name : string)
    (argument_types : option (list argument_type)) (expect_count : option Z)
  : result (list loc) :=
  let* w := get_WithOperations h self in
  let candidates := default [] (_operations_dict w !! name) in
  let* ops :=
    match argument_types with
    | None => Ok candidates
    | Some ps => matching_operations h ps candidates
    end in
  match expect_count with
  | Some n =>
      if negb (Z.eqb (Z.of_nat (length ops)) n)
      then Raise (Exception "The number of operations returned is not as expected")
      else Ok ops
  | None => Ok ops
  end.

(** [WithOperations.operation] *)
Definition operation (h : heap) (self : loc) (name : string)
    (argument_types : option (list argument_type)) : result loc :=
  let* ops := find_operations h self name argument_types (Some 1%Z) in
  match ops with
  | op :: _ => Ok op
  | [] => Raise IndexError
  end.

(** *** IdlDictionary lookups *)

(** [IdlDictionary.has_member], by name or by member. *)
Definition has_member (h : heap) (self : loc) (member : string + loc)
  : result bool :=
  let* d := get_dictionary h self in
  match member with
  | inl name => Ok (bool_decide (is_Some (dict_members_dict d !! name)))
  | inr m =>
      let* o := get_member h m in
      Ok (bool_decide (is_Some (dict_members_dict d !! member_name o)))
  end.

(** [IdlDictionary.member]: [KeyError] for an absent name. *)
Definition member (h : heap) (self : loc) (name : string) : result loc :=
  let* d := get_dictionary h self in
  match dict_members_dict d !! name with
  | Some m => Ok m
  | None => Raise KeyError
  end.

(** *** IdlEnum *)

(** [s.lstrip(dquote)] and [s.rstrip(dquote)] *)
Fixpoint lstrip_quotes (s : string) : string :=
  match s with
  | String c s' => if Ascii.eqb c dquote then lstrip_quotes s' else s
  | EmptyString => EmptyString
  end.

Fixpoint rstrip_quotes (s : string) : string :=
  match s with
  | EmptyString => EmptyString
  | String c s' =>
      match rstrip_quotes s' with
      | EmptyString => if Ascii.eqb c dquote then EmptyString
                       else String c EmptyString
      | r => String c r
      end
  end.

(** [s.strip(dquote)] *)
Definition strip_quotes (s : string) : string :=
  rstrip_quotes (lstrip_quotes s).

(** The last character of a string is a double quote. *)
Fixpoint ends_with_quote (s : string) : bool :=
  match s with
  | EmptyString => false
  | String c EmptyString => Ascii.eqb c dquote
  | String _ s' => ends_with_quote s'
  end.

(** What [add_value] is given: a string, an integer, a set of such values,
    or a value of another kind. *)
Inductive enum_value : Type :=
| ValueStr (s : string)
| ValueInt (z : Z)
| ValueSet (elements : list enum_value)
| ValueOther.

Section enum_value_induction.
Variable P : enum_value -> Prop.
Hypothesis H_str : forall s, P (ValueStr s).
Hypothesis H_int : forall z, P (ValueInt z).
Hypothesis H_set : forall elements, Forall P elements -> P (ValueSet elements).
Hypothesis H_other : P ValueOther.

Fixpoint enum_value_nested_ind (v : enum_value) : P v :=
  match v with
  | ValueStr s => H_str s
  | ValueInt z => H_int z
  | ValueSet elements =>
      H_set elements
        ((fix members (l : list enum_value) : Forall P l :=
            match l with
            | [] => List.Forall_nil P
            | m :: l' =>
                List.Forall_cons P m l' (enum_value_nested_ind m) (members l')
            end) elements)
  | ValueOther => H_other
  end.
End enum_value_induction.

Record IdlEnum : Type := {
  enum_extattrs : extattrs;
  enum_idl_type : IdlTypeBase;
  enum_name : string;
  enum_values : gset (string + Z)
}.

(** [IdlEnum.add_value], on the set of values. *)
Fixpoint add_value (value : enum_value) (values : gset (string + Z))
  : result (gset (string + Z)) :=
  match value with
  | ValueStr s => Ok ({[ inl (strip_quotes s) ]} ∪ values)
  | ValueInt z => Ok ({[ inr z ]} ∪ values)
  | ValueSet elements =>
      fold_left
        (fun acc v =>
           match acc with
           | Ok vs => add_value v vs
           | Raise e => Raise e
           end) elements (Ok values)
  | ValueOther => Raise (TypeError "Invalid value type")
  end.

(** [IdlEnum.remove_value]: [KeyError] for an absent value. *)
Definition remove_value (value : string) (values : gset (string + Z))
  : result (gset (string + Z)) :=
  if bool_decide (inl value ∈ values) then Ok (values ∖ {[ inl value ]})
  else Raise KeyError.

End Definitions.

(** ** idlark.py: the array-type reductions of the transformer *)

Module Transformer.
Import Types Definitions.

(** A reduced child: a token with its terminal name and value, a type
    value, or anything else. *)
Inductive node : Type :=
| Token (type : string) (value : pyval)
| TypeNode (t : IdlTypeBase)
| OtherNode.

(** What a reduction returns: a node, or its list of children unchanged. *)
Inductive reduction : Type :=
| Reduced (n : node)
| Children (nodes : list node).

(** The first child that is a type value. *)
Fixpoint first_type (nodes : list node) : option IdlTypeBase :=
  match nodes with
  | [] => None
  | TypeNode t :: _ => Some t
  | _ :: nodes' => first_type nodes'
  end.

(** The last child that is a type value. *)
Definition last_type (nodes : list node) : option IdlTypeBase :=
  fold_left
    (fun acc n => match n with TypeNode t => Some t | _ => acc end)
    nodes None.

(** [WebIDLTransformer.sequence_type]: the element type is the last type
    child; the call [IdlSequenceType(element_type, length)] passes two
    arguments to a constructor that takes one. *)
Definition sequence_type (nodes : list node) : result reduction :=
  match last_type nodes with
  | None => Raise AssertionError
  | Some _ =>
      Raise (TypeError "__init__() takes 2 positional arguments but 3 were given")
  end.

(** [WebIDLTransformer.forzen_array_type] *)
Definition forzen_array_type (nodes : list node) : result reduction :=
  match first_type nodes with
  | Some t => Ok (Reduced (TypeNode (IdlSequenceType t)))
  | None => Ok (Children nodes)
  end.

(** [WebIDLTransformer.observable_array_type] *)
Definition observable_array_type (nodes : list node) : result reduction :=
  match first_type nodes with
  | Some t => Ok (Reduced (TypeNode (IdlObservableArrayType t)))
  | None => Ok (Children nodes)
  end.

(** [WebIDLTransformer.nullable]: the marker token, true when a question
    mark is among the children. *)
Definition nullable (nodes : list node) : node :=
  if existsb
       (fun n => match n with
                 | Token t _ => String.eqb t "QSTN"
                 | _ => false
                 end) nodes
  then Token "NULLABLE" (PyBool true)
  else Token "NULLABLE" (PyBool false).

(** The loop of [type] and of [distinguishable_type]: the last type child
    and the value of the last nullable marker. *)
Definition scan_type (nodes : list node) : option IdlTypeBase * pyval :=
  fold_left
    (fun acc n =>
       match n with
       | TypeNode t => (Some t, snd acc)
       | Token ty v => if String.eqb ty "NULLABLE" then (fst acc, v) else acc
       | OtherNode => acc
       end) nodes (None, PyBool false).

(** [WebIDLTransformer.type] *)
Definition type (nodes : list node) : result reduction :=
  match scan_type nodes with
  | (None, _) => Raise AssertionError
  | (Some ret, marker) =>
      if truthy marker then
        let* r := IdlNullableType_init ret in
        Ok (Reduced (TypeNode r))
      else Ok (Reduced (TypeNode ret))
  end.

(** [WebIDLTransformer.distinguishable_type] *)
Definition distinguishable_type (nodes : list node) : result reduction :=
  if negb (Nat.eqb (length nodes) 1 || Nat.eqb (length nodes) 2)
  then Raise AssertionError
  else type nodes.

(** The type children, in order. *)
Fixpoint type_children (nodes : list node) : list IdlTypeBase :=
  match nodes with
  | [] => []
  | TypeNode t :: nodes' => t :: type_children nodes'
  | _ :: nodes' => type_children nodes'
  end.

(** [WebIDLTransformer.union_type], given the order of the set. *)
Definition union_type
    (list_of_set : list IdlTypeBase -> list IdlTypeBase)
    (nodes : list node) : result reduction :=
  match type_children nodes with
  | [] => Raise AssertionError
  | member_types =>
      let* u := IdlUnionType_init list_of_set member_types in
      Ok (Reduced (TypeNode u))
  end.

End Transformer.

(** * Properties *)

(** ** Type algebra *)

Section TypeFacts.
Import Types.

Lemma type_eq_refl t : type_eq t t = true.
Proof.
  induction t using IdlTypeBase_nested_ind; simpl;
    rewrite ?String.eqb_refl; auto.
  - now rewrite IHt1, IHt2.
  - rewrite IHt. simpl. now apply bool_decide_eq_true.
Qed.

Lemma type_eq_same_class t u : type_eq t u = true -> same_class t u = true.
Proof. destruct t, u; simpl; congruence. Qed.

Lemma type_eq_name t : forall u, type_eq t u = true -> name t = name u.
Proof.
  induction t using IdlTypeBase_nested_ind; intros u He;
    pose proof (type_eq_same_class _ _ He) as Hc;
    destruct u; simpl in Hc; try discriminate; cbn [type_eq] in He.
  - apply String.eqb_eq in He. now subst.
  - now apply String.eqb_eq in He.
  - now apply String.eqb_eq in He.
  - now apply String.eqb_eq in He.
  - now apply String.eqb_eq in He.
  - apply String.eqb_eq in He. now symmetry.
  - apply andb_true_iff in He as [Hk Hv]. cbn [name].
    now rewrite (IHt1 _ Hk), (IHt2 _ Hv).
  - simpl. now apply IHt.
  - apply andb_true_iff in He as [Hn _]. simpl. now apply IHt.
Qed.

Lemma type_eq_by_name t u :
  compares_by_name t = true ->
  (type_eq t u = true <-> same_class t u = true /\ name t = name u).
Proof.
  intros Hc. split.
  - intros He. split; [now apply type_eq_same_class | now apply type_eq_name].
  - intros [Hs Hn].
    destruct t; try discriminate; destruct u; try discriminate;
      unfold type_eq; apply String.eqb_eq; congruence.
Qed.

Lemma type_eq_sym t : forall u, type_eq t u = type_eq u t.
Proof.
  induction t using IdlTypeBase_nested_ind; intros u; destruct u;
    cbn [type_eq]; try reflexivity; try apply String.eqb_sym.
  - now rewrite IHt1, IHt2.
  - apply IHt.
  - rewrite IHt. f_equal. apply bool_decide_ext. split; congruence.
Qed.

(** C1 (counterexample): a nullable [long] and [long] have the same name
    and are not equal, in either direction of the comparison; and two named
    types [any] and [Any] share the name [Any] without being equal. *)
Lemma nullable_long_not_equal_by_name :
  IdlNullableType_init (IdlType "long") = Ok (IdlNullableType (IdlType "long"))
  /\ ~ (type_eq (IdlNullableType (IdlType "long")) (IdlType "long") = true
        <-> equal_by_name (IdlNullableType (IdlType "long")) (IdlType "long"))
  /\ ~ (type_eq (IdlType "long") (IdlNullableType (IdlType "long")) = true
        <-> equal_by_name (IdlType "long") (IdlNullableType (IdlType "long")))
  /\ ~ (type_eq (IdlType "any") (IdlType "Any") = true
        <-> equal_by_name (IdlType "any") (IdlType "Any")).
Proof.
  split; [reflexivity|].
  repeat split; intros [_ H]; cbn [type_eq] in H;
    (assert (Hf : false = true \/ ("any" =? "Any") = true)
      by (first [left; apply H | right; apply H];
          split; [reflexivity | intros; discriminate]));
    destruct Hf as [Hf | Hf]; vm_compute in Hf; discriminate.
Qed.

(** C1 (amended): equal type values are of the same class and have the
    same name; values of different classes are never equal; promises,
    unions, sequences, frozen arrays and observable arrays of one class are
    equal exactly when their names are equal; named types are equal exactly
    when their base names are, records when their keys and values are,
    nullables when their inner types are, and annotated types when their
    inner types and their attribute sets are. *)
Theorem type_eq_characterisation (t u : IdlTypeBase) :
  (type_eq t u = true -> same_class t u = true /\ name t = name u)
  /\ (same_class t u = false -> type_eq t u = false)
  /\ (compares_by_name t = true ->
      (type_eq t u = true <-> same_class t u = true /\ name t = name u))
  /\ (forall b b', type_eq (IdlType b) (IdlType b') = true <-> b = b')
  /\ (forall k v k' v',
        type_eq (IdlRecordType k v) (IdlRecordType k' v') = true
        <-> type_eq k k' = true /\ type_eq v v' = true)
  /\ (forall n n',
        type_eq (IdlNullableType n) (IdlNullableType n') = true
        <-> type_eq n n' = true)
  /\ (forall n e n' e',
        type_eq (IdlAnnotatedType n e) (IdlAnnotatedType n' e') = true
        <-> type_eq n n' = true /\ e = e').
Proof.
  repeat apply conj.
  - intros He. split; [now apply type_eq_same_class | now apply type_eq_name].
  - intros Hc. destruct (type_eq t u) eqn:He; [|reflexivity].
    apply type_eq_same_class in He. congruence.
  - apply type_eq_by_name.
  - intros b b'. apply String.eqb_eq.
  - intros k v k' v'. cbn [type_eq]. apply andb_true_iff.
  - intros n n'. reflexivity.
  - intros n e n' e'. cbn [type_eq]. rewrite andb_true_iff.
    now rewrite bool_decide_eq_true.
Qed.

(** C1 (witness): two sequences of [long] are equal, and a sequence and a
    frozen array of [long] are not. *)
Lemma type_eq_characterisation_witness :
  type_eq (IdlSequenceType (IdlType "long")) (IdlSequenceType (IdlType "long"))
  = true
  /\ type_eq (IdlSequenceType (IdlType "long"))
       (IdlFrozenArrayType (IdlType "long")) = false.
Proof.
  split.
  - apply (proj1 (proj2 (proj2 (type_eq_characterisation
             (IdlSequenceType (IdlType "long"))
             (IdlSequenceType (IdlType "long"))))) eq_refl).
    split; reflexivity.
  - apply (proj1 (proj2 (type_eq_characterisation
             (IdlSequenceType (IdlType "long"))
             (IdlFrozenArrayType (IdlType "long"))))).
    reflexivity.
Defined.

(** *** Nullable construction *)

Lemma list_sum_pos (l : list nat) :
  0 < list_sum l <-> exists n, In n l /\ 0 < n.
Proof.
  induction l as [|a l IH]; simpl.
  - split; [lia | intros (n & [] & _)].
  - split.
    + intros H. destruct (Nat.eq_dec a 0) as [->|Ha].
      * apply IH in H as (n & Hn & Hp). eauto.
      * exists a. split; [now left | lia].
    + intros (n & [<-|Hn] & Hp); [lia|].
      assert (0 < list_sum l) by (apply IH; eauto). lia.
Qed.

Lemma nullable_count_contains (ms : list IdlTypeBase) :
  contains_nullable ms ->
  0 < number_of_nullable_member_types (IdlUnionType ms).
Proof.
  induction 1 as [ms n Hin | ms ms' Hin _ IH];
    cbn [number_of_nullable_member_types]; apply list_sum_pos.
  - eexists. split.
    + apply in_map_iff. exists (IdlNullableType n). split; [reflexivity|exact Hin].
    + lia.
  - eexists. split.
    + apply in_map_iff. exists (IdlUnionType ms'). split; [reflexivity|exact Hin].
    + exact IH.
Qed.

Lemma contains_nullable_count (t : IdlTypeBase) :
  forall ms, t = IdlUnionType ms ->
  0 < number_of_nullable_member_types t -> contains_nullable ms.
Proof.
  induction t as [| | ms IH | | | | | |] using IdlTypeBase_nested_ind;
    intros ms0 Heq; try discriminate.
  injection Heq as <-. cbn [number_of_nullable_member_types].
  intros Hpos. apply list_sum_pos in Hpos as (n & Hin & Hn).
  apply in_map_iff in Hin as (member & <- & Hin).
  rewrite List.Forall_forall in IH. specialize (IH member Hin).
  destruct member; try lia.
  - eapply contains_nullable_nested; [exact Hin|]. now apply IH.
  - eapply contains_nullable_member. exact Hin.
Qed.

Lemma nullable_count_iff (ms : list IdlTypeBase) :
  0 < number_of_nullable_member_types (IdlUnionType ms)
  <-> contains_nullable ms.
Proof.
  split; [now apply contains_nullable_count | apply nullable_count_contains].
Qed.

(** C2: constructing a nullable type raises the construction error exactly
    for the excluded inner types (canonical name [Any], a promise, a
    nullable, a union that recursively contains a nullable member); for
    every other inner type it returns a nullable type whose nested type is
    the inner type.  The code's [ValueError] is the specification's
    [TypeConstraintError]. *)
Theorem nullable_construction (X : IdlTypeBase) :
  (excluded_inner X
   /\ exists msg, IdlNullableType_init X = Raise (ValueError msg))
  \/ (~ excluded_inner X
      /\ IdlNullableType_init X = Ok (IdlNullableType X)
      /\ get_nested_type (IdlNullableType X) = Some X).
Proof.
  unfold IdlNullableType_init, excluded_inner.
  destruct (String.eqb_spec (name X) "Any") as [Hany | Hany].
  { left. split; [now left | eauto]. }
  destruct X as [b | n | ms | e | e | e | k v | n | n a].
  3: { destruct (Nat.ltb_spec 0 (number_of_nullable_member_types (IdlUnionType ms)))
         as [Hc | Hc].
       - left. split; [|eauto]. do 3 right. exists ms. split; [reflexivity|].
         now apply nullable_count_iff.
       - right. split; [|split; reflexivity].
         intros [H | [[n H] | [[n H] | (ms' & H & Hcn)]]];
           try discriminate; try contradiction.
         injection H as <-. apply nullable_count_iff in Hcn. lia. }
  all: try (left; split; [|eauto]; eauto 6; fail).
  all: right; (split; [|split; reflexivity]);
    intros [H | [[n' H] | [[n' H] | (ms' & H & _)]]];
    try discriminate; contradiction.
Qed.

(** C2 (witness): a nullable [long] is built; a nullable of a nullable
    [long] and a nullable of a union with a nullable member are refused. *)
Lemma nullable_construction_witness :
  IdlNullableType_init (IdlType "long") = Ok (IdlNullableType (IdlType "long"))
  /\ (exists msg,
        IdlNullableType_init (IdlNullableType (IdlType "long"))
        = Raise (ValueError msg))
  /\ (exists msg,
        IdlNullableType_init
          (IdlUnionType [IdlNullableType (IdlType "long"); IdlType "short"])
        = Raise (ValueError msg)).
Proof.
  repeat apply conj.
  - destruct (nullable_construction (IdlType "long"))
      as [[_ [msg H]] | [_ [H _]]]; [discriminate H | exact H].
  - destruct (nullable_construction (IdlNullableType (IdlType "long")))
      as [[_ H] | [_ [H _]]]; [exact H | discriminate H].
  - destruct (nullable_construction
                (IdlUnionType
                   [IdlNullableType (IdlType "long"); IdlType "short"]))
      as [[_ H] | [_ [H _]]]; [exact H | discriminate H].
Defined.

(** *** Union construction *)

Lemma string_compare_refl (s : string) : String.compare s s = Eq.
Proof.
  induction s as [|c s IH]; simpl; [reflexivity|].
  unfold Ascii.compare. now rewrite N.compare_refl.
Qed.

Lemma string_compare_lt_trans (s1 : string) :
  forall s2 s3,
    String.compare s1 s2 = Lt -> String.compare s2 s3 = Lt ->
    String.compare s1 s3 = Lt.
Proof.
  induction s1 as [|a s1 IH]; intros [|b s2] [|c s3]; simpl;
    try discriminate; try reflexivity.
  destruct (Ascii.compare a b) eqn:Hab; try discriminate;
    destruct (Ascii.compare b c) eqn:Hbc; try discriminate; intros H1 H2.
  - apply Ascii.compare_eq_iff in Hab, Hbc. subst.
    unfold Ascii.compare. rewrite N.compare_refl. eauto.
  - apply Ascii.compare_eq_iff in Hab. subst. now rewrite Hbc.
  - apply Ascii.compare_eq_iff in Hbc. subst. now rewrite Hab.
  - unfold Ascii.compare in *. rewrite N.compare_lt_iff in *.
    assert (Hac : (N_of_ascii a < N_of_ascii c)%N) by lia.
    apply N.compare_lt_iff in Hac. now rewrite Hac.
Qed.

Lemma str_le_cases (a b : string) :
  str_le a b <-> String.compare a b = Lt \/ a = b.
Proof.
  unfold str_le, String.leb. split.
  - destruct (String.compare a b) eqn:Hc; try discriminate; intros _.
    + right. now apply String.compare_eq_iff.
    + now left.
  - intros [-> | ->]; [reflexivity|]. now rewrite string_compare_refl.
Qed.

#[local] Instance str_le_trans : Transitive str_le.
Proof.
  intros a b c Hab Hbc. apply str_le_cases in Hab, Hbc. apply str_le_cases.
  destruct Hab as [Hab | ->], Hbc as [Hbc | ->]; auto.
  left. eapply string_compare_lt_trans; eauto.
Qed.

#[local] Instance str_le_antisym : AntiSymm eq str_le.
Proof. intros a b. apply String.leb_antisym. Qed.

Lemma str_le_total (a b : string) : str_le a b \/ str_le b a.
Proof. apply String.leb_total. Qed.

Lemma insert_by_name_perm x l : Permutation (insert_by_name x l) (x :: l).
Proof.
  induction l as [|y l IH]; simpl; [reflexivity|].
  destruct (String.leb (name x) (name y)); [reflexivity|].
  rewrite IH. apply perm_swap.
Qed.

Lemma sort_by_name_perm l : Permutation (sort_by_name l) l.
Proof.
  induction l as [|x l IH]; simpl; [reflexivity|].
  rewrite insert_by_name_perm. now constructor.
Qed.

Lemma insert_by_name_sorted x l :
  Sorted str_le (List.map name l) ->
  Sorted str_le (List.map name (insert_by_name x l)).
Proof.
  induction l as [|y l IH]; simpl; intros Hs.
  - repeat constructor.
  - destruct (String.leb (name x) (name y)) eqn:Hxy; simpl.
    + constructor; [exact Hs | now constructor].
    + apply Sorted_inv in Hs as [Hs Hhd].
      constructor; [now apply IH|].
      assert (Hyx : str_le (name y) (name x)).
      { destruct (str_le_total (name x) (name y)) as [H|H]; [|exact H].
        unfold str_le in H. congruence. }
      destruct l as [|z l]; simpl.
      * now constructor.
      * destruct (String.leb (name x) (name z)); simpl; constructor;
          [exact Hyx | now inversion Hhd].
Qed.

Lemma sort_by_name_sorted l : Sorted str_le (List.map name (sort_by_name l)).
Proof.
  induction l as [|x l IH]; simpl; [constructor | now apply insert_by_name_sorted].
Qed.

(** The sorted member names depend on the members as a multiset only. *)
Lemma sorted_names_perm l1 l2 :
  Permutation l1 l2 ->
  List.map name (sort_by_name l1) = List.map name (sort_by_name l2).
Proof.
  intros Hp. apply (Sorted_unique str_le); try apply sort_by_name_sorted.
  apply Permutation_map. now rewrite !sort_by_name_perm.
Qed.

Lemma type_in_spec x l :
  type_in x l = true <-> exists y, In y l /\ type_eq x y = true.
Proof. apply existsb_exists. Qed.

Lemma type_in_perm x l l' :
  Permutation l l' -> type_in x l = type_in x l'.
Proof.
  intros Hp. apply eq_true_iff_eq. rewrite !type_in_spec.
  split; intros (y & Hy & He); exists y; split; auto;
    [now apply (Permutation_in _ Hp) | now apply (Permutation_in _ (Permutation_sym Hp))].
Qed.

Lemma distinct_types_perm l l' :
  Permutation l l' -> distinct_types l = true -> distinct_types l' = true.
Proof.
  induction 1 as [| x l l' Hp IH | x y l | l l' l'' _ IH1 _ IH2]; simpl.
  - auto.
  - rewrite !andb_true_iff. intros [Hx Hd]. split; [|auto].
    now rewrite <- (type_in_perm x _ _ Hp).
  - rewrite (type_eq_sym x y).
    destruct (type_eq y x), (type_in x l), (type_in y l); simpl; auto.
  - auto.
Qed.

(** C3: for a list [S] of pairwise distinct type values and every
    permutation [P] of it, the unions built from [S] and from [P] have the
    same canonical name and are equal, whatever the order in which the set
    of members is traversed.  The name is computed from the members: the
    union built from [S] is a union value whose members are the values of
    [S], each once, in the order of their canonical names; its name is
    [Union(] followed by those member names, joined by a comma and a
    space, and [)]; and the union built from [P] has the values of [P] as
    members, with the same list of member names. *)
Theorem union_name_order_independent
    (list_of_set : list IdlTypeBase -> list IdlTypeBase)
    (S P : list IdlTypeBase) :
  set_order list_of_set ->
  distinct_types S = true ->
  S <> [] ->
  Permutation S P ->
  exists u v,
    IdlUnionType_init list_of_set S = Ok u
    /\ IdlUnionType_init list_of_set P = Ok v
    /\ name u = name v
    /\ type_eq u v = true
    /\ u = IdlUnionType (get_types u)
    /\ v = IdlUnionType (get_types v)
    /\ Permutation (get_types u) S
    /\ Permutation (get_types v) P
    /\ Sorted str_le (List.map name (get_types u))
    /\ List.map name (get_types v) = List.map name (get_types u)
    /\ name u
       = ("Union(" ++ join ", " (List.map name (get_types u)) ++ ")")%string.
Proof.
  intros Hset Hd Hne Hp.
  pose proof (distinct_types_perm _ _ Hp Hd) as Hd'.
  pose proof (Hset S Hd) as HS. pose proof (Hset P Hd') as HP.
  assert (Hperm : Permutation (list_of_set S) (list_of_set P))
    by now rewrite HS, HP.
  unfold IdlUnionType_init.
  destruct (list_of_set S) as [|a A] eqn:EA.
  { apply Permutation_nil in HS. contradiction. }
  destruct (list_of_set P) as [|b B] eqn:EB.
  { symmetry in Hperm. apply Permutation_nil in Hperm. discriminate. }
  do 2 eexists. split; [reflexivity|]. split; [reflexivity|].
  assert (Hn : name (IdlUnionType (sort_by_name (a :: A)))
               = name (IdlUnionType (sort_by_name (b :: B)))).
  { cbn [name]. now rewrite (sorted_names_perm _ _ Hperm). }
  split; [exact Hn|]. split; [cbn [type_eq]; now apply String.eqb_eq|].
  cbn [get_types]. split; [reflexivity|]. split; [reflexivity|].
  split; [now rewrite sort_by_name_perm|].
  split; [now rewrite sort_by_name_perm|].
  split; [apply sort_by_name_sorted|].
  split; [symmetry; now apply sorted_names_perm | reflexivity].
Qed.

(** C3 (witness): the members [long], [DOMString] and a sequence of
    [long], with a set that yields its elements in reverse. *)
Lemma union_name_order_independent_witness :
  exists u v,
    IdlUnionType_init (@List.rev _)
      [IdlType "long"; IdlType "DOMString"; IdlSequenceType (IdlType "long")]
    = Ok u
    /\ IdlUnionType_init (@List.rev _)
         [IdlSequenceType (IdlType "long"); IdlType "long"; IdlType "DOMString"]
       = Ok v
    /\ name u = name v
    /\ type_eq u v = true
    /\ u = IdlUnionType (get_types u)
    /\ v = IdlUnionType (get_types v)
    /\ Permutation (get_types u)
         [IdlType "long"; IdlType "DOMString"; IdlSequenceType (IdlType "long")]
    /\ Permutation (get_types v)
         [IdlSequenceType (IdlType "long"); IdlType "long"; IdlType "DOMString"]
    /\ Sorted str_le (List.map name (get_types u))
    /\ List.map name (get_types v) = List.map name (get_types u)
    /\ name u
       = ("Union(" ++ join ", " (List.map name (get_types u)) ++ ")")%string.
Proof.
  apply (union_name_order_independent (@List.rev _)).
  - intros l _. apply Permutation_sym, Permutation_rev.
  - vm_compute. reflexivity.
  - discriminate.
  - apply Permutation_sym.
    apply (Permutation_cons_app [IdlType "long"; IdlType "DOMString"] []).
    now rewrite app_nil_r.
Defined.

End TypeFacts.

(** ** Extended-attribute store *)

Section StoreFacts.
Import ExtAttrs.
Context {A : Type}.

(** Every getter answers without an error, and a key that was never added
    yields the empty default. *)
Lemma extattr_get_absent (key : string) :
  extattr_has_identifier (@init A) key = false
  /\ extattr_get_arguments (@init A) key = []
  /\ extattr_get_named_arguments (@init A) key = None
  /\ extattr_get_identifier_value (@init A) key = None
  /\ extattr_get_identifier_list (@init A) key = []
  /\ extattr_get_string_literal (@init A) key = None
  /\ extattr_get_string_literal_list (@init A) key = []
  /\ extattr_get_number (@init A) key = None.
Proof.
  unfold extattr_has_identifier, extattr_get_arguments,
    extattr_get_identifier_value, extattr_get_identifier_list,
    extattr_get_string_literal_list, extattr_get_number; simpl.
  rewrite !lookup_empty. repeat split.
Qed.

(** C4 (what the code does): after an add, the getters of the identifier
    flags, identifier pairs, identifier lists, string-literal lists and
    positional arguments return what was stored; the getters of string
    literals and of named arguments return [None] although the bucket
    holds the stored value. *)
Theorem extattr_get_after_add (w : WithExtendedAttributes A) (key : string) :
  extattr_has_identifier (extattr_add_identifier key w) key = true
  /\ (forall v,
        extattr_get_identifier_value (extattr_add_identifier_pair key v w) key
        = Some v)
  /\ (forall v,
        extattr_get_identifier_list (extattr_add_identifier_list key v w) key
        = v)
  /\ (forall v,
        extattr_get_string_literal_list
          (extattr_add_string_literal_list key v w) key = v)
  /\ (forall v, extattr_get_arguments (extattr_add_arguments key v w) key = v)
  /\ (forall v q,
        _string_literals (extattr_add_string_literal key v q w) !! key
        = Some (if q then quoted v else v)
        /\ extattr_get_string_literal
             (extattr_add_string_literal key v q w) key = None)
  /\ (forall n v,
        _named_arguments (extattr_add_named_arguments key n v w) !! key
        = Some (n, v)
        /\ extattr_get_named_arguments
             (extattr_add_named_arguments key n v w) key = None).
Proof.
  unfold extattr_has_identifier, extattr_get_identifier_value,
    extattr_get_identifier_list, extattr_get_string_literal_list,
    extattr_get_arguments, extattr_get_string_literal,
    extattr_get_named_arguments; simpl.
  repeat split; intros; rewrite ?lookup_insert_eq; try reflexivity.
  apply bool_decide_eq_true. set_solver.
Qed.

End StoreFacts.

(** ** Transformer *)

Section TransformerFacts.
Import Types Definitions Transformer.

Lemma sequence_name_not_frozen (E : IdlTypeBase) :
  name (IdlSequenceType E) <> name (IdlFrozenArrayType E).
Proof. cbn [name]. intros H. discriminate H. Qed.

(** C9 (what the code does): the frozen-array reduction returns a sequence
    type, named [Sequence(E)] and unequal to the frozen array of [E]; the
    observable-array reduction returns an observable array; the sequence
    reduction raises [TypeError]. *)
Theorem forzen_array_type_is_sequence (E : IdlTypeBase) :
  forzen_array_type [TypeNode E] = Ok (Reduced (TypeNode (IdlSequenceType E)))
  /\ name (IdlSequenceType E) = ("Sequence(" ++ name E ++ ")")%string
  /\ name (IdlSequenceType E) <> name (IdlFrozenArrayType E)
  /\ type_eq (IdlSequenceType E) (IdlFrozenArrayType E) = false
  /\ type_eq (IdlFrozenArrayType E) (IdlSequenceType E) = false
  /\ observable_array_type [TypeNode E]
     = Ok (Reduced (TypeNode (IdlObservableArrayType E)))
  /\ is_ok (sequence_type [TypeNode E]) = false.
Proof.
  repeat split; try reflexivity. apply sequence_name_not_frozen.
Qed.

End TransformerFacts.

(** ** Interfaces *)

Section InterfaceFacts.
Import Types Definitions.

Lemma set_name_string (n : string) (i : IdlInterface) :
  n <> "" ->
  IdlInterface_set_name (PyStr n) i
  = iface_set_type (IdlType n) (iface_with_name n i).
Proof.
  intros Hn. unfold IdlInterface_set_name. simpl.
  destruct (String.eqb_spec n ""); [contradiction | reflexivity].
Qed.

(** C10: after construction the type of an interface is the named type of
    its name; [set_name] with a non-empty string sets the name and the type
    together; [set_name] with the empty string or with a value that is not
    a string changes nothing. *)
Theorem interface_name_type_coupling :
  (forall name is_stringifier is_mixin maplike setlike iterable parent
          is_declaration,
      let i := IdlInterface_init name is_stringifier is_mixin maplike setlike
                 iterable parent is_declaration in
      iface_name i = name
      /\ iface_idl_type i = IdlType (iface_name i)
      /\ type_eq (iface_idl_type i) (IdlType_init (iface_name i) false) = true)
  /\ (forall (i : IdlInterface) (n : string),
        n <> "" ->
        let i' := IdlInterface_set_name (PyStr n) i in
        iface_name i' = n
        /\ iface_idl_type i' = IdlType n
        /\ type_eq (iface_idl_type i') (IdlType_init (iface_name i') false)
           = true)
  /\ (forall (i : IdlInterface) (v : pyval),
        (forall s, v = PyStr s -> s = "") ->
        IdlInterface_set_name v i = i).
Proof.
  split; [|split].
  - intros name ? ? ? ? ? ? ?. cbv zeta. unfold IdlInterface_init.
    destruct (String.eqb_spec name "") as [-> | Hn].
    + repeat split.
    + rewrite set_name_string by exact Hn. simpl.
      repeat split. apply String.eqb_refl.
  - intros i n Hn. cbv zeta. rewrite set_name_string by exact Hn. simpl.
    repeat split. apply String.eqb_refl.
  - intros i v Hv. unfold IdlInterface_set_name.
    destruct v as [| b | z | s]; simpl.
    + reflexivity.
    + now destruct b.
    + now destruct (Z.eqb z 0).
    + now rewrite (Hv s eq_refl).
Qed.

(** C10 (witness): an interface [Node] renamed to [Element], then given the
    empty string, [None] and the integer 7. *)
Lemma interface_name_type_coupling_witness :
  let i := IdlInterface_init "Node" false false None None None ParentNone false in
  let i' := IdlInterface_set_name (PyStr "Element") i in
  iface_idl_type i = IdlType "Node"
  /\ iface_name i' = "Element"
  /\ iface_idl_type i' = IdlType "Element"
  /\ IdlInterface_set_name (PyStr "") i' = i'
  /\ IdlInterface_set_name PyNone i' = i'
  /\ IdlInterface_set_name (PyInt 7) i' = i'.
Proof.
  destruct interface_name_type_coupling as (Hinit & Hset & Hnoop).
  cbv zeta. repeat apply conj.
  - apply (Hinit "Node").
  - apply (Hset _ "Element"). discriminate.
  - apply (Hset _ "Element"). discriminate.
  - apply Hnoop. intros s [= <-]. reflexivity.
  - apply Hnoop. intros s [=].
  - apply Hnoop. intros s [=].
Defined.

End InterfaceFacts.

(** ** The parent chain *)

Section SubclassFacts.
Import Types Definitions.

Lemma is_subclass_of_loop_chain (h : heap) (other : string + loc)
    (p : parent_ref) (ls : list loc) (e : option string) :
  parent_chain h p ls e ->
  forall fuel, length ls < fuel ->
  is_subclass_of_loop fuel h p other
  = Some (if existsb (ancestor_matches h other) ls then Ok true
          else match e with
               | None => Ok false
               | Some _ => Raise AssertionError
               end).
Proof.
  induction 1 as [| | s Hs | l p ls e Hl _ IH]; intros [|fuel] Hf;
    simpl in Hf; try lia; simpl.
  - reflexivity.
  - reflexivity.
  - destruct (String.eqb_spec s ""); [contradiction | reflexivity].
  - rewrite Hl.
    assert (Hm : ancestor_matches h other l
                 = match other with
                   | inl n => String.eqb n (iface_name p)
                   | inr o => Nat.eqb o l
                   end).
    { unfold ancestor_matches. destruct other; [now rewrite Hl | reflexivity]. }
    rewrite Hm.
    destruct (match other with
              | inl n => String.eqb n (iface_name p)
              | inr o => Nat.eqb o l
              end); simpl; [reflexivity|].
    apply IH. lia.
Qed.

(** C8 (counterexample): an interface [B] whose parent is the bare name
    [A]; asking whether it is a subclass of [X] raises the assertion error
    instead of returning false. *)
Lemma is_subclass_of_unresolved_parent_raises :
  let h :=
    [ObjInterface
       (IdlInterface_init "B" false false None None None (ParentName "A")
          false)] in
  is_subclass_of 5 h 0 (inl "X") = Some (Raise AssertionError)
  /\ is_subclass_of 5 h 0 (inl "X") <> Some (Ok false).
Proof. split; [reflexivity | discriminate]. Qed.

(** C8 (amended): for an interface whose parent chain is finite, the call
    returns true exactly when one of the ancestors matches [other], by name
    when [other] is a name and by identity when it is an interface; when no
    ancestor matches it returns false if the chain ends at an absent parent
    or an empty name, and it raises the assertion error if the chain ends
    at a bare name that is not resolved. *)
Theorem is_subclass_of_chain (h : heap) (self : loc) (i : IdlInterface)
    (other : string + loc) (ls : list loc) (e : option string) (fuel : nat) :
  h !! self = Some (ObjInterface i) ->
  parent_chain h (iface_parent i) ls e ->
  length ls < fuel ->
  is_subclass_of fuel h self other
  = Some (if existsb (ancestor_matches h other) ls then Ok true
          else match e with
               | None => Ok false
               | Some _ => Raise AssertionError
               end).
Proof.
  intros Hself Hchain Hfuel. unfold is_subclass_of, get_interface.
  rewrite Hself. now apply is_subclass_of_loop_chain.
Qed.

(** C8 (witness): [A] without parent, [B] with parent [A], [C] with parent
    [B]: [C] is a subclass of [A], by object and by name, and [A] is not a
    subclass of [C]. *)
Lemma is_subclass_of_chain_witness :
  let A := IdlInterface_init "A" false false None None None ParentNone false in
  let B :=
    IdlInterface_init "B" false false None None None (ParentObject 0) false in
  let C :=
    IdlInterface_init "C" false false None None None (ParentObject 1) false in
  let h := [ObjInterface A; ObjInterface B; ObjInterface C] in
  is_subclass_of 3 h 2 (inr 0) = Some (Ok true)
  /\ is_subclass_of 3 h 2 (inl "A") = Some (Ok true)
  /\ is_subclass_of 1 h 0 (inr 2) = Some (Ok false).
Proof.
  intros A B C h.
  assert (HC : parent_chain h (ParentObject 1) [1; 0] None).
  { eapply chain_step; [reflexivity|].
    eapply chain_step; [reflexivity|]. apply chain_none. }
  repeat apply conj.
  - exact (is_subclass_of_chain h 2 C (inr 0) [1; 0] None 3 eq_refl HC
             (le_n 3)).
  - exact (is_subclass_of_chain h 2 C (inl "A") [1; 0] None 3 eq_refl HC
             (le_n 3)).
  - exact (is_subclass_of_chain h 0 A (inr 2) [] None 1 eq_refl
             (chain_none h) (le_n 1)).
Defined.

End SubclassFacts.

(** ** Ownership and copies *)

Section OwnershipFacts.
Import Types ExtAttrs Definitions.

Lemma bind_Ok {A B} (r : result A) (k : A -> result B) (b : B) :
  bind r k = Ok b -> exists a, r = Ok a /\ k a = Ok b.
Proof. destruct r; simpl; [eauto | discriminate]. Qed.

Ltac inv_bind H :=
  let x := fresh "x" in
  let E := fresh "E" in
  apply bind_Ok in H as (x & E & H).

Lemma owner_is_partial_lt (h : heap) (l : loc) (b : bool) :
  owner_is_partial h l = Ok b -> l < length h.
Proof.
  unfold owner_is_partial. destruct (h !! l) eqn:E; [|discriminate].
  intros _. eapply lookup_lt_Some. exact E.
Qed.

Lemma owner_is_partial_app (h h' : heap) (l : loc) (b : bool) :
  owner_is_partial h l = Ok b -> owner_is_partial (h ++ h') l = Ok b.
Proof.
  intros H. pose proof (owner_is_partial_lt _ _ _ H) as Hlt.
  unfold owner_is_partial in *. now rewrite lookup_app_l.
Qed.

(** A partial owner is never recorded. *)
Lemma set_owner_partial (h : heap) (self owner : loc) :
  owner_is_partial h owner = Ok true -> set_owner self (Some owner) h = Ok h.
Proof. intros H. unfold set_owner. now rewrite H. Qed.

(** Clearing the owner changes nothing. *)
Lemma set_owner_None (h : heap) (self : loc) : set_owner self None h = Ok h.
Proof. reflexivity. Qed.

Lemma IdlAttribute_copy_owner (a fresh : IdlAttribute) :
  IdlAttribute_copy a = Ok fresh -> attr_owner fresh = None.
Proof.
  unfold IdlAttribute_copy. intros H. inv_bind H. now injection H as <-.
Qed.

Lemma IdlOperation_copy_owner (o fresh : IdlOperation) :
  IdlOperation_copy o = Ok fresh -> op_owner fresh = None.
Proof.
  unfold IdlOperation_copy. intros H. do 3 inv_bind H. now injection H as <-.
Qed.

Lemma put_WithAttributes_lookup (h h' : heap) (self l : loc) w :
  put_WithAttributes self w h = Ok h' -> l <> self -> h' !! l = h !! l.
Proof.
  unfold put_WithAttributes. intros H Hne.
  destruct (h !! self) as [[]|]; try discriminate; injection H as <-;
    now apply list_lookup_insert_ne.
Qed.

Lemma put_WithOperations_lookup (h h' : heap) (self l : loc) w :
  put_WithOperations self w h = Ok h' -> l <> self -> h' !! l = h !! l.
Proof.
  unfold put_WithOperations. intros H Hne.
  destruct (h !! self) as [[]|]; try discriminate; injection H as <-;
    now apply list_lookup_insert_ne.
Qed.

Lemma put_WithConstants_lookup (h h' : heap) (self l : loc) w :
  put_WithConstants self w h = Ok h' -> l <> self -> h' !! l = h !! l.
Proof.
  unfold put_WithConstants. intros H Hne.
  destruct (h !! self) as [[]|]; try discriminate; injection H as <-;
    now apply list_lookup_insert_ne.
Qed.

Lemma put_WithConstants_partial (h h' : heap) (self : loc) w b :
  put_WithConstants self w h = Ok h' ->
  owner_is_partial h self = Ok b -> owner_is_partial h' self = Ok b.
Proof.
  unfold put_WithConstants, owner_is_partial. intros H.
  destruct (h !! self) as [[]|] eqn:E; try discriminate; injection H as <-;
    (rewrite list_lookup_insert_eq by (eapply lookup_lt_Some; exact E));
    auto.
Qed.

Lemma owner_of_lookup (h h' : heap) (l : loc) :
  h' !! l = h !! l -> owner_of h' l = owner_of h l.
Proof. unfold owner_of. now intros ->. Qed.

Lemma add_attribute_partial (h h' : heap) (self member stored : loc) :
  owner_is_partial h self = Ok true ->
  add_attribute self member h = Ok (Some stored, h') ->
  stored = length h /\ owner_of h' stored = Ok None.
Proof.
  intros Hp H. unfold add_attribute in H.
  inv_bind H. inv_bind H.
  destruct (_attributes_dict x !! attr_name x0); [discriminate|].
  inv_bind H. unfold alloc in H.
  rewrite (set_owner_partial _ _ _ (owner_is_partial_app _ _ _ _ Hp)) in H.
  simpl in H. inv_bind H. inv_bind H. injection H as <- <-.
  split; [reflexivity|].
  pose proof (owner_is_partial_lt _ _ _ Hp) as Hlt.
  rewrite (owner_of_lookup (h ++ [ObjAttribute x1])).
  - unfold owner_of. rewrite list_lookup_middle by reflexivity.
    now rewrite (IdlAttribute_copy_owner _ _ E1).
  - eapply put_WithAttributes_lookup; [exact E3 | lia].
Qed.

Lemma add_operation_partial (h h' : heap) (self member stored : loc) :
  owner_is_partial h self = Ok true ->
  WithOperations_add_operation self member h = Ok (Some stored, h') ->
  stored = length h /\ owner_of h' stored = Ok None
  /\ exists w, get_WithOperations h' self = Ok w
               /\ last (_operations w) = Some stored.
Proof.
  intros Hp H. unfold WithOperations_add_operation in H.
  inv_bind H. inv_bind H. unfold alloc in H.
  rewrite (set_owner_partial _ _ _ (owner_is_partial_app _ _ _ _ Hp)) in H.
  simpl in H. inv_bind H. destruct x1; [discriminate|].
  inv_bind H.
  destruct (op_is_setter x1 || op_is_getter x1 || op_is_deleter x1);
    [discriminate|].
  inv_bind H. inv_bind H. inv_bind H. injection H as <- <-.
  split; [reflexivity|].
  pose proof (owner_is_partial_lt _ _ _ Hp) as Hlt.
  split.
  - rewrite (owner_of_lookup (h ++ [ObjOperation x0])).
    + unfold owner_of. rewrite list_lookup_middle by reflexivity.
      now rewrite (IdlOperation_copy_owner _ _ E0).
    + eapply put_WithOperations_lookup; [exact E5 | lia].
  - unfold put_WithOperations in E5. unfold get_WithOperations.
    destruct ((h ++ [ObjOperation x0]) !! self) as [[]|] eqn:El;
      try discriminate; injection E5 as <-;
      (rewrite list_lookup_insert_eq by (eapply lookup_lt_Some; exact El));
      simpl; eexists; (split; [reflexivity|]); simpl; apply last_snoc.
Qed.

Lemma get_operation_owner (h : heap) (l : loc) (o : IdlOperation) :
  get_operation h l = Ok o -> owner_of h l = Ok (op_owner o).
Proof.
  unfold get_operation, owner_of.
  destruct (h !! l) as [[]|]; try discriminate. now intros [= ->].
Qed.

Lemma interface_add_operation_partial (h h' : heap) (self member : loc) :
  owner_is_partial h self = Ok true ->
  IdlInterface_add_operation self member h = Ok (true, h') ->
  owner_of h' (length h) = Ok None
  /\ exists w, get_WithOperations h' self = Ok w
               /\ last (_operations w) = Some (length h).
Proof.
  intros Hp H. unfold IdlInterface_add_operation in H.
  inv_bind H. destruct x as [[stored|] h1]; [|discriminate].
  destruct (add_operation_partial _ _ _ _ _ Hp E) as (-> & Hown & w & Hw & Hlast).
  pose proof (owner_is_partial_lt _ _ _ Hp) as Hlt.
  inv_bind H. inv_bind H. inv_bind H. inv_bind H.
  destruct (op_idl_type x2); [|discriminate]. injection H as <-.
  rewrite (get_operation_owner _ _ _ E0) in Hown. injection Hown as Hown.
  assert (Hs : length h < length h1).
  { unfold get_operation in E0.
    destruct (h1 !! length h) eqn:El; [|discriminate].
    eapply lookup_lt_Some. exact El. }
  destruct (op_is_constructor x).
  - destruct (match op_idl_type x with
              | Some t => type_eq t (iface_idl_type x0)
              | None => true
              end); [|discriminate].
    injection E2 as <-. split.
    + unfold owner_of.
      rewrite list_lookup_insert_eq by (now rewrite length_insert).
      simpl. now rewrite Hown.
    + unfold get_WithOperations.
      rewrite list_lookup_insert_ne by lia.
      rewrite list_lookup_insert_eq by lia.
      unfold get_WithOperations, get_interface in *.
      destruct (h1 !! self) as [[]|]; try discriminate.
      injection E1 as <-. injection Hw as <-. simpl. eauto.
  - injection E2 as <-. split; [|eauto].
    now rewrite (get_operation_owner _ _ _ E0), Hown.
Qed.

Lemma add_constant_partial (h h' : heap) (self member : loc) :
  owner_is_partial h self = Ok true ->
  add_constant self member h = Ok h' ->
  owner_of h' member = owner_of h member.
Proof.
  intros Hp H. unfold add_constant in H. inv_bind H. inv_bind H.
  destruct (_constants_dict x !! const_name x0); [now injection H as <-|].
  inv_bind H.
  rewrite (set_owner_partial _ _ _ (put_WithConstants_partial _ _ _ _ _ E1 Hp))
    in H.
  injection H as <-. apply owner_of_lookup.
  eapply put_WithConstants_lookup; [exact E1|].
  intros ->. unfold get_constant, owner_is_partial in *.
  destruct (h !! self) as [[]|]; discriminate.
Qed.

(** C7: a member added to a container whose partial flag is set is not
    given that container as its owner: the stored copy of an attribute or
    of an operation has no owner, and a constant, which is stored as it
    is, keeps the owner it had. *)
Theorem partial_container_is_never_owner (h : heap) (self member : loc) :
  owner_is_partial h self = Ok true ->
  (forall stored h',
      add_attribute self member h = Ok (Some stored, h') ->
      owner_of h' stored = Ok None)
  /\ (forall stored h',
        WithOperations_add_operation self member h = Ok (Some stored, h') ->
        owner_of h' stored = Ok None)
  /\ (forall h',
        IdlInterface_add_operation self member h = Ok (true, h') ->
        owner_of h' (length h) = Ok None
        /\ exists w, get_WithOperations h' self = Ok w
                     /\ last (_operations w) = Some (length h))
  /\ (forall h',
        add_constant self member h = Ok h' ->
        owner_of h' member = owner_of h member).
Proof.
  intros Hp. repeat apply conj.
  - intros stored h' H. now apply (add_attribute_partial _ _ _ _ _ Hp H).
  - intros stored h' H. now apply (add_operation_partial _ _ _ _ _ Hp H).
  - intros h' H. now apply (interface_add_operation_partial _ _ _ _ Hp H).
  - intros h' H. now apply (add_constant_partial _ _ _ _ Hp H).
Qed.

(** C7 (witness): a partial interface [Foo], with an attribute, an
    operation and a constant added to it. *)
Lemma partial_container_is_never_owner_witness :
  let hp :=
    [ObjInterface
       (iface_with_partial true
          (IdlInterface_init "Foo" false false None None None ParentNone
             false));
     ObjAttribute
       (IdlAttribute_init "x" (IdlType "long") false false false false);
     ObjOperation
       (IdlOperation_init "f" (Some (IdlType "long")) [] false false false
          false false false false false);
     ObjConstant (IdlConstant_init "K" (IdlType "long") (PyStr "1"))] in
  owner_is_partial hp 0 = Ok true
  /\ (exists h', add_attribute 0 1 hp = Ok (Some 4, h')
                 /\ owner_of h' 4 = Ok None)
  /\ (exists h', IdlInterface_add_operation 0 2 hp = Ok (true, h')
                 /\ owner_of h' 4 = Ok None)
  /\ (exists h', add_constant 0 3 hp = Ok h' /\ owner_of h' 3 = Ok None).
Proof.
  intros hp.
  assert (Hp : owner_is_partial hp 0 = Ok true) by reflexivity.
  split; [exact Hp|]. repeat apply conj.
  - destruct (add_attribute 0 1 hp) as [[r h']|] eqn:E; [|discriminate E].
    assert (Hr : r = Some 4) by (vm_compute in E; congruence). subst r.
    exists h'. split; [reflexivity|].
    exact (proj1 (partial_container_is_never_owner hp 0 1 Hp) 4 h' E).
  - destruct (IdlInterface_add_operation 0 2 hp) as [[r h']|] eqn:E;
      [|discriminate E].
    assert (Hr : r = true) by (vm_compute in E; congruence). subst r.
    exists h'. split; [reflexivity|].
    exact (proj1 (proj1 (proj2 (proj2
             (partial_container_is_never_owner hp 0 2 Hp))) h' E)).
  - destruct (add_constant 0 3 hp) as [h'|] eqn:E; [|discriminate E].
    exists h'. split; [reflexivity|].
    rewrite (proj2 (proj2 (proj2
               (partial_container_is_never_owner hp 0 3 Hp))) h' E).
    reflexivity.
Defined.

Lemma set_owner_lookup (h h' : heap) (self l : loc) (owner : option loc) :
  set_owner self owner h = Ok h' -> l <> self -> h' !! l = h !! l.
Proof.
  unfold set_owner. intros H Hne. destruct owner as [o|]; [|now injection H as <-].
  inv_bind H. destruct x; [now injection H as <-|].
  destruct (h !! self) as [[]|]; try discriminate; injection H as <-;
    now apply list_lookup_insert_ne.
Qed.

(** An attribute is stored as a new object; the caller's object is left as
    it was. *)
Lemma add_attribute_copies (h h' : heap) (self member stored : loc) :
  add_attribute self member h = Ok (Some stored, h') ->
  stored = length h /\ stored <> member /\ h' !! member = h !! member.
Proof.
  intros H. unfold add_attribute in H. inv_bind H. inv_bind H.
  destruct (_attributes_dict x !! attr_name x0); [discriminate|].
  inv_bind H. unfold alloc in H. inv_bind H. inv_bind H. inv_bind H.
  injection H as <- <-.
  assert (Hm : member < length h).
  { unfold get_attribute in E0. destruct (h !! member) eqn:El; [|discriminate].
    eapply lookup_lt_Some. exact El. }
  assert (Hs : member <> self).
  { intros ->. unfold get_attribute, get_WithAttributes in *.
    destruct (h !! self) as [[]|]; discriminate. }
  split; [reflexivity|]. split; [lia|].
  rewrite (put_WithAttributes_lookup _ _ _ _ _ E4 Hs).
  rewrite (set_owner_lookup _ _ _ member _ E2) by lia.
  now apply lookup_app_l.
Qed.

(** Removing an attribute leaves the owner of every object as it was. *)
Lemma remove_attribute_owner_unchanged (h h' : heap) (self : loc)
    (attribute : string + loc) (r : option loc) :
  remove_attribute self attribute h = Ok (r, h') ->
  forall l, owner_of h' l = owner_of h l.
Proof.
  intros H l. unfold remove_attribute in H. inv_bind H. inv_bind H.
  destruct (_attributes_dict x !! x0); [|now injection H as _ <-].
  do 6 inv_bind H. rewrite set_owner_None in H. injection H as _ <-.
  destruct (Nat.eq_dec l self) as [-> | Hne].
  - unfold put_WithAttributes in E6. unfold owner_of.
    destruct (h !! self) as [[]|] eqn:El; try discriminate;
      injection E6 as <-;
      now rewrite list_lookup_insert_eq by (eapply lookup_lt_Some; exact El).
  - apply owner_of_lookup. eapply put_WithAttributes_lookup; eauto.
Qed.

(** A constant added to a container that is not partial is stored as the
    caller's object, which gets the container as its owner; no object is
    created. *)
Lemma add_constant_aliases (h h' : heap) (self member : loc)
    (w : WithConstants) (c : IdlConstant) :
  owner_is_partial h self = Ok false ->
  get_WithConstants h self = Ok w ->
  get_constant h member = Ok c ->
  _constants_dict w !! const_name c = None ->
  add_constant self member h = Ok h' ->
  length h' = length h
  /\ owner_of h' member = Ok (Some self)
  /\ bind (get_WithConstants h' self) (fun w' => Ok (constants w'))
     = Ok (constants w ++ [member]).
Proof.
  intros Hp Hw Hc Hnone H. unfold add_constant in H.
  rewrite Hw, Hc in H. simpl in H. rewrite Hnone in H. inv_bind H.
  assert (Hne : member <> self).
  { intros ->. unfold get_constant, get_WithConstants in *.
    destruct (h !! self) as [[]|]; discriminate. }
  assert (Hm : member < length h).
  { unfold get_constant in Hc. destruct (h !! member) eqn:El; [|discriminate].
    eapply lookup_lt_Some. exact El. }
  assert (Hlen : length x = length h).
  { unfold put_WithConstants in E.
    destruct (h !! self) as [[]|]; try discriminate; injection E as <-;
      apply length_insert. }
  unfold set_owner in H.
  rewrite (put_WithConstants_partial _ _ _ _ _ E Hp) in H. simpl in H.
  rewrite (put_WithConstants_lookup _ _ _ member _ E Hne) in H.
  unfold get_constant in Hc.
  destruct (h !! member) as [[]|]; try discriminate.
  injection Hc as ->. injection H as <-.
  split; [now rewrite length_insert|]. split.
  - unfold owner_of. now rewrite list_lookup_insert_eq by lia.
  - unfold get_WithConstants. rewrite list_lookup_insert_ne by exact Hne.
    unfold put_WithConstants in E. unfold get_WithConstants in Hw.
    destruct (h !! self) as [[]|] eqn:El; try discriminate; injection E as <-;
      (rewrite list_lookup_insert_eq by (eapply lookup_lt_Some; exact El));
      reflexivity.
Qed.

(** C5 (what the code does): a constant added to the interface [Foo] is
    stored as the caller's object: no object is created, the list and the
    name index of the interface hold the caller's reference, and the owner
    of the caller's object changes from [None] to the interface; an
    attribute added the same way is stored as a new object. *)
Theorem add_constant_stores_caller_instance :
  let h0 :=
    [ObjInterface
       (IdlInterface_init "Foo" false false None None None ParentNone false);
     ObjConstant (IdlConstant_init "K" (IdlType "long") (PyStr "1"));
     ObjAttribute
       (IdlAttribute_init "x" (IdlType "long") false false false false)] in
  (exists h1,
      add_constant 0 1 h0 = Ok h1
      /\ length h1 = length h0
      /\ bind (get_WithConstants h1 0) (fun w => Ok (constants w)) = Ok [1]
      /\ constant h1 0 "K" = Ok (Some 1)
      /\ owner_of h0 1 = Ok None
      /\ owner_of h1 1 = Ok (Some 0))
  /\ (exists h1,
        add_attribute 0 2 h0 = Ok (Some 3, h1)
        /\ length h1 = S (length h0)
        /\ attributes h1 0 = Ok [3]
        /\ h1 !! 2 = h0 !! 2
        /\ owner_of h1 3 = Ok (Some 0)).
Proof.
  intros h0. split.
  - destruct (add_constant 0 1 h0) as [h1|] eqn:E; [|discriminate E].
    exists h1. split; [reflexivity|].
    vm_compute in E. injection E as <-. repeat split.
  - destruct (add_attribute 0 2 h0) as [[r h1]|] eqn:E; [|discriminate E].
    vm_compute in E. injection E as <- <-. eexists. split; [reflexivity|].
    repeat split.
Qed.

(** C6 (what the code does): an attribute [x] is added to the interface
    [Foo] and removed by name; the removal empties the ordered list, the
    name index, the type index and the partition, and the removed
    attribute still has the interface as its owner. *)
Theorem remove_attribute_keeps_owner_link :
  let h0 :=
    [ObjInterface
       (IdlInterface_init "Foo" false false None None None ParentNone false);
     ObjAttribute
       (IdlAttribute_init "x" (IdlType "long") false false false false)] in
  exists h1 h2,
    add_attribute 0 1 h0 = Ok (Some 2, h1)
    /\ owner_of h1 2 = Ok (Some 0)
    /\ remove_attribute 0 (inl "x") h1 = Ok (Some 2, h2)
    /\ attributes h2 0 = Ok []
    /\ attribute h2 0 "x" = Ok None
    /\ find_attributes h2 0 "Long" = Ok []
    /\ bind (get_WithAttributes h2 0) (fun w => Ok (mutable_attributes w))
       = Ok []
    /\ owner_of h2 2 = Ok (Some 0)
    /\ remove_attribute 0 (inl "y") h1 = Ok (None, h1).
Proof.
  intros h0.
  destruct (add_attribute 0 1 h0) as [[r h1]|] eqn:E1; [|discriminate E1].
  vm_compute in E1. injection E1 as <- <-.
  eexists. eexists. split; [reflexivity|]. split; [reflexivity|].
  split; [vm_compute; reflexivity|]. repeat split.
Qed.

End OwnershipFacts.

(** ** More of the type algebra *)

Section TypeExtras.
Import Types Definitions.

Lemma type_eq_trans t :
  forall u v, type_eq t u = true -> type_eq u v = true -> type_eq t v = true.
Proof.
  induction t using IdlTypeBase_nested_ind; intros u v Htu Huv;
    pose proof (type_eq_same_class _ _ Htu) as C1;
    pose proof (type_eq_same_class _ _ Huv) as C2;
    destruct u; simpl in C1; try discriminate;
    destruct v; simpl in C2; try discriminate;
    cbn [type_eq] in *;
    rewrite ?String.eqb_eq, ?andb_true_iff, ?bool_decide_eq_true in *;
    try congruence.
  - destruct Htu, Huv. split; eauto.
  - eauto.
  - destruct Htu, Huv. split; [eauto | congruence].
Qed.

(** X1: equality of type values is reflexive, symmetric and transitive. *)
Theorem type_eq_equivalence :
  (forall t, type_eq t t = true)
  /\ (forall t u, type_eq t u = type_eq u t)
  /\ (forall t u v,
        type_eq t u = true -> type_eq u v = true -> type_eq t v = true).
Proof.
  split; [exact type_eq_refl|]. split; [exact type_eq_sym|].
  exact type_eq_trans.
Qed.

(** X2: between two values of one class, [!=] is the negation of [==];
    between values of different classes, a named type and a nullable type
    answer false to [!=] as they do to [==], a record raises
    [AttributeError], and the other classes answer true. *)
Theorem type_ne_vs_type_eq (t u : IdlTypeBase) :
  (same_class t u = true ->
   type_ne (Some t) (Some u) = Ok (negb (type_eq t u)))
  /\ (same_class t u = false ->
      type_eq t u = false
      /\ type_ne (Some t) (Some u)
         = match t with
           | IdlType _ | IdlNullableType _ => Ok false
           | IdlRecordType _ _ => Raise AttributeError
           | _ => Ok true
           end).
Proof.
  split; intros Hc.
  - destruct t, u; simpl in Hc; try discriminate; reflexivity.
  - destruct t, u; simpl in Hc; try discriminate; split; reflexivity.
Qed.

Lemma str_in_In (s : string) (l : list string) :
  str_in s l = true <-> In s l.
Proof.
  unfold str_in. rewrite existsb_exists. split.
  - intros (x & Hx & He). apply String.eqb_eq in He. now subst.
  - intros H. exists s. split; [exact H | apply String.eqb_refl].
Qed.

Ltac split_eqb b :=
  repeat match goal with
         | |- context [String.eqb b ?c] =>
             destruct (String.eqb_spec b c) as [-> | ?]; simpl
         end.

Lemma named_not_DOMString (b : string) : name (IdlType b) <> "DOMString".
Proof.
  cbn [name]. unfold TYPE_NAMES. simpl. split_eqb b;
    try discriminate; congruence.
Qed.

(** No type value has the canonical name [DOMString]. *)
Lemma name_not_DOMString (t : IdlTypeBase) : name t <> "DOMString".
Proof.
  induction t using IdlTypeBase_nested_ind;
    try (cbn [name]; simpl; discriminate); try assumption.
  apply named_not_DOMString.
Qed.

Lemma whitelist_check (e : gmap string string) :
  existsb
    (fun key => negb (str_in key EXTENDED_ATTRIBUTES_APPLICABLE_TO_TYPES))
    (List.map fst (map_to_list e)) = false
  <-> forall k, is_Some (e !! k) ->
                In k EXTENDED_ATTRIBUTES_APPLICABLE_TO_TYPES.
Proof.
  rewrite <- not_true_iff_false, existsb_exists. split.
  - intros Hn k [v Hv]. apply str_in_In.
    destruct (str_in k EXTENDED_ATTRIBUTES_APPLICABLE_TO_TYPES) eqn:E;
      [reflexivity|].
    exfalso. apply Hn. exists k. split; [|now rewrite E].
    apply in_map_iff. exists (k, v). split; [reflexivity|].
    apply list_elem_of_In. now apply elem_of_map_to_list.
  - intros H (k & Hin & Hk). apply in_map_iff in Hin as ([k' v] & <- & Hin).
    apply list_elem_of_In, elem_of_map_to_list in Hin. cbn [fst] in Hk.
    assert (Hw : str_in k' EXTENDED_ATTRIBUTES_APPLICABLE_TO_TYPES = true)
      by (apply str_in_In, H; eauto).
    now rewrite Hw in Hk.
Qed.

(** X3: an annotated type is built exactly when every attribute key is in
    the list of attributes applicable to types and, if [StringContext] is
    among them, the inner type has the canonical name [USVString]; over an
    inner type named [String], as [DOMString] is, [StringContext] is
    always refused. *)
Theorem annotated_construction (n : IdlTypeBase) (e : gmap string string) :
  is_ok (IdlAnnotatedType_init n e) = true
  <-> (forall k, is_Some (e !! k) ->
                 In k EXTENDED_ATTRIBUTES_APPLICABLE_TO_TYPES)
      /\ (is_Some (e !! "StringContext") -> name n = "USVString").
Proof.
  unfold IdlAnnotatedType_init.
  destruct (existsb _ _) eqn:Hw.
  - split; [discriminate|]. intros [H _].
    pose proof (proj2 (whitelist_check e) H). congruence.
  - pose proof (proj1 (whitelist_check e) Hw) as Hw'.
    assert (Hs : str_in (name n) ["DOMString"; "USVString"] = true
                 <-> name n = "USVString").
    { rewrite str_in_In. pose proof (name_not_DOMString n) as Hd.
      split; [intros [H | [H | []]]; congruence | intros ->; right; now left]. }
    destruct (bool_decide (is_Some (e !! "StringContext"))) eqn:Hb;
      destruct (str_in (name n) ["DOMString"; "USVString"]) eqn:Hi;
      cbn [andb negb is_ok];
      rewrite ?bool_decide_eq_true, ?bool_decide_eq_false in Hb.
    + split; [|reflexivity]. intros _. split; [exact Hw'|].
      intros _. now apply Hs.
    + split; [discriminate|]. intros [_ H]. apply H, Hs in Hb. discriminate.
    + split; [|reflexivity]. intros _. split; [exact Hw' | contradiction].
    + split; [|reflexivity]. intros _. split; [exact Hw' | contradiction].
Qed.

Lemma sort_by_name_sorted_id (l : list IdlTypeBase) :
  Sorted str_le (List.map name l) -> sort_by_name l = l.
Proof.
  induction l as [|x l IH]; simpl; [reflexivity|]. intros Hs.
  apply Sorted_inv in Hs as [Hs Hhd]. rewrite (IH Hs).
  destruct l as [|y l]; simpl; [reflexivity|].
  inversion Hhd as [|? ? Hxy]; subst. unfold str_le in Hxy. now rewrite Hxy.
Qed.

(** X4: the members of a constructed union are the members the set
    yielded, sorted by canonical name; there is at least one; and sorting
    them again changes nothing. *)
Theorem union_members_sorted
    (list_of_set : list IdlTypeBase -> list IdlTypeBase)
    (l : list IdlTypeBase) (u : IdlTypeBase) :
  IdlUnionType_init list_of_set l = Ok u ->
  Sorted str_le (member_names u)
  /\ Permutation (get_types u) (list_of_set l)
  /\ get_types u <> []
  /\ sort_by_name (get_types u) = get_types u
  /\ get_nested_type u = None.
Proof.
  unfold IdlUnionType_init. destruct (list_of_set l) as [|a A] eqn:E;
    [discriminate|]. intros [= <-]. unfold member_names. cbn [get_types].
  pose proof (sort_by_name_sorted (a :: A)) as Hs.
  pose proof (sort_by_name_perm (a :: A)) as Hp.
  repeat apply conj.
  - exact Hs.
  - exact Hp.
  - intros Hn. simpl in Hp. rewrite Hn in Hp. apply Permutation_nil in Hp.
    discriminate.
  - now apply sort_by_name_sorted_id.
  - reflexivity.
Qed.

(** X4 (witness): the union of [long] and [DOMString], the set yielding
    its elements in reverse. *)
Lemma union_members_sorted_witness :
  member_names
    (IdlUnionType (sort_by_name [IdlType "DOMString"; IdlType "long"]))
  = ["Long"; "String"]
  /\ Sorted str_le
       (member_names
          (IdlUnionType (sort_by_name [IdlType "DOMString"; IdlType "long"]))).
Proof.
  split; [reflexivity|].
  exact (proj1 (union_members_sorted (@List.rev _)
                  [IdlType "long"; IdlType "DOMString"] _ eq_refl)).
Defined.

Lemma has_type_members (t : IdlTypeBase) (n : string) :
  has_type t n
  = existsb
      (fun m => if is_nested_type m then has_type m n
                else String.eqb (name m) n) (get_types t).
Proof. destruct t; simpl; rewrite ?orb_false_r; reflexivity. Qed.

Lemma has_type_leaf_of (t : IdlTypeBase) :
  forall n, has_type t n = true -> exists x, leaf_of t x /\ name x = n.
Proof.
  induction t as [| n0 IH | ms IH | n0 IH | n0 IH | n0 IH | | n0 IH | n0 ? IH]
    using IdlTypeBase_nested_ind; intros n H; try discriminate.
  2: { cbn [has_type] in H. apply existsb_exists in H as (m & Hin & Hm).
       rewrite List.Forall_forall in IH.
       destruct (is_nested_type m) eqn:Hn.
       - destruct (IH m Hin n Hm) as (x & Hx & <-).
         exists x. split; [|reflexivity]. eapply leaf_deeper; eauto.
       - apply String.eqb_eq in Hm. exists m. split; [|exact Hm].
         now apply leaf_member. }
  all: cbn [has_type] in H; destruct (is_nested_type n0) eqn:Hn;
    [ destruct (IH n H) as (x & Hx & <-); exists x; split; [|reflexivity];
      eapply (leaf_deeper _ n0); [now left | exact Hn | exact Hx]
    | apply String.eqb_eq in H; exists n0; split; [|exact H];
      apply leaf_member; [now left | exact Hn] ].
Qed.

(** X5: a nested type has a type name exactly when one of the values
    reached through its members, and through the members of its nested
    members, is not itself nested and has that canonical name. *)
Theorem has_type_leaf (t : IdlTypeBase) (n : string) :
  has_type t n = true <-> exists x, leaf_of t x /\ name x = n.
Proof.
  split; [apply has_type_leaf_of|].
  intros (x & Hx & <-). induction Hx as [t m Hin Hn | t m x Hin Hn _ IH];
    rewrite has_type_members; apply existsb_exists; exists m;
    (split; [exact Hin|]); rewrite Hn; [apply String.eqb_refl | exact IH].
Qed.

Lemma str_in_app (s : string) (l1 l2 : list string) :
  str_in s (l1 ++ l2) = str_in s l1 || str_in s l2.
Proof. unfold str_in. apply existsb_app. Qed.

(** X6: every integer or floating type is numeric and numeric is exactly
    integer or floating; no type is both integer and floating; primitive is
    exactly [boolean] or numeric; every primitive type is basic; [void] is
    basic and not primitive; and the string types are the base types
    [DOMString], [String], [ByteString] and [USVString]. *)
Theorem classification_hierarchy (b : string) :
  is_numeric_type b = is_integer_type b || is_floating_type b
  /\ is_integer_type b && is_floating_type b = false
  /\ is_primitive_type b = String.eqb b "boolean" || is_numeric_type b
  /\ (is_primitive_type b = true -> is_basic_type b = true)
  /\ (is_void b = true ->
      is_basic_type b = true /\ is_primitive_type b = false)
  /\ is_string_type b
     = str_in b ["DOMString"; "String"; "ByteString"; "USVString"].
Proof.
  unfold is_numeric_type, is_primitive_type, is_basic_type, is_void,
    BASIC_TYPES, PRIMITIVE_TYPES, NUMERIC_TYPES.
  rewrite !str_in_app. repeat apply conj.
  - reflexivity.
  - unfold is_integer_type, is_floating_type, str_in. simpl.
    split_eqb b; try reflexivity; congruence.
  - unfold str_in at 1. simpl. now rewrite orb_false_r.
  - intros ->. reflexivity.
  - intros H. apply String.eqb_eq in H. subst. split; reflexivity.
  - unfold is_string_type, str_in. cbn [name]. unfold TYPE_NAMES. simpl.
    split_eqb b; try reflexivity; congruence.
Qed.

(** X7: two equal type values have the same hash when the hash of the
    first is not taken through the element of a sequence or of a frozen
    array; two sequences whose elements have the same name are equal, and
    the hash of a sequence is the hash of its element, so equal sequences
    over [DOMString] and over a type named [String] hash as those two
    strings do. *)
Theorem hash_consistent_with_eq
    (hash_str : string -> Z) (hash_pair : Z -> Z -> Z) :
  (forall t u,
      hashed_by_name t = true -> type_eq t u = true ->
      py_hash hash_str hash_pair t = py_hash hash_str hash_pair u)
  /\ (forall e e',
        name e = name e' ->
        type_eq (IdlSequenceType e) (IdlSequenceType e') = true
        /\ py_hash hash_str hash_pair (IdlSequenceType e)
           = py_hash hash_str hash_pair e
        /\ py_hash hash_str hash_pair (IdlSequenceType e')
           = py_hash hash_str hash_pair e')
  /\ type_eq (IdlSequenceType (IdlType "DOMString"))
       (IdlSequenceType (IdlType "String")) = true
  /\ py_hash hash_str hash_pair (IdlSequenceType (IdlType "DOMString"))
     = hash_str "DOMString"
  /\ py_hash hash_str hash_pair (IdlSequenceType (IdlType "String"))
     = hash_str "String".
Proof.
  split; [|repeat split].
  - induction t using IdlTypeBase_nested_ind; intros u Hh He;
      pose proof (type_eq_same_class _ _ He) as Hc;
      pose proof (type_eq_name _ _ He) as Hn;
      destruct u; simpl in Hc; try discriminate; simpl in Hh;
      try discriminate; cbn [py_hash]; try (now rewrite Hn).
    + cbn [type_eq] in He. apply String.eqb_eq in He. now subst.
    + cbn [type_eq] in He. apply andb_true_iff in He as [Hk Hv].
      now rewrite (type_eq_name _ _ Hk), (type_eq_name _ _ Hv).
    + cbn [type_eq] in He. now apply IHt.
  - cbn [type_eq name]. rewrite H. apply String.eqb_refl.
Qed.

End TypeExtras.

(** ** More of the extended-attribute store *)

Section StoreExtras.
Import ExtAttrs.
Context {A : Type}.
Implicit Types w : WithExtendedAttributes A.

(** X8: an identifier flag, an identifier pair and a number that were
    added are gone after their removal, the other keys of the bucket are
    as before, and removing a key that is absent changes nothing.  For
    the flags: removing a flag, set or not, leaves it unset and every
    other flag as it was, and adding one sets it and leaves every other
    flag as it was. *)
Theorem extattr_remove_after_add w (key : string) :
  extattr_has_identifier
    (extattr_remove_identifier key (extattr_add_identifier key w)) key = false
  /\ (forall k, k <> key ->
        extattr_has_identifier
          (extattr_remove_identifier key (extattr_add_identifier key w)) k
        = extattr_has_identifier w k)
  /\ extattr_has_identifier (extattr_remove_identifier key w) key = false
  /\ (forall k, k <> key ->
        extattr_has_identifier (extattr_remove_identifier key w) k
        = extattr_has_identifier w k)
  /\ extattr_has_identifier (extattr_add_identifier key w) key = true
  /\ (forall k, k <> key ->
        extattr_has_identifier (extattr_add_identifier key w) k
        = extattr_has_identifier w k)
  /\ (forall v, exists w',
        extattr_remove_identifier_pair key (extattr_add_identifier_pair key v w)
        = Ok w'
        /\ extattr_get_identifier_value w' key = None
        /\ forall k, k <> key ->
             extattr_get_identifier_value w' k
             = extattr_get_identifier_value w k)
  /\ (forall v, exists w',
        extattr_remove_number key (extattr_add_number key v w) = Ok w'
        /\ extattr_get_number w' key = None
        /\ forall k, k <> key -> extattr_get_number w' k = extattr_get_number w k)
  /\ (extattr_has_identifier w key = false ->
      extattr_remove_identifier key w = w)
  /\ (extattr_get_identifier_value w key = None ->
      extattr_remove_identifier_pair key w = Ok w)
  /\ (extattr_get_number w key = None -> extattr_remove_number key w = Ok w).
Proof.
  assert (Hin : bool_decide (key ∈ {[key]} ∪ _identifiers w) = true)
    by (apply bool_decide_eq_true; set_solver).
  repeat apply conj.
  - unfold extattr_remove_identifier, extattr_has_identifier,
      extattr_add_identifier. simpl. rewrite Hin. simpl.
    apply bool_decide_eq_false. set_solver.
  - intros k Hk.
    unfold extattr_remove_identifier, extattr_has_identifier,
      extattr_add_identifier. simpl. rewrite Hin. simpl.
    apply bool_decide_ext. set_solver.
  - unfold extattr_remove_identifier, extattr_has_identifier.
    destruct (bool_decide (key ∈ _identifiers w)) eqn:E; simpl.
    + apply bool_decide_eq_false. set_solver.
    + exact E.
  - intros k Hk. unfold extattr_remove_identifier, extattr_has_identifier.
    destruct (bool_decide (key ∈ _identifiers w)); simpl; [|reflexivity].
    apply bool_decide_ext. set_solver.
  - unfold extattr_has_identifier, extattr_add_identifier. simpl. exact Hin.
  - intros k Hk. unfold extattr_has_identifier, extattr_add_identifier. simpl.
    apply bool_decide_ext. set_solver.
  - intros v. unfold extattr_remove_identifier_pair,
      extattr_get_identifier_value, extattr_add_identifier_pair, dict_pop.
    simpl. rewrite lookup_insert_eq. eexists. split; [reflexivity|]. simpl.
    split; [apply lookup_delete_eq|]. intros k Hk.
    rewrite lookup_delete_ne by congruence. now apply lookup_insert_ne.
  - intros v. unfold extattr_remove_number, extattr_get_number,
      extattr_add_number, dict_pop.
    simpl. rewrite lookup_insert_eq. eexists. split; [reflexivity|]. simpl.
    split; [apply lookup_delete_eq|]. intros k Hk.
    rewrite lookup_delete_ne by congruence. now apply lookup_insert_ne.
  - unfold extattr_remove_identifier. now intros ->.
  - unfold extattr_remove_identifier_pair. now intros ->.
  - unfold extattr_remove_number. now intros ->.
Qed.

(** X9: the getters of positional arguments and of identifier lists give
    the empty list for an absent key, yet removing that key raises
    [KeyError]; after an add the removal succeeds and the getter gives the
    empty list again. *)
Theorem extattr_remove_absent_raises w (key : string) :
  (_extattr_arguments w !! key = None ->
   extattr_get_arguments w key = []
   /\ extattr_remove_arguments key w = Raise KeyError)
  /\ (_identifier_lists w !! key = None ->
      extattr_get_identifier_list w key = []
      /\ extattr_remove_identifier_list key w = Raise KeyError)
  /\ (forall v, exists w',
        extattr_remove_arguments key (extattr_add_arguments key v w) = Ok w'
        /\ extattr_get_arguments w' key = []
        /\ _extattr_arguments w' !! key = None)
  /\ (forall v, exists w',
        extattr_remove_identifier_list key
          (extattr_add_identifier_list key v w) = Ok w'
        /\ extattr_get_identifier_list w' key = []
        /\ _identifier_lists w' !! key = None).
Proof.
  unfold extattr_get_arguments, extattr_remove_arguments,
    extattr_get_identifier_list, extattr_remove_identifier_list, dict_pop,
    extattr_add_arguments, extattr_add_identifier_list.
  repeat apply conj.
  - intros ->. split; reflexivity.
  - intros ->. split; reflexivity.
  - intros v. simpl. rewrite lookup_insert_eq. eexists.
    split; [reflexivity|]. simpl. rewrite lookup_delete_eq. split; reflexivity.
  - intros v. simpl. rewrite lookup_insert_eq. eexists.
    split; [reflexivity|]. simpl. rewrite lookup_delete_eq. split; reflexivity.
Qed.

(** X10: removing a string literal or named arguments never changes the
    store, so a value that was added stays in its bucket; removing a
    string-literal list leaves a key that holds the empty list and deletes
    a key that holds a list with elements. *)
Theorem extattr_remove_keeps w (key : string) :
  extattr_remove_string_literal key w = Ok w
  /\ extattr_remove_named_arguments key w = Ok w
  /\ (forall v q, exists w',
        extattr_remove_string_literal key
          (extattr_add_string_literal key v q w) = Ok w'
        /\ _string_literals w' !! key = Some (if q then quoted v else v))
  /\ (forall n v, exists w',
        extattr_remove_named_arguments key
          (extattr_add_named_arguments key n v w) = Ok w'
        /\ _named_arguments w' !! key = Some (n, v))
  /\ (exists w',
        extattr_remove_string_literal_list key
          (extattr_add_string_literal_list key [] w) = Ok w'
        /\ _string_literal_lists w' !! key = Some [])
  /\ (forall s l, exists w',
        extattr_remove_string_literal_list key
          (extattr_add_string_literal_list key (s :: l) w) = Ok w'
        /\ _string_literal_lists w' !! key = None).
Proof.
  unfold extattr_remove_string_literal, extattr_remove_named_arguments,
    extattr_get_string_literal, extattr_get_named_arguments,
    extattr_remove_string_literal_list, extattr_get_string_literal_list,
    extattr_add_string_literal, extattr_add_named_arguments,
    extattr_add_string_literal_list, dict_pop.
  repeat apply conj; try reflexivity.
  - intros v q. eexists. split; [reflexivity|]. simpl. apply lookup_insert_eq.
  - intros n v. eexists. split; [reflexivity|]. simpl. apply lookup_insert_eq.
  - simpl. rewrite lookup_insert_eq. simpl. eexists. split; [reflexivity|].
    simpl. apply lookup_insert_eq.
  - intros s l. simpl. rewrite lookup_insert_eq. simpl. eexists.
    split; [reflexivity|]. simpl. apply lookup_delete_eq.
Qed.

Lemma process_entry_ok (k : string) (v : raw_value A) w :
  is_ok (process_entry k v w) = classifiable v.
Proof.
  destruct v as [[|a l] | [|s l] | | b | s | [|[n args] [|p d]] |]; simpl;
    try reflexivity; now destruct (starts_with_quote s).
Qed.

Lemma process_extended_attributes_ok (attrs : list (string * raw_value A)) :
  forall w,
    is_ok (process_extended_attributes attrs w)
    = forallb (fun kv => classifiable (snd kv)) attrs.
Proof.
  induction attrs as [|[k v] attrs IH]; intros w; simpl; [reflexivity|].
  rewrite <- (process_entry_ok k v w).
  destruct (process_entry k v w); simpl; [apply IH | reflexivity].
Qed.

(** X11: setting the raw extended attributes succeeds exactly when every
    entry has a known shape: a list, a boolean, a string, or a mapping with
    exactly one key; when it fails the error is the assertion error of a
    mapping or the type error of an unknown shape.  A list is accepted
    whatever it holds: an empty list, and a list whose first element is
    neither an argument nor a string, are recorded in the raw mapping and
    fill no bucket. *)
Theorem set_extended_attributes_ok (attrs : list (string * raw_value A)) w :
  is_ok (set_extended_attributes attrs w)
  = forallb (fun kv => classifiable (snd kv)) attrs
  /\ (forall e,
        set_extended_attributes attrs w = Raise e ->
        e = AssertionError \/ exists msg, e = TypeError msg)
  /\ (forall k v,
        v = RawOtherList \/ v = RawArguments [] \/ v = RawStrings [] ->
        set_extended_attributes [(k, v)] w = Ok (with_raw [(k, v)] w)).
Proof.
  split; [apply process_extended_attributes_ok|].
  split; [|now intros k v [-> | [-> | ->]]].
  unfold set_extended_attributes. generalize (with_raw attrs w).
  induction attrs as [|[k v] attrs IH]; intros w0 e H; simpl in H;
    [discriminate|].
  destruct (process_entry k v w0) as [w1|e1] eqn:E; simpl in H; [eauto|].
  injection H as <-.
  destruct v as [[|a l] | [|s l] | | b | s | [|[n args] [|p d]] |];
    simpl in E; try discriminate;
    try (destruct (starts_with_quote s); discriminate);
    injection E as <-; eauto.
Qed.

Lemma process_entry_effect (k : string) (v : raw_value A) w w' :
  process_entry k v w = Ok w' ->
  _extended_attributes w' = _extended_attributes w
  /\ _numbers w' = _numbers w
  /\ _identifiers w ⊆ _identifiers w'
  /\ (forall b, v = RawBool b -> k ∈ _identifiers w').
Proof.
  destruct v as [[|a l] | [|s l] | | b | s | [|[n args] [|p d]] |]; simpl;
    try discriminate;
    try (destruct (starts_with_quote s));
    intros [= <-]; simpl; repeat split; try set_solver; try discriminate.
Qed.

Lemma process_extended_attributes_effect
    (attrs : list (string * raw_value A)) :
  forall w w',
    process_extended_attributes attrs w = Ok w' ->
    _extended_attributes w' = _extended_attributes w
    /\ _numbers w' = _numbers w
    /\ _identifiers w ⊆ _identifiers w'
    /\ (forall k b, In (k, RawBool b) attrs -> k ∈ _identifiers w').
Proof.
  induction attrs as [|[k v] attrs IH]; intros w w' H; simpl in H.
  - injection H as <-. repeat split; try set_solver.
  - destruct (process_entry k v w) as [w1|] eqn:E; [|discriminate].
    simpl in H. destruct (process_entry_effect _ _ _ _ E) as (R1 & N1 & I1 & B1).
    destruct (IH _ _ H) as (R2 & N2 & I2 & B2).
    split; [congruence|]. split; [congruence|]. split; [set_solver|].
    intros k' b [[= -> ->] | Hin]; [|eauto].
    apply I2. eapply B1. reflexivity.
Qed.

(** X12: when setting the raw extended attributes succeeds, the raw
    mapping is recorded as given, every key given with a boolean is an
    identifier flag, the flags set before are still set, and the number
    bucket is untouched. *)
Theorem set_extended_attributes_effect
    (attrs : list (string * raw_value A)) w w' :
  set_extended_attributes attrs w = Ok w' ->
  _extended_attributes w' = attrs
  /\ _numbers w' = _numbers w
  /\ (forall k b, In (k, RawBool b) attrs ->
                  extattr_has_identifier w' k = true)
  /\ (forall k, extattr_has_identifier w k = true ->
                extattr_has_identifier w' k = true).
Proof.
  unfold set_extended_attributes. intros H.
  destruct (process_extended_attributes_effect _ _ _ H) as (R & N & I & B).
  unfold extattr_has_identifier. repeat split; try assumption.
  - intros k b Hin. apply bool_decide_eq_true. eauto.
  - intros k Hk. apply bool_decide_eq_true. apply bool_decide_eq_true in Hk.
    simpl in I. set_solver.
Qed.

End StoreExtras.

Section StoreExtrasExample.
Import ExtAttrs Definitions.

(** X12 (witness): a flag [Replaceable] and the pair [PutForwards=x]. *)
Lemma set_extended_attributes_effect_witness :
  exists w' : WithExtendedAttributes IdlArgument,
    set_extended_attributes
      [("Replaceable", RawBool true); ("PutForwards", RawStr "x")] init
    = Ok w'
    /\ extattr_has_identifier w' "Replaceable" = true
    /\ _numbers w' = ∅.
Proof.
  eexists. split; [reflexivity|].
  match goal with
  | |- extattr_has_identifier ?w _ = _ /\ _ =>
      pose proof (set_extended_attributes_effect
                    [("Replaceable", RawBool true); ("PutForwards", RawStr "x")]
                    init w eq_refl) as (_ & N & B & _)
  end.
  split; [apply (B "Replaceable" true); now left | exact N].
Defined.

End StoreExtrasExample.

(** ** More of the entities and containers *)

Section ContainerExtras.
Import Types ExtAttrs Definitions.

Ltac inv_bind H :=
  let x := fresh "x" in
  let E := fresh "E" in
  apply bind_Ok in H as (x & E & H).

Tactic Notation "inv_bind_as" hyp(H) ident(x) ident(E) :=
  apply bind_Ok in H as (x & E & H).

Lemma lookup_lt_length (h : heap) (l : loc) (o : object) :
  h !! l = Some o -> l < length h.
Proof. intros H. eapply lookup_lt_Some. exact H. Qed.

Lemma get_attribute_lookup (h : heap) (l : loc) (a : IdlAttribute) :
  get_attribute h l = Ok a <-> h !! l = Some (ObjAttribute a).
Proof.
  unfold get_attribute. destruct (h !! l) as [[]|]; split; intros H;
    try discriminate; congruence.
Qed.

Lemma get_operation_lookup (h : heap) (l : loc) (o : IdlOperation) :
  get_operation h l = Ok o <-> h !! l = Some (ObjOperation o).
Proof.
  unfold get_operation. destruct (h !! l) as [[]|]; split; intros H;
    try discriminate; congruence.
Qed.

Lemma get_WithAttributes_lt (h : heap) (self : loc) (w : WithAttributes) :
  get_WithAttributes h self = Ok w -> self < length h.
Proof.
  unfold get_WithAttributes. destruct (h !! self) eqn:E; [|discriminate].
  intros _. eapply lookup_lt_length. exact E.
Qed.

Lemma IdlAttribute_copy_inv (a fresh : IdlAttribute) :
  IdlAttribute_copy a = Ok fresh ->
  exists ext,
    set_extended_attributes (_extended_attributes (attr_extattrs a)) init
    = Ok ext
    /\ fresh
       = attr_with_extattrs ext
           (IdlAttribute_init (attr_name a) (attr_idl_type a)
              (attr_is_readonly a) (attr_is_static a)
              (attr_is_stringifier a) (attr_is_inherit a)).
Proof.
  unfold IdlAttribute_copy. intros H. inv_bind H. injection H as <-. eauto.
Qed.

(** What a successful [add_attribute] did, step by step. *)
Lemma add_attribute_inv (h h' : heap) (self member : loc) (r : option loc) :
  add_attribute self member h = Ok (r, h') ->
  exists w a,
    get_WithAttributes h self = Ok w
    /\ get_attribute h member = Ok a
    /\ ((is_Some (_attributes_dict w !! attr_name a) /\ r = None /\ h' = h)
        \/ (_attributes_dict w !! attr_name a = None
            /\ r = Some (length h)
            /\ exists fresh partial,
                 IdlAttribute_copy a = Ok fresh
                 /\ owner_is_partial h self = Ok partial
                 /\ h' !! length h
                    = Some (ObjAttribute
                              (if partial then fresh
                               else attr_with_owner (Some self) fresh))
                 /\ length h' = S (length h)
                 /\ (forall l, l < length h -> l <> self -> h' !! l = h !! l)
                 /\ owner_is_partial h' self = Ok partial
                 /\ get_WithAttributes h' self
                    = Ok {| _attributes := _attributes w ++ [length h];
                            _attributes_dict :=
                              <[ attr_name a := length h ]> (_attributes_dict w);
                            _attributes_typedict :=
                              setdefault_append (name (attr_idl_type a))
                                (length h) (_attributes_typedict w);
                            mutable_attributes :=
                              if attr_is_readonly a then mutable_attributes w
                              else if negb (attr_is_event_handler fresh)
                                   then mutable_attributes w ++ [length h]
                                   else mutable_attributes w;
                            readonly_attributes :=
                              if attr_is_readonly a
                              then readonly_attributes w ++ [length h]
                              else readonly_attributes w |})).
Proof.
  intros H. unfold add_attribute in H.
  inv_bind_as H w E. inv_bind_as H a E0.
  exists w, a. split; [exact E|]. split; [exact E0|].
  destruct (_attributes_dict w !! attr_name a) eqn:Hd.
  { left. injection H as <- <-. eauto. }
  right. split; [reflexivity|]. inv_bind_as H fresh E1.
  unfold alloc in H. inv_bind_as H h2 E2. inv_bind_as H stored E3.
  inv_bind_as H h3 E4. injection H as <- <-. split; [reflexivity|].
  pose proof (get_WithAttributes_lt _ _ _ E) as Hlt.
  destruct (IdlAttribute_copy_inv _ _ E1) as (ext & _ & Hfresh).
  assert (Hp1 : owner_is_partial (h ++ [ObjAttribute fresh]) self
                = owner_is_partial h self).
  { unfold owner_is_partial. now rewrite lookup_app_l. }
  unfold set_owner in E2. rewrite Hp1 in E2. inv_bind_as E2 partial E5.
  exists fresh, partial.
  split; [exact E1|]. split; [exact E5|].
  assert (Hh2 : h2 = (if partial then h ++ [ObjAttribute fresh]
                      else <[ length h :=
                                ObjAttribute (attr_with_owner (Some self) fresh) ]>
                             (h ++ [ObjAttribute fresh]))).
  { destruct partial; [now injection E2 as <-|].
    rewrite list_lookup_middle in E2 by reflexivity. now injection E2 as <-. }
  assert (Hl2 : length h2 = S (length h)).
  { rewrite Hh2. destruct partial; rewrite ?length_insert, length_app; simpl; lia. }
  assert (Hs2 : h2 !! length h
                = Some (ObjAttribute (if partial then fresh
                                      else attr_with_owner (Some self) fresh))).
  { rewrite Hh2. destruct partial.
    - now apply list_lookup_middle.
    - apply list_lookup_insert_eq. rewrite length_app. simpl. lia. }
  assert (Hold : forall l, l < length h -> h2 !! l = h !! l).
  { intros l Hl. rewrite Hh2. destruct partial.
    - now apply lookup_app_l.
    - rewrite list_lookup_insert_ne by lia. now apply lookup_app_l. }
  assert (Ha3 : stored = (if partial then fresh
                          else attr_with_owner (Some self) fresh)).
  { apply get_attribute_lookup in E3. rewrite Hs2 in E3. congruence. }
  assert (Hfields : attr_name stored = attr_name a
                    /\ attr_idl_type stored = attr_idl_type a
                    /\ attr_is_readonly stored = attr_is_readonly a
                    /\ attr_is_event_handler stored
                       = attr_is_event_handler fresh).
  { rewrite Ha3, Hfresh. destruct partial; repeat split. }
  destruct Hfields as (F1 & F2 & F3 & F4). rewrite F1, F2, F3, F4 in E4.
  unfold put_WithAttributes in E4. rewrite (Hold self Hlt) in E4.
  unfold get_WithAttributes, owner_is_partial in *.
  destruct (h !! self) as [[]|] eqn:Hself; try discriminate;
    injection E4 as <-; injection E as <-; injection E5 as <-;
    (split; [rewrite list_lookup_insert_ne by lia; exact Hs2|]);
    (split; [now rewrite length_insert|]);
    (split; [intros l Hl Hne; rewrite list_lookup_insert_ne by congruence;
             now apply Hold|]);
    rewrite list_lookup_insert_eq by lia; split; reflexivity.
Qed.

Lemma attribute_copy_facts (a fresh : IdlAttribute) :
  IdlAttribute_copy a = Ok fresh ->
  attr_name fresh = attr_name a
  /\ attr_idl_type fresh = attr_idl_type a
  /\ attr_is_readonly fresh = attr_is_readonly a
  /\ attr_is_event_handler fresh
     = String.eqb (name (attr_idl_type a)) "EventHandler"
  /\ attr_owner fresh = None.
Proof.
  intros H. destruct (IdlAttribute_copy_inv _ _ H) as (ext & He & ->).
  repeat split.
Qed.

(** X13: copying an attribute succeeds exactly when its raw extended
    attributes all have a known shape; the copy has the name, type and
    flags of the original and is [same_as] it, has no owner, recomputes the
    event-handler flag from the type name, records the same raw mapping,
    and has an empty number bucket, whatever numbers the original held. *)
Theorem attribute_copy (a : IdlAttribute) :
  is_ok (IdlAttribute_copy a)
  = forallb (fun kv => classifiable (snd kv))
      (_extended_attributes (attr_extattrs a))
  /\ (forall fresh,
        IdlAttribute_copy a = Ok fresh ->
        attr_name fresh = attr_name a
        /\ attr_idl_type fresh = attr_idl_type a
        /\ attr_is_readonly fresh = attr_is_readonly a
        /\ attr_is_static fresh = attr_is_static a
        /\ attr_is_stringifier fresh = attr_is_stringifier a
        /\ attr_is_inherit fresh = attr_is_inherit a
        /\ attr_is_event_handler fresh
           = String.eqb (name (attr_idl_type a)) "EventHandler"
        /\ same_as a fresh = true
        /\ attr_owner fresh = None
        /\ _extended_attributes (attr_extattrs fresh)
           = _extended_attributes (attr_extattrs a)
        /\ _numbers (attr_extattrs fresh) = ∅).
Proof.
  split.
  - unfold IdlAttribute_copy, set_extended_attributes.
    rewrite <- (process_extended_attributes_ok
                  (_extended_attributes (attr_extattrs a))
                  (with_raw (_extended_attributes (attr_extattrs a))
                     (attr_extattrs
                        (IdlAttribute_init (attr_name a) (attr_idl_type a)
                           (attr_is_readonly a) (attr_is_static a)
                           (attr_is_stringifier a) (attr_is_inherit a))))).
    now destruct (process_extended_attributes _ _).
  - intros fresh H. destruct (IdlAttribute_copy_inv _ _ H) as (ext & He & ->).
    destruct (process_extended_attributes_effect _ _ _ He) as (R & N & _ & _).
    simpl. unfold same_as. simpl. rewrite !String.eqb_refl.
    repeat split; assumption.
Qed.

(** X14: after a successful add, the attribute is found under its name,
    it is the last of the ordered list and of the list of its type name,
    the stored object is a new one that is [same_as] the given one, the
    heap has grown by this one object, and the other names are indexed as
    before. *)
Theorem add_attribute_lookup (h h' : heap) (self member stored : loc)
    (a : IdlAttribute) :
  add_attribute self member h = Ok (Some stored, h') ->
  get_attribute h member = Ok a ->
  stored = length h
  /\ length h' = S (length h)
  /\ attribute h' self (attr_name a) = Ok (Some stored)
  /\ has_attribute h' self (inl (attr_name a)) = Ok true
  /\ (exists w,
        get_WithAttributes h self = Ok w
        /\ attributes h' self = Ok (_attributes w ++ [stored])
        /\ find_attributes h' self (name (attr_idl_type a))
           = Ok (default [] (_attributes_typedict w !! name (attr_idl_type a))
                 ++ [stored]))
  /\ (exists a',
        get_attribute h' stored = Ok a'
        /\ same_as a a' = true
        /\ attr_is_readonly a' = attr_is_readonly a)
  /\ (forall k, k <> attr_name a ->
                attribute h' self k = attribute h self k).
Proof.
  intros H Ha. destruct (add_attribute_inv _ _ _ _ _ H)
    as (w & a0 & Hw & Ha0 & [(_ & Hr & _) | (Hd & Hr & fresh & partial & Hc
          & Hp & Hs & Hl & Hold & Hp' & Hw')]); [discriminate|].
  injection Hr as ->. rewrite Ha in Ha0. injection Ha0 as <-.
  destruct (attribute_copy_facts a fresh Hc) as (F1 & F2 & F3 & F8 & F9).
  unfold attribute, has_attribute, attributes, find_attributes.
  rewrite Hw', Hw. simpl. unfold setdefault_append.
  rewrite !lookup_insert_eq. simpl.
  split; [reflexivity|]. split; [exact Hl|]. split; [reflexivity|].
  split; [reflexivity|].
  split; [exists w; repeat split|]. split.
  - eexists. split; [apply get_attribute_lookup; exact Hs|].
    destruct partial; simpl; unfold same_as; simpl;
      rewrite F1, F2, F3, !String.eqb_refl; split; reflexivity.
  - intros k Hk. now rewrite lookup_insert_ne by congruence.
Qed.

(** X14 (witness): the attribute [x] of type [long] added to the
    interface [Foo]. *)
Lemma add_attribute_lookup_witness :
  let h :=
    [ObjInterface
       (IdlInterface_init "Foo" false false None None None ParentNone false);
     ObjAttribute
       (IdlAttribute_init "x" (IdlType "long") false false false false)] in
  exists h',
    add_attribute 0 1 h = Ok (Some 2, h')
    /\ attribute h' 0 "x" = Ok (Some 2)
    /\ has_attribute h' 0 (inl "x") = Ok true.
Proof.
  intros h.
  destruct (add_attribute 0 1 h) as [[r h']|] eqn:E; [|discriminate E].
  assert (Hr : r = Some 2) by (vm_compute in E; congruence). subst r.
  exists h'. split; [reflexivity|].
  destruct (add_attribute_lookup h h' 0 1 2
              (IdlAttribute_init "x" (IdlType "long") false false false false)
              E eq_refl) as (_ & _ & H1 & H2 & _).
  split; [exact H1 | exact H2].
Defined.

(** X15: once an attribute is stored under a name, adding any attribute
    of that name, whatever its type, stores nothing and changes nothing. *)
Theorem add_attribute_same_name (h h1 : heap) (self m1 m2 stored : loc)
    (a1 a2 : IdlAttribute) :
  add_attribute self m1 h = Ok (Some stored, h1) ->
  get_attribute h m1 = Ok a1 ->
  get_attribute h1 m2 = Ok a2 ->
  attr_name a2 = attr_name a1 ->
  add_attribute self m2 h1 = Ok (None, h1)
  /\ attribute h1 self (attr_name a2) = Ok (Some stored).
Proof.
  intros H Ha1 Ha2 Hn. destruct (add_attribute_inv _ _ _ _ _ H)
    as (w & a0 & Hw & Ha0 & [(_ & Hr & _) | (Hd & Hr & fresh & partial & Hc
          & Hp & Hs & Hl & Hold & Hp' & Hw')]); [discriminate|].
  injection Hr as ->. rewrite Ha1 in Ha0. injection Ha0 as <-.
  unfold add_attribute, attribute. rewrite Hw', Ha2. simpl.
  rewrite Hn, lookup_insert_eq. split; reflexivity.
Qed.

(** X15 (witness): [x] of type [long], then [x] of type [DOMString]. *)
Lemma add_attribute_same_name_witness :
  let h :=
    [ObjInterface
       (IdlInterface_init "Foo" false false None None None ParentNone false);
     ObjAttribute
       (IdlAttribute_init "x" (IdlType "long") false false false false);
     ObjAttribute
       (IdlAttribute_init "x" (IdlType "DOMString") false false false false)]
  in
  exists h1,
    add_attribute 0 1 h = Ok (Some 3, h1)
    /\ add_attribute 0 2 h1 = Ok (None, h1)
    /\ attribute h1 0 "x" = Ok (Some 3).
Proof.
  intros h.
  destruct (add_attribute 0 1 h) as [[r h1]|] eqn:E; [|discriminate E].
  assert (Hr : r = Some 3) by (vm_compute in E; congruence). subst r.
  exists h1. split; [reflexivity|].
  assert (H2 : get_attribute h1 2
               = Ok (IdlAttribute_init "x" (IdlType "DOMString") false false
                       false false))
    by (vm_compute in E; injection E as <-; reflexivity).
  exact (add_attribute_same_name h h1 0 1 2 3 _ _ E eq_refl H2 eq_refl).
Defined.

(** X16: a stored attribute goes to the read-only list when it is
    read-only, to the mutable list when it is neither read-only nor of the
    type named [EventHandler], and to neither list when it is a mutable
    event handler; the other list is left as it was. *)
Theorem add_attribute_partition (h h' : heap) (self member stored : loc)
    (a : IdlAttribute) :
  add_attribute self member h = Ok (Some stored, h') ->
  get_attribute h member = Ok a ->
  exists w w',
    get_WithAttributes h self = Ok w
    /\ get_WithAttributes h' self = Ok w'
    /\ readonly_attributes w'
       = (if attr_is_readonly a then readonly_attributes w ++ [stored]
          else readonly_attributes w)
    /\ mutable_attributes w'
       = (if attr_is_readonly a
             || String.eqb (name (attr_idl_type a)) "EventHandler"
          then mutable_attributes w
          else mutable_attributes w ++ [stored]).
Proof.
  intros H Ha. destruct (add_attribute_inv _ _ _ _ _ H)
    as (w & a0 & Hw & Ha0 & [(_ & Hr & _) | (Hd & Hr & fresh & partial & Hc
          & Hp & Hs & Hl & Hold & Hp' & Hw')]); [discriminate|].
  injection Hr as ->. rewrite Ha in Ha0. injection Ha0 as <-.
  destruct (attribute_copy_facts a fresh Hc) as (_ & _ & _ & F8 & _).
  eexists w, _. split; [exact Hw|]. split; [exact Hw'|]. simpl.
  rewrite F8. split; [reflexivity|].
  destruct (attr_is_readonly a), (name (attr_idl_type a) =? "EventHandler");
    reflexivity.
Qed.

(** X16 (witness): a mutable attribute of type [EventHandler] is in
    neither list. *)
Lemma add_attribute_partition_witness :
  let h :=
    [ObjInterface
       (IdlInterface_init "Foo" false false None None None ParentNone false);
     ObjAttribute
       (IdlAttribute_init "onload" (IdlType "EventHandler") false false false
          false)] in
  exists h' w',
    add_attribute 0 1 h = Ok (Some 2, h')
    /\ get_WithAttributes h' 0 = Ok w'
    /\ readonly_attributes w' = []
    /\ mutable_attributes w' = [].
Proof.
  intros h.
  destruct (add_attribute 0 1 h) as [[r h']|] eqn:E; [|discriminate E].
  assert (Hr : r = Some 2) by (vm_compute in E; congruence). subst r.
  destruct (add_attribute_partition h h' 0 1 2 _ E eq_refl)
    as (w & w' & Hw & Hw' & Hro & Hmu).
  injection Hw as <-.
  exists h', w'. split; [reflexivity|]. split; [exact Hw'|].
  split; [exact Hro | exact Hmu].
Defined.

Lemma list_remove_In (same : loc -> result bool) (l l1 : list loc) :
  list_remove same l = Ok l1 -> forall x, In x l1 -> In x l.
Proof.
  revert l1. induction l as [|y l IH]; intros l1 H; simpl in H;
    [discriminate|].
  inv_bind_as H b Eb. destruct b.
  - injection H as <-. intros x Hx. now right.
  - inv_bind_as H rest Er. injection H as <-.
    intros x [<- | Hx]; [now left | right; eauto].
Qed.

(** What a successful [remove_attribute] did. *)
Lemma remove_attribute_inv (h h' : heap) (self : loc) (key : string + loc)
    (r : option loc) :
  remove_attribute self key h = Ok (r, h') ->
  exists w n,
    get_WithAttributes h self = Ok w
    /\ match key with
       | inl s => n = s
       | inr a => exists o, get_attribute h a = Ok o /\ n = attr_name o
       end
    /\ ((_attributes_dict w !! n = None /\ r = None /\ h' = h)
        \/ (exists found w',
              _attributes_dict w !! n = Some found
              /\ r = Some found
              /\ get_WithAttributes h' self = Ok w'
              /\ list_remove (same_attribute h found) (_attributes w)
                 = Ok (_attributes w')
              /\ _attributes_dict w' = delete n (_attributes_dict w)
              /\ length h' = length h
              /\ (forall l, l <> self -> h' !! l = h !! l)
              /\ owner_is_partial h' self = owner_is_partial h self)).
Proof.
  intros H. unfold remove_attribute in H. inv_bind_as H w Ew.
  inv_bind_as H n En. exists w, n. split; [exact Ew|]. split.
  { destruct key as [s | a]; [now injection En as <-|].
    inv_bind_as En o Eo. injection En as <-. eauto. }
  destruct (_attributes_dict w !! n) as [found|] eqn:Hd.
  2: { left. injection H as <- <-. auto. }
  right. inv_bind_as H a Ea. inv_bind_as H l1 El. inv_bind_as H t1 Et.
  inv_bind_as H ro Ero. inv_bind_as H mu Emu. inv_bind_as H h1 Eh.
  rewrite set_owner_None in H. injection H as <- <-.
  unfold put_WithAttributes in Eh. unfold get_WithAttributes, owner_is_partial in *.
  destruct (h !! self) as [[]|] eqn:Hself; try discriminate;
    injection Eh as <-; eexists found, _;
    rewrite list_lookup_insert_eq by (eapply lookup_lt_length; exact Hself);
    (split; [reflexivity|]); (split; [reflexivity|]);
    (split; [reflexivity|]); simpl; (split; [exact El|]);
    (split; [reflexivity|]); (split; [apply length_insert|]);
    (split; [intros l Hl; now apply list_lookup_insert_ne|]); reflexivity.
Qed.

Lemma owner_of_lt (h : heap) (l : loc) (o : option loc) :
  owner_of h l = Ok o -> l < length h.
Proof.
  unfold owner_of. destruct (h !! l) eqn:E; [|discriminate].
  intros _. eapply lookup_lt_length. exact E.
Qed.

Lemma owner_of_not_container (h : heap) (l : loc) (o : option loc)
    (w : WithAttributes) :
  owner_of h l = Ok o -> get_WithAttributes h l = Ok w -> False.
Proof.
  unfold owner_of, get_WithAttributes.
  destruct (h !! l) as [[]|]; discriminate.
Qed.

(** X17: in a container that is not partial, if every listed attribute
    has the container as its owner, this is still so after an attribute is
    added and after an attribute is removed. *)
Theorem attributes_owned_preserved (h h' : heap) (self : loc)
    (r : option loc) :
  owner_is_partial h self = Ok false ->
  attributes_owned h self ->
  (forall member,
      add_attribute self member h = Ok (r, h') -> attributes_owned h' self)
  /\ (forall key,
        remove_attribute self key h = Ok (r, h') -> attributes_owned h' self).
Proof.
  intros Hp Hown. split.
  - intros member H. destruct (add_attribute_inv _ _ _ _ _ H)
      as (w & a & Hw & Ha & [(_ & _ & ->) | (Hd & Hr & fresh & partial & Hc
            & Hp0 & Hs & Hl & Hold & Hp' & Hw')]); [exact Hown|].
    rewrite Hp in Hp0. injection Hp0 as <-.
    intros w0 Hw0 l Hin. rewrite Hw' in Hw0. injection Hw0 as <-.
    simpl in Hin. apply in_app_iff in Hin as [Hin | [<- | []]].
    + pose proof (Hown w Hw l Hin) as Hl0.
      rewrite <- Hl0. apply owner_of_lookup. apply Hold.
      * eapply owner_of_lt. exact Hl0.
      * intros ->. eapply owner_of_not_container; eauto.
    + unfold owner_of. now rewrite Hs.
  - intros key H. destruct (remove_attribute_inv _ _ _ _ _ H)
      as (w & n & Hw & _ & [(_ & _ & ->) | (found & w' & Hd & Hr & Hw' & Hl1
            & _ & _ & Hold & _)]); [exact Hown|].
    intros w0 Hw0 l Hin. rewrite Hw' in Hw0. injection Hw0 as <-.
    pose proof (Hown w Hw l (list_remove_In _ _ _ Hl1 l Hin)) as Hl0.
    rewrite <- Hl0. apply owner_of_lookup. apply Hold.
    intros ->. eapply owner_of_not_container; eauto.
Qed.

(** X17 (witness): an attribute added to the empty interface [Foo]. *)
Lemma attributes_owned_preserved_witness :
  let h :=
    [ObjInterface
       (IdlInterface_init "Foo" false false None None None ParentNone false);
     ObjAttribute
       (IdlAttribute_init "x" (IdlType "long") false false false false)] in
  exists h', add_attribute 0 1 h = Ok (Some 2, h') /\ attributes_owned h' 0.
Proof.
  intros h.
  destruct (add_attribute 0 1 h) as [[r h']|] eqn:E; [|discriminate E].
  assert (Hr : r = Some 2) by (vm_compute in E; congruence). subst r.
  exists h'. split; [reflexivity|].
  refine (proj1 (attributes_owned_preserved h h' 0 (Some 2) eq_refl _) 1 E).
  intros w [= <-] l [].
Defined.

(** X18: when the read-only flag of an attribute with an owner is
    changed, the owner indexes a new object under the name, with the new
    flag; the attribute whose flag was set is not that object, though it
    carries the new flag and still names the owner. *)
Theorem set_readonly_replaces_object (h h' : heap) (self c : loc)
    (readonly : bool) (a : IdlAttribute) :
  get_attribute h self = Ok a ->
  attr_owner a = Some c ->
  attr_is_readonly a = negb readonly ->
  set_readonly self readonly h = Ok h' ->
  attribute h' c (attr_name a) = Ok (Some (length h))
  /\ length h <> self
  /\ (exists a',
        get_attribute h' (length h) = Ok a'
        /\ attr_is_readonly a' = readonly
        /\ attr_name a' = attr_name a)
  /\ (exists a'',
        get_attribute h' self = Ok a''
        /\ attr_is_readonly a'' = readonly
        /\ attr_owner a'' = Some c).
Proof.
  intros Ha Ho Hf H. unfold set_readonly in H. rewrite Ha in H. simpl in H.
  rewrite Hf, Ho in H.
  assert (Hne : Bool.eqb readonly (negb readonly) = false)
    by now destruct readonly.
  rewrite Hne in H.
  assert (Hbody :
            bind (remove_attribute c (inr self) h)
              (fun r =>
                 bind (get_attribute (snd r) self)
                   (fun a1 =>
                      bind (add_attribute c self
                              (<[ self := ObjAttribute
                                            (attr_with_readonly readonly a1) ]>
                                 (snd r)))
                        (fun r2 => Ok (snd r2)))) = Ok h').
  { destruct (h !! c) as [[]|]; try exact H; discriminate. }
  clear H. inv_bind_as Hbody r Er. destruct r as [r0 h1]. simpl in Hbody.
  inv_bind_as Hbody a1 Ea1. inv_bind_as Hbody r2 Er2.
  destruct r2 as [r3 h3]. simpl in Hbody. injection Hbody as ->.
  pose proof (proj1 (get_attribute_lookup _ _ _) Ha) as Hself.
  pose proof (lookup_lt_length _ _ _ Hself) as Hlt.
  destruct (remove_attribute_inv _ _ _ _ _ Er)
    as (w & n & Hw & (o & Hoa & ->) & Hcases).
  rewrite Ha in Hoa. injection Hoa as <-.
  assert (Hsc : self <> c).
  { intros ->. eapply owner_of_not_container; [|exact Hw].
    unfold owner_of. rewrite Hself. reflexivity. }
  assert (Hrem : exists w1,
             get_WithAttributes h1 c = Ok w1
             /\ _attributes_dict w1 !! attr_name a = None
             /\ length h1 = length h
             /\ h1 !! self = h !! self).
  { destruct Hcases as [(Hd & _ & ->) | (found & w' & Hd & _ & Hw' & _ & Hd'
                                          & Hl & Hold & _)].
    - exists w. auto.
    - exists w'. split; [exact Hw'|]. split; [|split; [exact Hl | now apply Hold]].
      rewrite Hd'. apply lookup_delete_eq. }
  destruct Hrem as (w1 & Hw1 & Hd1 & Hl1 & Hs1).
  apply get_attribute_lookup in Ea1. rewrite Hs1, Hself in Ea1.
  injection Ea1 as <-.
  set (h2 := <[ self := ObjAttribute (attr_with_readonly readonly a) ]> h1) in *.
  assert (Hl2 : length h2 = length h) by (unfold h2; now rewrite length_insert).
  assert (Hw2 : get_WithAttributes h2 c = Ok w1).
  { unfold get_WithAttributes, h2 in *.
    now rewrite list_lookup_insert_ne by exact Hsc. }
  assert (Ha2 : h2 !! self
                = Some (ObjAttribute (attr_with_readonly readonly a))).
  { unfold h2. apply list_lookup_insert_eq. lia. }
  destruct (add_attribute_inv _ _ _ _ _ Er2)
    as (w2 & a2 & Hw2' & Ha2' & Hadd).
  rewrite Hw2 in Hw2'. injection Hw2' as <-.
  apply get_attribute_lookup in Ha2'. rewrite Ha2 in Ha2'.
  injection Ha2' as <-. simpl in Hadd.
  destruct Hadd as [([x Hx] & _) | (_ & Hr3 & fresh & partial & Hc & Hp & Hs
                                    & Hl & Hold & _ & Hw3)]; [congruence|].
  rewrite Hl2 in *.
  destruct (attribute_copy_facts _ _ Hc) as (F1 & _ & F3 & _ & _).
  simpl in F1, F3.
  split.
  { unfold attribute. rewrite Hw3. simpl. now rewrite lookup_insert_eq. }
  split; [lia|]. split.
  - eexists. split; [apply get_attribute_lookup; exact Hs|].
    destruct partial; simpl; auto.
  - exists (attr_with_readonly readonly a).
    split; [|split; [reflexivity | exact Ho]].
    apply get_attribute_lookup. rewrite (Hold self Hlt Hsc). exact Ha2.
Qed.

(** X18 (witness): the stored attribute [x] of the interface [Foo] is made
    read-only. *)
Lemma set_readonly_replaces_object_witness :
  let h0 :=
    [ObjInterface
       (IdlInterface_init "Foo" false false None None None ParentNone false);
     ObjAttribute
       (IdlAttribute_init "x" (IdlType "long") false false false false)] in
  exists h h',
    add_attribute 0 1 h0 = Ok (Some 2, h)
    /\ set_readonly 2 true h = Ok h'
    /\ attribute h' 0 "x" = Ok (Some 3)
    /\ bind (get_attribute h' 2) (fun a => Ok (attr_owner a)) = Ok (Some 0).
Proof.
  intros h0.
  destruct (add_attribute 0 1 h0) as [[r h]|] eqn:E; [|discriminate E].
  vm_compute in E. injection E as <- <-.
  match goal with
  | |- exists h1 h', Ok (Some 2, ?hh) = Ok (Some 2, h1) /\ _ =>
      destruct (set_readonly 2 true hh) as [h'|] eqn:E2; [|discriminate E2];
      exists hh, h'; split; [reflexivity|]; split; [exact E2|];
      destruct (set_readonly_replaces_object hh h' 2 0 true _
                  eq_refl eq_refl eq_refl E2)
        as (H1 & _ & _ & (a'' & Ha'' & _ & Ho''))
  end.
  split; [exact H1|]. rewrite Ha''. simpl. now rewrite Ho''.
Defined.

Lemma IdlOperation_name_nonempty (o : IdlOperation) (n : string) :
  IdlOperation_name o = Ok n -> n <> "".
Proof.
  unfold IdlOperation_name.
  destruct (String.eqb_spec (op_name o) "") as [He | Hne]; simpl.
  - destruct (op_is_getter o), (op_is_setter o), (op_is_deleter o),
      (op_is_stringifier o), (op_is_legacycaller o);
      intros [= <-]; discriminate.
  - now intros [= <-].
Qed.

Lemma IdlOperation_name_of_nonempty (o : IdlOperation) :
  op_name o <> "" -> IdlOperation_name o = Ok (op_name o).
Proof.
  intros H. unfold IdlOperation_name.
  destruct (String.eqb_spec (op_name o) ""); [contradiction | reflexivity].
Qed.

Lemma IdlArgument_copy_eq (a a' : IdlArgument) :
  IdlArgument_copy a = Ok a' -> IdlArgument_eq a a' = true.
Proof.
  unfold IdlArgument_copy. intros H. inv_bind_as H ext E. injection H as <-.
  unfold IdlArgument_eq. simpl. now rewrite !String.eqb_refl.
Qed.

Lemma copy_arguments_same (args : list IdlArgument) :
  forall args',
    copy_arguments args = Ok args' ->
    length args' = length args /\ same_arguments args args' = true.
Proof.
  induction args as [|a args IH]; intros args' H; simpl in H.
  - injection H as <-. split; reflexivity.
  - inv_bind_as H a' Ea. inv_bind_as H rest Er. injection H as <-.
    destruct (IH _ Er) as [Hl Hs]. simpl.
    rewrite (IdlArgument_copy_eq _ _ Ea). simpl. split; [now f_equal | exact Hs].
Qed.

Lemma IdlOperation_copy_inv (o fresh : IdlOperation) :
  IdlOperation_copy o = Ok fresh ->
  exists args n ext,
    copy_arguments (op_arguments o) = Ok args
    /\ IdlOperation_name o = Ok n
    /\ fresh
       = op_with_extattrs ext
           (IdlOperation_init n (op_idl_type o) args (op_is_constructor o)
              (op_is_static o) (op_is_getter o) (op_is_setter o)
              (op_is_deleter o) (op_is_stringifier o) (op_is_legacycaller o)
              (op_is_async o)).
Proof.
  unfold IdlOperation_copy. intros H. inv_bind_as H args Ea.
  inv_bind_as H n En. inv_bind_as H ext Ee. injection H as <-.
  exists args, n, ext. auto.
Qed.

(** X19: the public name of an operation is never empty; the copy of an
    operation carries that public name as its own name, so that its name
    never fails, has no owner, keeps the return type and the role flags,
    and has the same arguments as the original. *)
Theorem operation_copy (o : IdlOperation) :
  (forall n, IdlOperation_name o = Ok n -> n <> "")
  /\ (forall fresh,
        IdlOperation_copy o = Ok fresh ->
        IdlOperation_name o = Ok (op_name fresh)
        /\ IdlOperation_name fresh = Ok (op_name fresh)
        /\ op_owner fresh = None
        /\ op_idl_type fresh = op_idl_type o
        /\ op_is_constructor fresh = op_is_constructor o
        /\ op_is_getter fresh = op_is_getter o
        /\ op_is_setter fresh = op_is_setter o
        /\ op_is_deleter fresh = op_is_deleter o
        /\ has_same_arguments o fresh = true).
Proof.
  split; [apply IdlOperation_name_nonempty|].
  intros fresh H.
  destruct (IdlOperation_copy_inv _ _ H) as (args & n & ext & Ha & Hn & ->).
  destruct (copy_arguments_same _ _ Ha) as [Hl Hs].
  pose proof (IdlOperation_name_nonempty _ _ Hn) as Hne. simpl.
  split; [exact Hn|]. split; [now apply IdlOperation_name_of_nonempty|].
  repeat (split; [reflexivity|]).
  unfold has_same_arguments. simpl. rewrite Hl, Nat.eqb_refl. exact Hs.
Qed.

Lemma get_WithOperations_lt (h : heap) (self : loc) (w : WithOperations) :
  get_WithOperations h self = Ok w -> self < length h.
Proof.
  unfold get_WithOperations. destruct (h !! self) eqn:E; [|discriminate].
  intros _. eapply lookup_lt_length. exact E.
Qed.

(** What a successful [WithOperations.add_operation] did. *)
Lemma add_operation_inv (h h' : heap) (self member : loc) (r : option loc) :
  WithOperations_add_operation self member h = Ok (r, h') ->
  exists o fresh partial,
    get_operation h member = Ok o
    /\ IdlOperation_copy o = Ok fresh
    /\ owner_is_partial h self = Ok partial
    /\ h' !! length h
       = Some (ObjOperation
                 (if partial then fresh else op_with_owner (Some self) fresh))
    /\ length h' = S (length h)
    /\ (forall l, l < length h -> l <> self -> h' !! l = h !! l)
    /\ ((r = None /\ h' !! self = h !! self)
        \/ (r = Some (length h)
            /\ op_is_setter o || op_is_getter o || op_is_deleter o = false
            /\ exists w,
                 get_WithOperations h self = Ok w
                 /\ get_WithOperations h' self
                    = Ok {| _operations := _operations w ++ [length h];
                            _operations_dict :=
                              setdefault_append (op_name fresh) (length h)
                                (_operations_dict w);
                            _disabled_operations := _disabled_operations w |}
                 /\ get_interface h' self
                    = bind (get_interface h self)
                        (fun i =>
                           Ok (iface_with_operations
                                 {| _operations := _operations w ++ [length h];
                                    _operations_dict :=
                                      setdefault_append (op_name fresh)
                                        (length h) (_operations_dict w);
                                    _disabled_operations :=
                                      _disabled_operations w |} i)))).
Proof.
  intros H. unfold WithOperations_add_operation in H.
  inv_bind_as H o Eo. inv_bind_as H fresh Ec. unfold alloc in H.
  inv_bind_as H h2 E2. inv_bind_as H present Ep.
  exists o, fresh.
  unfold set_owner in E2. inv_bind_as E2 partial Epart.
  pose proof (owner_is_partial_lt _ _ _ Epart) as Hlt1.
  assert (Hlt : self < length h).
  { rewrite length_app in Hlt1. simpl in Hlt1.
    destruct (Nat.eq_dec self (length h)) as [-> | Hn]; [|lia].
    unfold owner_is_partial in Epart.
    rewrite list_lookup_middle in Epart by reflexivity. discriminate. }
  assert (Hp : owner_is_partial h self = Ok partial).
  { unfold owner_is_partial in *. now rewrite lookup_app_l in Epart. }
  exists partial. split; [exact Eo|]. split; [exact Ec|]. split; [exact Hp|].
  assert (Hh2 : h2 = (if partial then h ++ [ObjOperation fresh]
                      else <[ length h :=
                                ObjOperation (op_with_owner (Some self) fresh) ]>
                             (h ++ [ObjOperation fresh]))).
  { destruct partial; [now injection E2 as <-|].
    rewrite list_lookup_middle in E2 by reflexivity. now injection E2 as <-. }
  assert (Hl2 : length h2 = S (length h)).
  { rewrite Hh2. destruct partial; rewrite ?length_insert, length_app; simpl; lia. }
  assert (Hs2 : h2 !! length h
                = Some (ObjOperation (if partial then fresh
                                      else op_with_owner (Some self) fresh))).
  { rewrite Hh2. destruct partial.
    - now apply list_lookup_middle.
    - apply list_lookup_insert_eq. rewrite length_app. simpl. lia. }
  assert (Hold : forall l, l < length h -> h2 !! l = h !! l).
  { intros l Hl. rewrite Hh2. destruct partial.
    - now apply lookup_app_l.
    - rewrite list_lookup_insert_ne by lia. now apply lookup_app_l. }
  destruct present.
  { injection H as <- <-. split; [exact Hs2|]. split; [exact Hl2|].
    split; [intros; now apply Hold|]. left. split; [reflexivity | now apply Hold]. }
  inv_bind_as H o2 Eo2.
  apply get_operation_lookup in Eo2. rewrite Hs2 in Eo2. injection Eo2 as <-.
  destruct (IdlOperation_copy_inv _ _ Ec) as (args & n & ext & _ & Hn & Hfresh).
  assert (Hflags :
            op_is_setter (if partial then fresh
                          else op_with_owner (Some self) fresh)
            || op_is_getter (if partial then fresh
                             else op_with_owner (Some self) fresh)
            || op_is_deleter (if partial then fresh
                              else op_with_owner (Some self) fresh)
            = op_is_setter o || op_is_getter o || op_is_deleter o).
  { rewrite Hfresh. now destruct partial. }
  rewrite Hflags in H.
  destruct (op_is_setter o || op_is_getter o || op_is_deleter o) eqn:Hacc.
  { injection H as <- <-. split; [exact Hs2|]. split; [exact Hl2|].
    split; [intros; now apply Hold|]. left. split; [reflexivity | now apply Hold]. }
  inv_bind_as H w Ew. inv_bind_as H n2 En2. inv_bind_as H h3 E3.
  injection H as <- <-.
  assert (Hn2 : n2 = op_name fresh).
  { assert (Hnf : IdlOperation_name
                    (if partial then fresh else op_with_owner (Some self) fresh)
                  = Ok (op_name fresh)).
    { assert (Hne : op_name fresh <> "").
      { rewrite Hfresh. simpl. eapply IdlOperation_name_nonempty. exact Hn. }
      destruct partial;
        [ apply (IdlOperation_name_of_nonempty fresh)
        | apply (IdlOperation_name_of_nonempty
                   (op_with_owner (Some self) fresh)) ]; exact Hne. }
    congruence. }
  subst n2.
  unfold put_WithOperations in E3. rewrite (Hold self Hlt) in E3.
  unfold get_WithOperations in Ew. rewrite (Hold self Hlt) in Ew.
  unfold get_WithOperations, get_interface.
  destruct (h !! self) as [[]|] eqn:Hself; try discriminate;
    injection E3 as <-; injection Ew as <-;
    (split; [rewrite list_lookup_insert_ne by lia; exact Hs2|]);
    (split; [now rewrite length_insert|]);
    (split; [intros l Hl Hne; rewrite list_lookup_insert_ne by congruence;
             now apply Hold|]);
    right; (split; [reflexivity|]); (split; [reflexivity|]);
    eexists; (split; [reflexivity|]);
    rewrite list_lookup_insert_eq by lia; split; reflexivity.
Qed.

(** X20: an attribute and an operation are stored as new objects: the
    stored reference is the next free one, never the caller's, and the
    caller's object is left exactly as it was, also when the operation is
    not kept. *)
Theorem insertion_stores_copy (h : heap) (self member : loc) :
  (forall stored h',
      add_attribute self member h = Ok (Some stored, h') ->
      stored = length h /\ stored <> member /\ h' !! member = h !! member)
  /\ (forall r h',
        WithOperations_add_operation self member h = Ok (r, h') ->
        (r = None \/ r = Some (length h))
        /\ length h <> member
        /\ length h' = S (length h)
        /\ h' !! member = h !! member).
Proof.
  split.
  - intros stored h' H. now apply (add_attribute_copies _ _ self).
  - intros r h' H. destruct (add_operation_inv _ _ _ _ _ H)
      as (o & fresh & partial & Ho & _ & _ & _ & Hl & Hold & Hr).
    apply get_operation_lookup in Ho.
    pose proof (lookup_lt_length _ _ _ Ho) as Hlt.
    split; [destruct Hr as [[-> _] | [-> _]]; auto|].
    split; [lia|]. split; [exact Hl|].
    destruct (Nat.eq_dec member self) as [-> | Hne]; [|now apply Hold].
    destruct Hr as [[_ Hs] | (_ & _ & w & Hw & _)]; [exact Hs|].
    unfold get_WithOperations in Hw. rewrite Ho in Hw. discriminate.
Qed.

(** X20 (witness): the operation [f] added to the interface [Foo]. *)
Lemma insertion_stores_copy_witness :
  let h :=
    [ObjInterface
       (IdlInterface_init "Foo" false false None None None ParentNone false);
     ObjOperation
       (IdlOperation_init "f" (Some (IdlType "long")) [] false false false
          false false false false false)] in
  exists h',
    WithOperations_add_operation 0 1 h = Ok (Some 2, h')
    /\ h' !! 1 = h !! 1.
Proof.
  intros h.
  destruct (WithOperations_add_operation 0 1 h) as [[r h']|] eqn:E;
    [|discriminate E].
  assert (Hr : r = Some 2) by (vm_compute in E; congruence). subst r.
  exists h'. split; [reflexivity|].
  exact (proj2 (proj2 (proj2 (proj2 (insertion_stores_copy h 0 1) _ _ E)))).
Defined.

Lemma operation_copy_flags (o fresh : IdlOperation) :
  IdlOperation_copy o = Ok fresh ->
  op_is_constructor fresh = op_is_constructor o
  /\ op_idl_type fresh = op_idl_type o
  /\ op_owner fresh = None.
Proof.
  intros H.
  destruct (IdlOperation_copy_inv _ _ H) as (args & n & ext & _ & _ & ->).
  repeat split.
Qed.

(** X21: when a constructor is added to an interface, its declared return
    type was absent or equal to the type of the interface; the stored copy
    gets the named type of the interface as its return type and is the last
    of both the operations and the constructors of the interface. *)
Theorem add_constructor (h h' : heap) (self member : loc) (o : IdlOperation) :
  get_operation h member = Ok o ->
  op_is_constructor o = true ->
  IdlInterface_add_operation self member h = Ok (true, h') ->
  exists i i' o',
    get_interface h self = Ok i
    /\ match op_idl_type o with
       | None => True
       | Some t => type_eq t (iface_idl_type i) = true
       end
    /\ get_operation h' (length h) = Ok o'
    /\ op_idl_type o' = Some (IdlType (iface_name i))
    /\ get_interface h' self = Ok i'
    /\ iface_constructors i' = iface_constructors i ++ [length h]
    /\ _operations (iface_operations i')
       = _operations (iface_operations i) ++ [length h].
Proof.
  intros Ho Hc H. unfold IdlInterface_add_operation in H.
  inv_bind_as H r Er. destruct r as [[stored|] h1]; [|discriminate].
  destruct (add_operation_inv _ _ _ _ _ Er)
    as (o0 & fresh & partial & Ho0 & Hcopy & Hp & Hs & Hl & Hold
        & [[Hr _] | (Hr & _ & w & Hw & Hw' & Hi')]); [discriminate|].
  injection Hr as ->. rewrite Ho in Ho0. injection Ho0 as <-.
  destruct (operation_copy_flags _ _ Hcopy) as (Fc & Ft & _).
  inv_bind_as H o1 Eo1. inv_bind_as H i1 Ei1. inv_bind_as H h3 E3.
  inv_bind_as H o3 Eo3.
  apply get_operation_lookup in Eo1. rewrite Hs in Eo1. injection Eo1 as <-.
  rewrite Ei1 in Hi'. symmetry in Hi'.
  destruct (get_interface h self) as [i|] eqn:Hi; [|discriminate].
  simpl in Hi'. injection Hi' as <-.
  pose proof (get_WithOperations_lt _ _ _ Hw) as Hlt.
  assert (Hw0 : w = iface_operations i).
  { unfold get_WithOperations, get_interface in *.
    destruct (h !! self) as [[]|]; try discriminate. congruence. }
  assert (Hcons : op_is_constructor
                    (if partial then fresh
                     else op_with_owner (Some self) fresh) = true).
  { destruct partial; simpl; congruence. }
  assert (Htype : op_idl_type
                    (if partial then fresh
                     else op_with_owner (Some self) fresh) = op_idl_type o).
  { destruct partial; simpl; congruence. }
  rewrite Hcons, Htype in E3. simpl in E3.
  destruct (match op_idl_type o with
            | Some t => type_eq t (iface_idl_type i)
            | None => true
            end) eqn:Hacc; [|discriminate].
  injection E3 as <-.
  destruct (op_idl_type o3); [|discriminate]. injection H as <-.
  exists i. eexists. eexists. split; [reflexivity|].
  split; [destruct (op_idl_type o); [exact Hacc | exact I]|].
  split.
  { apply get_operation_lookup. apply list_lookup_insert_eq.
    rewrite length_insert. lia. }
  split; [reflexivity|].
  split.
  { unfold get_interface. rewrite list_lookup_insert_ne by lia.
    rewrite list_lookup_insert_eq by lia. reflexivity. }
  simpl. subst w. split; reflexivity.
Qed.

(** X21 (witness): a constructor without return type added to [Foo]. *)
Lemma add_constructor_witness :
  let h :=
    [ObjInterface
       (IdlInterface_init "Foo" false false None None None ParentNone false);
     ObjOperation
       (IdlOperation_init "constructor" None [] true false false false false
          false false false)] in
  exists h' o',
    IdlInterface_add_operation 0 1 h = Ok (true, h')
    /\ get_operation h' 2 = Ok o'
    /\ op_idl_type o' = Some (IdlType "Foo").
Proof.
  intros h.
  destruct (IdlInterface_add_operation 0 1 h) as [[r h']|] eqn:E;
    [|discriminate E].
  assert (Hr : r = true) by (vm_compute in E; congruence). subst r.
  destruct (add_constructor h h' 0 1 _ eq_refl eq_refl E)
    as (i & i' & o' & Hi & _ & Ho' & Ht & _).
  injection Hi as <-.
  exists h', o'. split; [reflexivity|]. split; [exact Ho' | exact Ht].
Defined.

(** X22: a getter, a setter or a deleter is never indexed: the add returns
    nothing and leaves the container as it was, although a copy of the
    operation was made and given the container as its owner unless the
    container is partial; on an interface the add answers false. *)
Theorem accessor_not_indexed (h : heap) (self member : loc)
    (o : IdlOperation) :
  get_operation h member = Ok o ->
  op_is_getter o || op_is_setter o || op_is_deleter o = true ->
  (forall r h',
      WithOperations_add_operation self member h = Ok (r, h') ->
      r = None
      /\ h' !! self = h !! self
      /\ length h' = S (length h)
      /\ exists partial,
           owner_is_partial h self = Ok partial
           /\ owner_of h' (length h)
              = Ok (if partial then None else Some self))
  /\ (forall b h',
        IdlInterface_add_operation self member h = Ok (b, h') -> b = false).
Proof.
  intros Ho Hacc.
  assert (Hadd : forall r h',
             WithOperations_add_operation self member h = Ok (r, h') ->
             r = None
             /\ h' !! self = h !! self
             /\ length h' = S (length h)
             /\ exists partial,
                  owner_is_partial h self = Ok partial
                  /\ owner_of h' (length h)
                     = Ok (if partial then None else Some self)).
  { intros r h' H. destruct (add_operation_inv _ _ _ _ _ H)
      as (o0 & fresh & partial & Ho0 & Hcopy & Hp & Hs & Hl & Hold & Hr).
    rewrite Ho in Ho0. injection Ho0 as <-.
    destruct Hr as [[-> Hself] | (_ & Hflags & _)].
    - split; [reflexivity|]. split; [exact Hself|]. split; [exact Hl|].
      exists partial. split; [exact Hp|]. unfold owner_of. rewrite Hs.
      destruct (operation_copy_flags _ _ Hcopy) as (_ & _ & Hown).
      destruct partial; simpl; congruence.
    - destruct (op_is_getter o), (op_is_setter o), (op_is_deleter o);
        discriminate. }
  split; [exact Hadd|].
  intros b h' H. unfold IdlInterface_add_operation in H.
  inv_bind_as H r Er. destruct r as [r h1].
  destruct (Hadd _ _ Er) as (-> & _). now injection H as <-.
Qed.

(** X22 (witness): a getter without a name added to [Foo]. *)
Lemma accessor_not_indexed_witness :
  let h :=
    [ObjInterface
       (IdlInterface_init "Foo" false false None None None ParentNone false);
     ObjOperation
       (IdlOperation_init "" (Some (IdlType "long")) [] false false true
          false false false false false)] in
  exists h',
    IdlInterface_add_operation 0 1 h = Ok (false, h')
    /\ operations h' 0 = Ok []
    /\ owner_of h' 2 = Ok (Some 0).
Proof.
  intros h.
  destruct (IdlInterface_add_operation 0 1 h) as [[b h']|] eqn:E;
    [|discriminate E].
  pose proof (proj2 (accessor_not_indexed h 0 1 _ eq_refl eq_refl) b h' E)
    as ->.
  exists h'. split; [reflexivity|].
  vm_compute in E. injection E as <-. split; reflexivity.
Defined.

Lemma get_WithConstants_lookup (h h' : heap) (self : loc) :
  h' !! self = h !! self -> get_WithConstants h' self = get_WithConstants h self.
Proof. unfold get_WithConstants. now intros ->. Qed.

(** X23: after a constant is added, its name is indexed: by the constant
    that held the name before, in which case nothing has changed, or else
    by the given object itself, appended to the list of constants; no
    object is created. *)
Theorem add_constant_lookup (h h' : heap) (self c : loc) (k : IdlConstant) :
  add_constant self c h = Ok h' ->
  get_constant h c = Ok k ->
  exists w,
    get_WithConstants h self = Ok w
    /\ constant h' self (const_name k)
       = Ok (Some (default c (_constants_dict w !! const_name k)))
    /\ length h' = length h
    /\ (is_Some (_constants_dict w !! const_name k) -> h' = h)
    /\ (_constants_dict w !! const_name k = None ->
        bind (get_WithConstants h' self) (fun w' => Ok (constants w'))
        = Ok (constants w ++ [c])).
Proof.
  intros H Hk. unfold add_constant in H. inv_bind_as H w Ew.
  rewrite Hk in H. simpl in H. exists w. split; [exact Ew|].
  unfold constant.
  destruct (_constants_dict w !! const_name k) as [c0|] eqn:Hd.
  - injection H as <-. rewrite Ew. simpl. rewrite Hd.
    repeat split; try reflexivity. discriminate.
  - inv_bind_as H h1 E1.
    assert (Hne : c <> self).
    { intros ->. unfold get_constant, get_WithConstants in *.
      destruct (h !! self) as [[]|]; discriminate. }
    assert (Hw1 : get_WithConstants h1 self
                  = Ok {| constants := constants w ++ [c];
                          _constants_dict :=
                            <[ const_name k := c ]> (_constants_dict w) |}).
    { unfold put_WithConstants in E1. unfold get_WithConstants in *.
      destruct (h !! self) as [[]|] eqn:Hs; try discriminate;
        injection E1 as <-;
        rewrite list_lookup_insert_eq by (eapply lookup_lt_length; exact Hs);
        reflexivity. }
    assert (Hl1 : length h1 = length h).
    { unfold put_WithConstants in E1.
      destruct (h !! self) as [[]|]; try discriminate; injection E1 as <-;
        apply length_insert. }
    pose proof (set_owner_lookup h1 h' c self (Some self) H (not_eq_sym Hne))
      as Hlk.
    assert (Hl : length h' = length h1).
    { unfold set_owner in H. inv_bind_as H partial Ep. destruct partial;
        [now injection H as <-|].
      destruct (h1 !! c) as [[]|]; try discriminate; injection H as <-;
        apply length_insert. }
    rewrite (get_WithConstants_lookup h1 h' self Hlk), Hw1.
    simpl. rewrite lookup_insert_eq.
    repeat split; try reflexivity; [congruence | intros [x Hx]; discriminate].
Qed.

(** X23 (witness): the constant [K] added to the interface [Foo]. *)
Lemma add_constant_lookup_witness :
  let h :=
    [ObjInterface
       (IdlInterface_init "Foo" false false None None None ParentNone false);
     ObjConstant (IdlConstant_init "K" (IdlType "long") (PyStr "1"))] in
  exists h', add_constant 0 1 h = Ok h' /\ constant h' 0 "K" = Ok (Some 1).
Proof.
  intros h.
  destruct (add_constant 0 1 h) as [h'|] eqn:E; [|discriminate E].
  exists h'. split; [reflexivity|].
  destruct (add_constant_lookup h h' 0 1 _ E eq_refl) as (w & Hw & Hc & _).
  injection Hw as <-. exact Hc.
Defined.

Lemma IdlDictionaryMember_copy_inv (m fresh : IdlDictionaryMember) :
  IdlDictionaryMember_copy m = Ok fresh ->
  member_name fresh = member_name m
  /\ member_idl_type fresh = member_idl_type m
  /\ member_is_required fresh = member_is_required m
  /\ member_owner fresh = None.
Proof.
  unfold IdlDictionaryMember_copy. intros H. inv_bind_as H ext E.
  injection H as <-. repeat split.
Qed.

(** X24: adding a member to a dictionary changes nothing when the name is
    taken; otherwise a new object is stored and indexed under the name,
    the caller's object is left as it was, and the stored member has the
    dictionary as its owner unless the dictionary is partial, in which
    case it has none. *)
Theorem add_member_lookup (h h' : heap) (self m : loc)
    (mo : IdlDictionaryMember) :
  add_member self m h = Ok h' ->
  get_member h m = Ok mo ->
  exists d,
    get_dictionary h self = Ok d
    /\ ((is_Some (dict_members_dict d !! member_name mo) /\ h' = h)
        \/ (dict_members_dict d !! member_name mo = None
            /\ member h' self (member_name mo) = Ok (length h)
            /\ has_member h' self (inl (member_name mo)) = Ok true
            /\ length h' = S (length h)
            /\ h' !! m = h !! m
            /\ owner_of h' (length h)
               = Ok (if dict_is_partial d then None else Some self))).
Proof.
  intros H Hm. unfold add_member in H. inv_bind_as H d Ed.
  rewrite Hm in H. simpl in H. exists d. split; [exact Ed|].
  destruct (dict_members_dict d !! member_name mo) as [x|] eqn:Hd.
  { left. injection H as <-. eauto. }
  right. split; [reflexivity|]. inv_bind_as H fresh Ec. unfold alloc in H.
  destruct (IdlDictionaryMember_copy_inv _ _ Ec) as (F1 & F2 & F3 & F4).
  assert (Hself : h !! self = Some (ObjDictionary d)).
  { unfold get_dictionary in Ed. destruct (h !! self) as [[]|];
      try discriminate. congruence. }
  pose proof (lookup_lt_length _ _ _ Hself) as Hlt.
  assert (Hmm : h !! m = Some (ObjDictionaryMember mo)).
  { unfold get_member in Hm. destruct (h !! m) as [[]|];
      try discriminate. congruence. }
  pose proof (lookup_lt_length _ _ _ Hmm) as Hmlt.
  assert (Hms : m <> self) by (intros ->; congruence).
  set (d' := dict_with_members (dict_members d ++ [length h])
               (<[ member_name fresh := length h ]> (dict_members_dict d))
               (setdefault_append (name (member_idl_type fresh)) (length h)
                  (dict_members_typedict d)) d) in *.
  set (h2 := <[ self := ObjDictionary d' ]> (h ++ [ObjDictionaryMember fresh]))
    in *.
  assert (Hl2 : length h2 = S (length h)).
  { unfold h2. rewrite length_insert, length_app. simpl. lia. }
  assert (H2self : h2 !! self = Some (ObjDictionary d')).
  { unfold h2. apply list_lookup_insert_eq. rewrite length_app. simpl. lia. }
  assert (H2new : h2 !! length h = Some (ObjDictionaryMember fresh)).
  { unfold h2. rewrite list_lookup_insert_ne by lia.
    now apply list_lookup_middle. }
  assert (H2m : h2 !! m = h !! m).
  { unfold h2. rewrite list_lookup_insert_ne by congruence.
    now apply lookup_app_l. }
  unfold set_owner, owner_is_partial in H. rewrite H2self in H. simpl in H.
  assert (Hh' : h' = (if dict_is_partial d then h2
                      else <[ length h :=
                                ObjDictionaryMember
                                  (member_with_owner (Some self) fresh) ]> h2)).
  { destruct (dict_is_partial d); [now injection H as <-|].
    rewrite H2new in H. now injection H as <-. }
  assert (Hs' : h' !! self = Some (ObjDictionary d')).
  { rewrite Hh'. destruct (dict_is_partial d); [exact H2self|].
    now rewrite list_lookup_insert_ne by lia. }
  unfold member, has_member, get_dictionary, owner_of. rewrite Hs'. simpl.
  rewrite F1, lookup_insert_eq. split; [reflexivity|]. split; [reflexivity|].
  rewrite Hh'. destruct (dict_is_partial d).
  - split; [exact Hl2|]. split; [exact H2m|]. now rewrite H2new, F4.
  - rewrite length_insert. split; [exact Hl2|].
    rewrite list_lookup_insert_ne by lia. split; [exact H2m|].
    now rewrite list_lookup_insert_eq by lia.
Qed.

(** X24 (witness): the member [x] added to a partial dictionary. *)
Lemma add_member_lookup_witness :
  let h :=
    [ObjDictionary (IdlDictionary_init "Options" ParentNone true);
     ObjDictionaryMember
       (IdlDictionaryMember_init "x" (IdlType "long") false PyNone)] in
  exists h',
    add_member 0 1 h = Ok h'
    /\ member h' 0 "x" = Ok 2
    /\ owner_of h' 2 = Ok None.
Proof.
  intros h.
  destruct (add_member 0 1 h) as [h'|] eqn:E; [|discriminate E].
  exists h'. split; [reflexivity|].
  destruct (add_member_lookup h h' 0 1 _ E eq_refl)
    as (d & Hd & [([x Hx] & _) | (_ & H1 & _ & _ & _ & H2)]).
  - injection Hd as <-. discriminate Hx.
  - injection Hd as <-. split; [exact H1 | exact H2].
Defined.

End ContainerExtras.

(** ** Inheritance, operation lookup, enumerations and type reductions *)

Section LookupExtras.
Import Types ExtAttrs Definitions Transformer.

Lemma is_subclass_of_loop_mono (h : heap) (other : string + loc)
    (k fuel : nat) (p : parent_ref) (r : result bool) :
  is_subclass_of_loop fuel h p other = Some r ->
  is_subclass_of_loop (fuel + k) h p other = Some r.
Proof.
  revert p. induction fuel as [|fuel IH]; intros p; [discriminate|].
  simpl. destruct p as [|s|l]; try easy.
  destruct (h !! l) as [[]|]; try easy.
  destruct (match other with
            | inl n => String.eqb n (iface_name i)
            | inr o => Nat.eqb o l
            end); [easy|]. apply IH.
Qed.

Lemma is_subclass_of_loop_trans (h : heap) (b : loc) (ib : IdlInterface)
    (other : string + loc) (fuel2 : nat) :
  get_interface h b = Ok ib ->
  is_subclass_of_loop fuel2 h (iface_parent ib) other = Some (Ok true) ->
  forall fuel1 p,
    is_subclass_of_loop fuel1 h p (inr b) = Some (Ok true) ->
    is_subclass_of_loop (fuel1 + fuel2) h p other = Some (Ok true).
Proof.
  intros Hb H2. induction fuel1 as [|fuel1 IH]; intros p H1; [discriminate|].
  simpl in *. destruct p as [|s|l].
  - discriminate.
  - destruct (String.eqb s ""); discriminate.
  - destruct (h !! l) as [[]|] eqn:Hl; try discriminate.
    destruct (match other with
              | inl n => String.eqb n (iface_name i)
              | inr o => Nat.eqb o l
              end); [reflexivity|].
    destruct (Nat.eqb_spec b l) as [->|Hne].
    + unfold get_interface in Hb. rewrite Hl in Hb. injection Hb as <-.
      rewrite Nat.add_comm. now apply is_subclass_of_loop_mono.
    + now apply IH.
Qed.

(** X25: inheritance is transitive.  When the interface [a] is found to
    descend from the interface [b], and [b] from [other] (an interface or
    a name), then [a] is found to descend from [other], within the sum of
    the two numbers of steps. *)
Theorem is_subclass_of_transitive (h : heap) (a b : loc)
    (other : string + loc) (fuel1 fuel2 : nat) :
  is_subclass_of fuel1 h a (inr b) = Some (Ok true) ->
  is_subclass_of fuel2 h b other = Some (Ok true) ->
  is_subclass_of (fuel1 + fuel2) h a other = Some (Ok true).
Proof.
  unfold is_subclass_of. intros H1 H2.
  destruct (get_interface h a) as [ia|]; [|discriminate].
  destruct (get_interface h b) as [ib|] eqn:Hb; [|discriminate].
  now apply (is_subclass_of_loop_trans h b ib).
Qed.

(** X25 (witness): [C] descends from [B], and [B] from [A]. *)
Lemma is_subclass_of_transitive_witness :
  let h :=
    [ObjInterface
       (IdlInterface_init "A" false false None None None ParentNone false);
     ObjInterface
       (IdlInterface_init "B" false false None None None (ParentObject 0)
          false);
     ObjInterface
       (IdlInterface_init "C" false false None None None (ParentObject 1)
          false)] in
  is_subclass_of 2 h 2 (inl "A") = Some (Ok true).
Proof.
  intros h.
  apply (is_subclass_of_transitive h 2 1 (inl "A") 1 1); reflexivity.
Defined.

Lemma matching_operations_spec (h : heap) (ps : list argument_type)
    (candidates ops : list loc) :
  matching_operations h ps candidates = Ok ops ->
  sublist ops candidates
  /\ forall l,
       In l ops
       <-> In l candidates
           /\ exists o,
                get_operation h l = Ok o
                /\ length (op_arguments o) = length ps
                /\ arguments_match ps (op_arguments o) = Ok true.
Proof.
  revert ops. induction candidates as [|op rest IH]; intros ops H.
  - injection H as <-. split; [constructor|]. intros l. split; [easy|].
    now intros [[] _].
  - simpl in H. apply bind_Ok in H as (o & Eo & H).
    destruct (Nat.eqb_spec (length (op_arguments o)) (length ps)) as [Hlen|Hlen];
      simpl in H.
    + apply bind_Ok in H as (matched & Em & H).
      apply bind_Ok in H as (ops' & Er & H). injection H as <-.
      destruct (IH _ Er) as (Hsub & Hin).
      destruct matched.
      * split; [now constructor|]. intros l. split.
        -- intros [<-|Hl]; [split; [now left | eauto]|].
           apply Hin in Hl as (Hl & Hex). split; [now right | exact Hex].
        -- intros ([<-|Hl] & Hex); [now left|]. right. apply Hin. now split.
      * split; [now constructor|]. intros l. split.
        -- intros Hl. apply Hin in Hl as (Hl & Hex).
           split; [now right | exact Hex].
        -- intros ([<-|Hl] & Hex); [|apply Hin; now split].
           destruct Hex as (o' & Ho' & _ & Hm'). congruence.
    + destruct (IH _ H) as (Hsub & Hin). split; [now constructor|].
      intros l. split.
      * intros Hl. apply Hin in Hl as (Hl & Hex).
        split; [now right | exact Hex].
      * intros ([<-|Hl] & Hex); [|apply Hin; now split].
        destruct Hex as (o' & Ho' & Hlen' & _). congruence.
Qed.

(** X26: with a list of argument types, [find_operations] returns, in the
    order of the index, exactly those operations indexed under the name
    that have as many arguments as the list has entries and match it entry
    by entry; when a count is expected, the result has that length. *)
Theorem find_operations_selects (h : heap) (self : loc) (n : string)
    (ps : list argument_type) (expect_count : option Z) (ops : list loc) :
  find_operations h self n (Some ps) expect_count = Ok ops ->
  exists w,
    get_WithOperations h self = Ok w
    /\ sublist ops (default [] (_operations_dict w !! n))
    /\ (forall l,
          In l ops
          <-> In l (default [] (_operations_dict w !! n))
              /\ exists o,
                   get_operation h l = Ok o
                   /\ length (op_arguments o) = length ps
                   /\ arguments_match ps (op_arguments o) = Ok true)
    /\ (forall k, expect_count = Some k -> Z.of_nat (length ops) = k).
Proof.
  unfold find_operations. intros H.
  apply bind_Ok in H as (w & Ew & H). apply bind_Ok in H as (ops' & Eo & H).
  exists w. split; [exact Ew|].
  destruct (matching_operations_spec _ _ _ _ Eo) as (Hsub & Hin).
  destruct expect_count as [k|].
  - destruct (Z.eqb_spec (Z.of_nat (length ops')) k) as [Hk|Hk];
      [|discriminate]. injection H as <-.
    repeat apply conj; [exact Hsub | exact Hin |]. intros k' [= <-]. exact Hk.
  - injection H as <-.
    repeat apply conj; [exact Hsub | exact Hin | discriminate].
Qed.

(** X26 (witness): of two overloads of [f], only the one taking a
    [long] matches. *)
Lemma find_operations_selects_witness :
  let arg t := IdlArgument_init "x" (IdlType t) false false PyNone in
  let h :=
    [ObjInterface
       (IdlInterface_init "Foo" false false None None None ParentNone false);
     ObjOperation
       (IdlOperation_init "f" (Some (IdlType "void")) [arg "long"] false false
          false false false false false false);
     ObjOperation
       (IdlOperation_init "f" (Some (IdlType "void")) [arg "boolean"] false
          false false false false false false false)] in
  exists h1 h2,
    IdlInterface_add_operation 0 1 h = Ok (true, h1)
    /\ IdlInterface_add_operation 0 2 h1 = Ok (true, h2)
    /\ exists ops,
         find_operations h2 0 "f" (Some [ArgumentType (IdlType "long")])
           (Some 1%Z) = Ok ops
         /\ length ops = 1.
Proof.
  intros arg h. eexists. eexists.
  split; [vm_compute; reflexivity|]. split; [vm_compute; reflexivity|].
  lazymatch goal with
  | |- exists ops, find_operations ?h2 _ _ _ _ = _ /\ _ =>
      destruct (find_operations h2 0 "f"
                  (Some [ArgumentType (IdlType "long")]) (Some 1%Z))
        as [ops|] eqn:F
  end.
  2:{ vm_compute in F. discriminate F. }
  exists ops. split; [reflexivity|].
  destruct (find_operations_selects _ _ _ _ _ _ F) as (_ & _ & _ & _ & Hk).
  apply Nat2Z.inj. exact (Hk 1%Z eq_refl).
Defined.

(** X27: [operation] returns an operation exactly when [find_operations],
    asked without an expected count, finds that single operation; when
    that search finds none or several, [operation] raises the exception of
    the count check; it never raises [IndexError]. *)
Theorem operation_single (h : heap) (self : loc) (n : string)
    (ps : option (list argument_type)) :
  (forall l,
      operation h self n ps = Ok l
      <-> find_operations h self n ps None = Ok [l])
  /\ (forall ops,
        find_operations h self n ps None = Ok ops ->
        length ops <> 1 ->
        operation h self n ps
        = Raise (Exception
                   "The number of operations returned is not as expected"))
  /\ operation h self n ps <> Raise IndexError.
Proof.
  unfold operation, find_operations.
  destruct (get_WithOperations h self) as [w|e] eqn:Ew; simpl.
  2:{ split; [intros l; split; discriminate|]. split; [discriminate|].
      intros [= ->]. unfold get_WithOperations in Ew.
      destruct (h !! self) as [[]|]; discriminate. }
  destruct (match ps with
            | Some ps0 =>
                matching_operations h ps0 (default [] (_operations_dict w !! n))
            | None => Ok (default [] (_operations_dict w !! n))
            end) as [ops|e] eqn:Eo; simpl.
  - destruct ops as [|x [|y rest]].
    + simpl. split; [intros l; split; discriminate|].
      split; [reflexivity | congruence].
    + simpl. split; [intros l; split; congruence|]. split; [|congruence].
      intros ops [= <-] Hl. now contradiction Hl.
    + assert (Hk : Z.eqb (Z.of_nat (length (x :: y :: rest))) 1 = false)
        by (apply Z.eqb_neq; simpl length; lia).
      rewrite Hk. simpl. split; [intros l; split; discriminate|].
      split; [reflexivity | congruence].
  - split; [intros l; split; discriminate|]. split; [discriminate|].
    intros [= ->]. destruct ps as [ps0|]; [|discriminate].
    revert Eo. generalize (default [] (_operations_dict w !! n)).
    intros cands. induction cands as [|op rest IH]; [discriminate|].
    simpl. destruct (get_operation h op) as [o|e] eqn:Ho; simpl.
    2:{ unfold get_operation in Ho. destruct (h !! op) as [[]|];
          congruence. }
    destruct (negb _); [exact IH|].
    destruct (arguments_match ps0 (op_arguments o)) as [m|e] eqn:Em; simpl.
    + destruct (matching_operations h ps0 rest); [discriminate | exact IH].
    + intros [= ->]. clear -Em. revert Em. generalize (op_arguments o).
      induction ps0 as [|p ps0 IHp]; intros args; [discriminate|].
      destruct args as [|a args]; [discriminate|]. simpl.
      destruct p; try discriminate; [apply IHp | |].
      * destruct (String.eqb _ _); [apply IHp | discriminate].
      * destruct (type_eq _ _); [apply IHp | discriminate].
Qed.

Lemma lstrip_quotes_clean (s : string) :
  starts_with_quote (lstrip_quotes s) = false.
Proof.
  induction s as [|c s IH]; [reflexivity|]. simpl.
  destruct (Ascii.eqb c dquote) eqn:E; [exact IH | simpl; exact E].
Qed.

Lemma rstrip_quotes_clean (s : string) :
  ends_with_quote (rstrip_quotes s) = false.
Proof.
  induction s as [|c s IH]; [reflexivity|]. simpl.
  destruct (rstrip_quotes s) as [|c' r] eqn:E.
  - destruct (Ascii.eqb c dquote) eqn:Ec; [reflexivity | simpl; exact Ec].
  - exact IH.
Qed.

Lemma rstrip_quotes_start (s : string) :
  starts_with_quote s = false -> starts_with_quote (rstrip_quotes s) = false.
Proof.
  destruct s as [|c s]; [reflexivity|]. simpl. intros Hc.
  destruct (rstrip_quotes s); [rewrite Hc|]; exact Hc.
Qed.

Lemma strip_quotes_clean (s : string) :
  starts_with_quote (strip_quotes s) = false
  /\ ends_with_quote (strip_quotes s) = false.
Proof.
  unfold strip_quotes. split.
  - apply rstrip_quotes_start, lstrip_quotes_clean.
  - apply rstrip_quotes_clean.
Qed.

(** X28: [add_value] keeps every value the set had, and every string it
    adds, also from a set of values, neither starts nor ends with a
    double quote. *)
Theorem add_value_strips (value : enum_value) (vs vs' : gset (string + Z)) :
  add_value value vs = Ok vs' ->
  vs ⊆ vs'
  /\ forall s, inl s ∈ vs' ->
       inl s ∈ vs
       \/ (starts_with_quote s = false /\ ends_with_quote s = false).
Proof.
  revert vs vs'.
  induction value as [s0|z|elements IH|] using enum_value_nested_ind;
    intros vs vs' H.
  - injection H as <-. split; [set_solver|]. intros s Hs.
    apply elem_of_union in Hs as [Hs|Hs]; [|now left].
    apply elem_of_singleton in Hs. injection Hs as ->.
    right. apply strip_quotes_clean.
  - injection H as <-. split; [set_solver|]. intros s Hs.
    apply elem_of_union in Hs as [Hs|Hs]; [|now left].
    apply elem_of_singleton in Hs. discriminate.
  - cbn [add_value] in H. revert vs H.
    induction IH as [|v rest Hv _ IHrest]; intros vs H.
    + injection H as <-. split; [set_solver|]. intros s Hs. now left.
    + simpl in H. destruct (add_value v vs) as [vs1|e] eqn:E1.
      * destruct (Hv _ _ E1) as (Hsub1 & Hnew1).
        destruct (IHrest _ H) as (Hsub2 & Hnew2).
        split; [set_solver|]. intros s Hs.
        destruct (Hnew2 s Hs) as [Hs1|Hc]; [|now right]. now apply Hnew1.
      * exfalso. clear -H. induction rest as [|v' rest IHr];
          [discriminate | exact (IHr H)].
  - discriminate.
Qed.

(** X28 (witness): a quoted string and a set of values added to an empty
    enumeration. *)
Lemma add_value_strips_witness :
  exists vs',
    add_value
      (ValueSet [ValueStr (quoted "a"); ValueSet [ValueStr "b"; ValueInt 1]])
      ∅ = Ok vs'
    /\ forall s, inl s ∈ vs' ->
         starts_with_quote s = false /\ ends_with_quote s = false.
Proof.
  destruct (add_value
              (ValueSet
                 [ValueStr (quoted "a"); ValueSet [ValueStr "b"; ValueInt 1]])
              ∅) as [vs'|] eqn:E; [|discriminate E].
  exists vs'. split; [reflexivity|]. intros s Hs.
  destruct (proj2 (add_value_strips _ _ _ E) s Hs) as [Hin|Hc]; [|exact Hc].
  now apply not_elem_of_empty in Hin.
Defined.

(** X29: a string added to an enumeration is removed again by its
    stripped form; removing it by a form with a leading or trailing
    double quote raises [KeyError], unless the set held that very
    string before. *)
Theorem remove_value_after_add (s : string) (vs : gset (string + Z)) :
  exists vs',
    add_value (ValueStr s) vs = Ok vs'
    /\ remove_value (strip_quotes s) vs'
       = Ok (vs ∖ {[ inl (strip_quotes s) ]})
    /\ (starts_with_quote s || ends_with_quote s = true ->
        inl s ∉ vs ->
        remove_value s vs' = Raise KeyError).
Proof.
  eexists. split; [reflexivity|]. unfold remove_value. split.
  - rewrite bool_decide_eq_true_2 by set_solver. f_equal. set_solver.
  - intros Hq Hn. rewrite bool_decide_eq_false_2; [reflexivity|].
    intros Hin. apply elem_of_union in Hin as [Hin|Hin]; [|contradiction].
    apply elem_of_singleton in Hin. injection Hin as Heq.
    destruct (strip_quotes_clean s) as (H1 & H2). rewrite <- Heq in H1, H2.
    rewrite H1, H2 in Hq. discriminate.
Qed.

Lemma scan_type_fst (nodes : list node) :
  fst (scan_type nodes) = last_type nodes.
Proof.
  unfold scan_type, last_type.
  generalize (@None IdlTypeBase) (PyBool false).
  induction nodes as [|n nodes IH]; intros acc m; [reflexivity|].
  simpl. destruct n as [ty v|t|]; [|apply IH|apply IH].
  destruct (String.eqb ty "NULLABLE"); apply IH.
Qed.

(** X30: when [type] succeeds it returns a type built from the last type
    among the children: that type itself, or the nullable type over it,
    and then the constructor of nullable types has accepted it.  Without
    a type among the children it fails its assertion, and so does
    [distinguishable_type], which otherwise agrees with [type] on one or
    two children and fails on any other number. *)
Theorem type_reduction (nodes : list node) :
  (forall r, type nodes = Ok r ->
     exists t,
       last_type nodes = Some t
       /\ (r = Reduced (TypeNode t)
           \/ (r = Reduced (TypeNode (IdlNullableType t))
               /\ IdlNullableType_init t = Ok (IdlNullableType t))))
  /\ (last_type nodes = None -> type nodes = Raise AssertionError)
  /\ distinguishable_type nodes
     = (if Nat.eqb (length nodes) 1 || Nat.eqb (length nodes) 2
        then type nodes else Raise AssertionError).
Proof.
  pose proof (scan_type_fst nodes) as Hf. unfold distinguishable_type, type.
  destruct (scan_type nodes) as [[t|] m]; simpl in Hf; rewrite <- Hf.
  - repeat apply conj; [| discriminate |].
    + intros r H. exists t. split; [reflexivity|].
      destruct (truthy m); [|left; congruence].
      apply bind_Ok in H as (x & Ex & H). injection H as <-. right.
      assert (x = IdlNullableType t) as ->; [|now split].
      unfold IdlNullableType_init in Ex.
      destruct (String.eqb (name t) "Any"); [discriminate|].
      destruct t; try discriminate; try congruence.
      destruct (Nat.ltb _ _); [discriminate | congruence].
    + now destruct (Nat.eqb (length nodes) 1 || Nat.eqb (length nodes) 2).
  - repeat apply conj; [discriminate | reflexivity |].
    now destruct (Nat.eqb (length nodes) 1 || Nat.eqb (length nodes) 2).
Qed.

End LookupExtras.
